(** * Bounded response synthesis of the Databricks and Notion MCP servers

    A shallow embedding of the shaping functions of
    [databricks/server/src/main.py] and [notion/server/src/main.py]:
    text truncation, offset/limit windows, the notebook cell model
    (parse, validate, update, reconstruct), the poll-until-terminal loop
    and the eager block traversal, followed by the properties that the
    specification states about them.

    Conventions of the embedding.
    - A Python [str] is a [string]; one [ascii] stands for one code point
      (the code points U+0000 to U+00FF), so [String.length] is [len].
    - A Python [int] is a [Z].
    - A Python [dict] with string keys is a [gmap string value].
    - Upstream services are explicit state: every operation takes the
      state of the remote workspace and returns the new one together with
      its outcome, which is a returned value or a raised exception. *)

From Stdlib Require Import ZArith String Ascii List Lia DecimalString.
From stdpp Require Import gmap strings list.

Set Warnings "-register-all".

Open Scope string_scope.
Open Scope list_scope.
Open Scope Z_scope.

(** ** Python values *)

Inductive value :=
| VNone
| VBool (b : bool)
| VInt (z : Z)
| VStr (s : string)
| VList (l : list value)
| VDict (d : gmap string value)
| VIntDict (d : gmap Z value).

(** [s if s is not None else None], as a value. *)
Definition opt_value (o : option string) : value :=
  match o with Some s => VStr s | None => VNone end.

(** Truthiness of an optional string: [None] and the empty string are false. *)
Definition truthy (o : option string) : option string :=
  match o with
  | Some "" => None
  | _ => o
  end.

(** ** Python strings *)

Module PyStr.

Definition NL : ascii := "010"%char.
Definition nl : string := String NL "".

Definition len (s : string) : Z := Z.of_nat (String.length s).

(** [str.isspace] on one code point below U+0100: the C0 controls
    U+0009..U+000D and U+001C..U+001F, the space, NEL and NBSP. *)
Definition isspace (c : ascii) : bool :=
  let n := N_of_ascii c in
  ((9 <=? n) && (n <=? 13) || (28 <=? n) && (n <=? 32)
   || (n =? 133) || (n =? 160))%N.

Fixpoint lstrip (s : string) : string :=
  match s with
  | "" => ""
  | String c s' => if isspace c then lstrip s' else s
  end.

Fixpoint rstrip (s : string) : string :=
  match s with
  | "" => ""
  | String c s' =>
      match rstrip s' with
      | "" => if isspace c then "" else String c ""
      | r => String c r
      end
  end.

(** [s.strip()] *)
Definition strip (s : string) : string := rstrip (lstrip s).

(** [s.startswith(p)] *)
Definition startswith (s p : string) : bool := String.prefix p s.

(** [needle in s] *)
Fixpoint contains (needle s : string) : bool :=
  if String.prefix needle s then true
  else match s with
       | "" => false
       | String _ s' => contains needle s'
       end.

(** [s.split(c)] for a one-character separator: never the empty list. *)
Fixpoint split (c : ascii) (s : string) : list string :=
  match s with
  | "" => [""]
  | String a s' =>
      if Ascii.eqb a c then "" :: split c s'
      else match split c s' with
           | [] => [String a ""]
           | l :: ls => String a l :: ls
           end
  end.

(** [sep.join(l)] *)
Definition join (sep : string) (l : list string) : string :=
  String.concat sep l.

Fixpoint take (n : nat) (s : string) : string :=
  match n, s with
  | O, _ => ""
  | S n', String c s' => String c (take n' s')
  | S _, "" => ""
  end.

(** [s[:hi]]: a negative bound counts from the end, and both are clamped. *)
Definition slice_to (s : string) (hi : Z) : string :=
  let n := len s in
  let hi' := if hi <? 0 then Z.max 0 (n + hi) else Z.min hi n in
  take (Z.to_nat hi') s.

Fixpoint drop (n : nat) (s : string) : string :=
  match n, s with
  | O, _ => s
  | S n', String _ s' => drop n' s'
  | S _, "" => ""
  end.

(** [s[lo:]]: a negative bound counts from the end, and both are clamped. *)
Definition slice_from (s : string) (lo : Z) : string :=
  let n := len s in
  let lo' := if lo <? 0 then Z.max 0 (n + lo) else Z.min lo n in
  drop (Z.to_nat lo') s.

(** [str(n)] for an [int]. *)
Definition of_N (n : N) : string := NilZero.string_of_uint (N.to_uint n).

Definition of_int (z : Z) : string :=
  if z <? 0 then "-" +:+ of_N (Z.abs_N z) else of_N (Z.to_N z).

(** Thousands separators over a run of digits, as [format(n, ",")] puts
    them: one comma before every group of three counted from the right. *)
Fixpoint group3 (digits : string) : string :=
  match digits with
  | "" => ""
  | String c rest =>
      let k := String.length rest in
      if (negb (Nat.eqb k 0) && Nat.eqb (k mod 3) 0)%bool
      then String c ("," +:+ group3 rest)
      else String c (group3 rest)
  end.

(** [f"{z:,}"] *)
Definition of_int_commas (z : Z) : string :=
  if z <? 0 then "-" +:+ group3 (of_N (Z.abs_N z)) else group3 (of_N (Z.to_N z)).

(** [str(l)] for a list of [int]: [[1, 2, 3]]. *)
Definition of_int_list (l : list Z) : string :=
  "[" +:+ join ", " (map of_int l) +:+ "]".

End PyStr.

(** ** Python list slices *)

Module PyList.

Section Slice.
Context {A : Type}.

Definition len (l : list A) : Z := Z.of_nat (length l).

(** An index of a slice, resolved as Python does: a negative one counts
    from the end, and the result is clamped to [0, len]. *)
Definition clamp (n i : Z) : Z :=
  if i <? 0 then Z.max 0 (n + i) else Z.min i n.

(** [l[lo:hi]] *)
Definition slice (l : list A) (lo hi : Z) : list A :=
  let n := len l in
  let lo' := clamp n lo in
  let hi' := clamp n hi in
  firstn (Z.to_nat (hi' - lo')) (skipn (Z.to_nat lo') l).

(** [l[lo:]] *)
Definition slice_from (l : list A) (lo : Z) : list A :=
  skipn (Z.to_nat (clamp (len l) lo)) l.

(** [l[i] = x]: a negative index counts from the end; out of range is
    an [IndexError], which is [None] here. *)
Definition set_item (l : list A) (i : Z) (x : A) : option (list A) :=
  let n := len l in
  if (0 <=? i) && (i <? n) then Some (<[Z.to_nat i := x]> l)
  else if (i <? 0) && (- n <=? i) then Some (<[Z.to_nat (n + i) := x]> l)
  else None.

End Slice.

End PyList.

(** ** Outcomes of a call: a returned value or a raised exception *)

Record exn := Exn { exn_type : string; exn_msg : string }.

Inductive outcome (A : Type) :=
| Return (a : A)
| Raise (e : exn).
Arguments Return {A} a.
Arguments Raise {A} e.


(** ** The Databricks server *)

Module Databricks.

Definition MAX_TEXT_SIZE : Z := 100000.
Definition MAX_CELL_CONTENT : Z := 50000.
Definition MAX_LIST_ITEMS : Z := 100.
Definition MAX_LOG_SIZE : Z := 80000.

(** *** Truncation utilities *)

(** The suffix that [truncate_text] appends. *)
Definition truncation_suffix (max_size total : Z) : string :=
  PyStr.nl +:+ PyStr.nl +:+ "[... truncated, showing "
    +:+ PyStr.of_int_commas max_size +:+ " of "
    +:+ PyStr.of_int_commas total +:+ " chars]".

Definition truncate_text (text : string) (max_size : Z) (field_name : string)
  : string * gmap string value :=
  if (String.eqb text "" || (PyStr.len text <=? max_size))%bool then (text, ∅)
  else
    let truncated := PyStr.slice_to text max_size in
    let metadata : gmap string value :=
      <[field_name +:+ "_shown_size" := VInt max_size]>
        (<[field_name +:+ "_total_size" := VInt (PyStr.len text)]>
           (<[field_name +:+ "_truncated" := VBool true]> ∅)) in
    (truncated +:+ truncation_suffix max_size (PyStr.len text), metadata).

(** *** The upstream workspace

    What the calls of this file see of [WorkspaceClient].  The text of a
    notebook is kept decoded: [export] hands out base64 of it and
    [import_] takes base64 of the new text, and the server decodes the
    one and encodes the other, so base64 does not appear.  Each call is
    a request to the workspace and can raise: [export] for a path
    without a notebook, [import_] when the workspace refuses the write
    (the caller has no handler for either).  A refused [import_] leaves
    the notebook as it was. *)

Record object_info := ObjectInfo {
  item_path : value;
  item_object_type : option string;   (* [object_type.value] *)
  item_language : option string       (* [language.value] *)
}.

Inductive RunLifeCycleState :=
| BLOCKED | INTERNAL_ERROR | PENDING | QUEUED | RUNNING
| SKIPPED | TERMINATED | TERMINATING | WAITING_FOR_RETRY.

Record run_state := RunState {
  life_cycle_state : RunLifeCycleState;
  result_state : option string;       (* [result_state.value] *)
  state_message : value
}.

Record run := Run { state : option run_state }.

Record notebook_output := NotebookOutput {
  nb_result : option string;
  nb_truncated : value
}.

Record run_output := RunOutput {
  out_notebook_output : option notebook_output;
  out_error : option string;
  out_error_trace : option string;
  out_logs : option string
}.

Record cluster := Cluster {
  cluster_id : value;
  cluster_name : value;
  cluster_state : option string;      (* [state.value] *)
  spark_version : value;
  node_type_id : value;
  num_workers : value;
  creator_user_name : value
}.

Record client := Client {
  (** notebook path to its SOURCE text *)
  source : gmap string string;
  (** what [workspace.export] raises for a path without a notebook *)
  export_error : string -> exn;
  (** what [workspace.import_] raises for a path and a new text, [None]
      when the workspace accepts the write *)
  import_error : string -> string -> option exn;
  (** the calls of [workspace.import_] made so far, oldest first *)
  imports : list (string * string);
  (** [workspace.list(path)] *)
  directory : string -> outcome (list object_info);
  (** [jobs.get_run(run_id)], as answered to the k-th call made to the service *)
  run_status : Z -> nat -> outcome run;
  (** [jobs.get_run_output(run_id)] *)
  run_result : Z -> outcome run_output;
  (** number of [jobs.get_run] calls made so far *)
  polls : nat;
  (** the [asyncio.sleep] calls made so far, oldest first *)
  slept : list Z;
  (** [clusters.list()] *)
  cluster_list : outcome (list cluster)
}.

(** Calls are state transformers that return or raise. *)
Definition M (A : Type) : Type := client -> outcome A * client.

Definition ret {A} (a : A) : M A := fun c => (Return a, c).
Definition raise {A} (e : exn) : M A := fun c => (Raise e, c).
Definition bind {A B} (m : M A) (k : A -> M B) : M B :=
  fun c => match m c with
           | (Return a, c') => k a c'
           | (Raise e, c') => (Raise e, c')
           end.
Definition lift {A} (o : outcome A) : M A := fun c => (o, c).

Notation "'do' x <- m ; k" := (bind m (fun x => k))
  (at level 10, x name, m at level 100, k at level 200).
Notation "'do_' m ; k" := (bind m (fun _ => k))
  (at level 10, m at level 100, k at level 200).

Definition workspace_export (path : string) : M string :=
  fun c => match source c !! path with
           | Some text => (Return text, c)
           | None => (Raise (export_error c path), c)
           end.

Definition workspace_import_ (path content : string) : M unit :=
  fun c => match import_error c path content with
           | None =>
               (Return tt,
                {| source := <[path := content]> (source c);
                   export_error := export_error c;
                   import_error := import_error c;
                   imports := imports c ++ [(path, content)];
                   directory := directory c;
                   run_status := run_status c;
                   run_result := run_result c;
                   polls := polls c;
                   slept := slept c;
                   cluster_list := cluster_list c |})
           | Some e =>
               (Raise e,
                {| source := source c;
                   export_error := export_error c;
                   import_error := import_error c;
                   imports := imports c ++ [(path, content)];
                   directory := directory c;
                   run_status := run_status c;
                   run_result := run_result c;
                   polls := polls c;
                   slept := slept c;
                   cluster_list := cluster_list c |})
           end.

Definition workspace_list (path : string) : M (list object_info) :=
  fun c => (directory c path, c).

Definition jobs_get_run (run_id : Z) : M run :=
  fun c => (run_status c run_id (polls c),
            {| source := source c;
               export_error := export_error c;
               import_error := import_error c;
               imports := imports c;
               directory := directory c;
               run_status := run_status c;
               run_result := run_result c;
               polls := S (polls c);
               slept := slept c;
               cluster_list := cluster_list c |}).

Definition jobs_get_run_output (run_id : Z) : M run_output :=
  fun c => (run_result c run_id, c).

Definition asyncio_sleep (seconds : Z) : M unit :=
  fun c => (Return tt,
            {| source := source c;
               export_error := export_error c;
               import_error := import_error c;
               imports := imports c;
               directory := directory c;
               run_status := run_status c;
               run_result := run_result c;
               polls := polls c;
               slept := slept c ++ [seconds];
               cluster_list := cluster_list c |}).

Definition clusters_list : M (list cluster) :=
  fun c => (cluster_list c, c).


(** *** Notebook tools *)

Record read_notebook_args := ReadNotebookArgs {
  rn_notebook_path : string;
  rn_cell_offset : option Z;
  rn_cell_limit : option Z
}.

(** One turn of the loop of [read_notebook] over [enumerate(cells_to_return)];
    the state is [(cells_output, truncation_info)]. *)
Definition read_cell (cell_offset : Z)
    (st : list string * gmap Z value) (ic : Z * string)
  : list string * gmap Z value :=
  let '(cells_output, truncation_info) := st in
  let '(i, cell) := ic in
  let actual_index := cell_offset + i in
  if PyStr.len cell >? MAX_CELL_CONTENT then
    let truncated_cell := fst (truncate_text cell MAX_CELL_CONTENT "cell") in
    (cells_output ++ [truncated_cell],
     <[actual_index :=
         VDict (<["shown_size" := VInt MAX_CELL_CONTENT]>
                  (<["total_size" := VInt (PyStr.len cell)]>
                     (<["truncated" := VBool true]> ∅)))]> truncation_info)
  else (cells_output ++ [cell], truncation_info).

Definition enumerate {A} (l : list A) : list (Z * A) :=
  imap (fun i x => (Z.of_nat i, x)) l.

(** *** Notebook cells *)

Definition CELL_SEPARATOR : string := "# COMMAND ----------".

Definition is_separator_line (line : string) : bool :=
  PyStr.startswith (PyStr.strip line) "# COMMAND ----------".

(** One turn of the loop over the lines: the state is [(cells, current_cell)]. *)
Definition parse_step (st : list string * list string) (line : string)
  : list string * list string :=
  let '(cells, current_cell) := st in
  if is_separator_line line then
    match current_cell with
    | [] => (cells, current_cell)
    | _ :: _ => (cells ++ [PyStr.join PyStr.nl current_cell], [])
    end
  else (cells, current_cell ++ [line]).

Definition _parse_notebook_cells (content : string) : list string :=
  let '(cells, current_cell) :=
    fold_left parse_step (PyStr.split PyStr.NL content) ([], []) in
  match current_cell with
  | [] => cells
  | _ :: _ => cells ++ [PyStr.join PyStr.nl current_cell]
  end.

Definition _reconstruct_notebook (cells : list string) : string :=
  PyStr.join (PyStr.nl +:+ PyStr.nl +:+ CELL_SEPARATOR +:+ PyStr.nl +:+ PyStr.nl) cells.

Definition _validate_cell_content (content : string) : bool * string :=
  if (PyStr.contains "# COMMAND ----------" content
      || (PyStr.contains "# COMMAND" content && PyStr.contains "----------" content))%bool
  then (false, "Cell content cannot contain '# COMMAND ----------' separator - this would corrupt notebook structure")
  else (true, "").

Definition read_notebook (args : read_notebook_args) : M (gmap string value) :=
  let notebook_path := rn_notebook_path args in
  let cell_offset := default 0 (rn_cell_offset args) in
  let cell_limit := rn_cell_limit args in
  do content <- workspace_export notebook_path;
  let all_cells := _parse_notebook_cells content in
  let total_cells := PyList.len all_cells in
  let cells_to_return :=
    match cell_limit with
    | Some cell_limit => PyList.slice all_cells cell_offset (cell_offset + cell_limit)
    | None => PyList.slice_from all_cells cell_offset
    end in
  let '(cells_output, truncation_info) :=
    fold_left (read_cell cell_offset) (enumerate cells_to_return) ([], ∅) in
  let result : gmap string value :=
    <["cells" := VList (map VStr cells_output)]>
      (<["cell_offset" := VInt cell_offset]>
         (<["cells_returned" := VInt (PyList.len cells_output)]>
            (<["total_cells" := VInt total_cells]>
               (<["path" := VStr notebook_path]> ∅)))) in
  let result :=
    if decide (truncation_info = ∅) then result
    else <["truncation_note" := VStr "Some cells were truncated. Use cell_offset/cell_limit to read specific cells."]>
           (<["truncated_cells" := VIntDict truncation_info]> result) in
  let result :=
    if cell_offset + PyList.len cells_output <? total_cells then
      <["next_offset" := VInt (cell_offset + PyList.len cells_output)]>
        (<["has_more" := VBool true]> result)
    else result in
  ret result.

Record list_notebooks_args := ListNotebooksArgs {
  ln_path : string;
  ln_limit : option Z;
  ln_offset : option Z
}.

Definition notebook_item (item : object_info) : value :=
  VDict (<["language" := opt_value (item_language item)]>
           (<["type" := VStr (default "UNKNOWN" (item_object_type item))]>
              (<["path" := item_path item]> ∅))).

Definition list_notebooks (args : list_notebooks_args) : M (gmap string value) :=
  let path := ln_path args in
  let limit := default MAX_LIST_ITEMS (ln_limit args) in
  let offset := default 0 (ln_offset args) in
  do items <- workspace_list path;
  let all_items := map notebook_item items in
  let total_count := PyList.len all_items in
  let paginated_items := PyList.slice all_items offset (offset + limit) in
  let result : gmap string value :=
    <["offset" := VInt offset]>
      (<["returned_count" := VInt (PyList.len paginated_items)]>
         (<["total_count" := VInt total_count]>
            (<["items" := VList paginated_items]>
               (<["path" := VStr path]> ∅)))) in
  let result :=
    if offset + PyList.len paginated_items <? total_count then
      <["next_offset" := VInt (offset + PyList.len paginated_items)]>
        (<["has_more" := VBool true]> result)
    else result in
  ret result.

Record cell_update := CellUpdate {
  index : Z;
  content : string
}.

Record update_notebook_cell_args := UpdateNotebookCellArgs {
  un_notebook_path : string;
  un_cell_index : option Z;
  un_new_content : option string;
  un_updates : option (list cell_update)
}.

Definition error_result (message : string) : gmap string value :=
  <["message" := VStr message]> (<["status" := VStr "error"]> ∅).

Definition out_of_bounds_message (idx n : Z) : string :=
  "Cell index " +:+ PyStr.of_int idx +:+ " out of bounds (notebook has "
    +:+ PyStr.of_int n +:+ " cells, indices 0-" +:+ PyStr.of_int (n - 1) +:+ ")".

Definition invalid_content_message (idx : Z) (error_msg : string) : string :=
  "Invalid content for cell " +:+ PyStr.of_int idx +:+ ": " +:+ error_msg.

(** The validation loop: [Some] result is the error it returns early with. *)
Fixpoint validate_updates (cells : list string) (updates_to_apply : list cell_update)
  : option (gmap string value) :=
  match updates_to_apply with
  | [] => None
  | update :: rest =>
      let idx := index update in
      let cell_content := content update in
      if (idx <? 0) || (idx >=? PyList.len cells) then
        Some (error_result (out_of_bounds_message idx (PyList.len cells)))
      else
        let '(valid, error_msg) := _validate_cell_content cell_content in
        if negb valid then
          Some (error_result (invalid_content_message idx error_msg))
        else validate_updates cells rest
  end.

(** The loop that applies the updates: the state is [(cells, updated_indices)]. *)
Fixpoint apply_updates (cells : list string) (updated_indices : list Z)
    (updates_to_apply : list cell_update) : outcome (list string * list Z) :=
  match updates_to_apply with
  | [] => Return (cells, updated_indices)
  | update :: rest =>
      let idx := index update in
      match PyList.set_item cells idx (content update) with
      | Some cells' => apply_updates cells' (updated_indices ++ [idx]) rest
      | None => Raise (Exn "IndexError" "list assignment index out of range")
      end
  end.

(** The part of [update_notebook_cell] after the checks of the input
    mode: read, validate every update, apply, reconstruct, write. *)
Definition update_cells (notebook_path : string) (updates_to_apply : list cell_update)
  : M (gmap string value) :=
  do content <- workspace_export notebook_path;
  let cells := _parse_notebook_cells content in
  match validate_updates cells updates_to_apply with
  | Some error => ret error
  | None =>
      do applied <- lift (apply_updates cells [] updates_to_apply);
      let '(cells, updated_indices) := applied in
      let new_notebook_content := _reconstruct_notebook cells in
      do_ workspace_import_ notebook_path new_notebook_content;
      ret (<["message" := VStr ("Updated cell(s) " +:+ PyStr.of_int_list updated_indices
                                 +:+ " in " +:+ notebook_path)]>
             (<["total_cells" := VInt (PyList.len cells)]>
                (<["updated_cells" := VList (map VInt updated_indices)]>
                   (<["status" := VStr "success"]>
                      (<["path" := VStr notebook_path]> ∅)))))
  end.

(** [has_single] is [cell_index is not None] and [has_batch] is
    [updates is not None]: the four combinations are the four branches. *)
Definition update_notebook_cell (args : update_notebook_cell_args)
  : M (gmap string value) :=
  let notebook_path := un_notebook_path args in
  match un_cell_index args, un_updates args with
  | Some _, Some _ =>
      ret (error_result "Provide either cell_index+new_content OR updates, not both")
  | None, None =>
      ret (error_result "Must provide either cell_index+new_content or updates array")
  | Some cell_index, None =>
      match un_new_content args with
      | None => ret (error_result "new_content is required when using cell_index")
      | Some new_content =>
          update_cells notebook_path [CellUpdate cell_index new_content]
      end
  | None, Some updates => update_cells notebook_path updates
  end.

(** *** Runs *)

Definition life_cycle_value (s : RunLifeCycleState) : string :=
  match s with
  | BLOCKED => "BLOCKED" | INTERNAL_ERROR => "INTERNAL_ERROR"
  | PENDING => "PENDING" | QUEUED => "QUEUED" | RUNNING => "RUNNING"
  | SKIPPED => "SKIPPED" | TERMINATED => "TERMINATED"
  | TERMINATING => "TERMINATING" | WAITING_FOR_RETRY => "WAITING_FOR_RETRY"
  end.

Definition get_run_output (run_id : Z) : M (gmap string value) :=
  do run <- jobs_get_run run_id;
  do output <- jobs_get_run_output run_id;
  let result : gmap string value :=
    <["state_message" := match state run with
                         | Some st => state_message st
                         | None => VNone
                         end]>
      (<["result_state" := match state run with
                           | Some st => opt_value (result_state st)
                           | None => VNone
                           end]>
         (<["state" := VStr match state run with
                            | Some st => life_cycle_value (life_cycle_state st)
                            | None => "UNKNOWN"
                            end]>
            (<["run_id" := VInt run_id]> ∅))) in
  let result :=
    match out_notebook_output output with
    | Some nb =>
        let '(nb_result, result) :=
          match truthy (nb_result nb) with
          | Some text =>
              let '(text', nb_meta) := truncate_text text MAX_TEXT_SIZE "notebook_result" in
              (Some text', nb_meta ∪ result)
          | None => (nb_result nb, result)
          end in
        <["notebook_output" :=
            VDict (<["truncated" := nb_truncated nb]>
                     (<["result" := opt_value nb_result]> ∅))]> result
    | None => result
    end in
  let result :=
    match truthy (out_error output) with
    | Some error => <["error" := VStr error]> result
    | None => result
    end in
  let result :=
    match truthy (out_error_trace output) with
    | Some trace =>
        let '(error_trace, trace_meta) := truncate_text trace MAX_TEXT_SIZE "error_trace" in
        trace_meta ∪ <["error_trace" := VStr error_trace]> result
    | None => result
    end in
  let result :=
    match truthy (out_logs output) with
    | Some logs =>
        let '(logs, logs_meta) := truncate_text logs MAX_LOG_SIZE "logs" in
        logs_meta ∪ <["logs" := VStr logs]> result
    | None => result
    end in
  ret result.

Record wait_for_run_args := WaitForRunArgs {
  wr_run_id : Z;
  wr_timeout_minutes : option Z;
  wr_poll_interval_seconds : option Z
}.

Definition terminal_states (s : RunLifeCycleState) : bool :=
  match s with
  | TERMINATED | SKIPPED | INTERNAL_ERROR => true
  | _ => false
  end.

Definition timeout_result (run_id timeout_minutes : Z) : gmap string value :=
  <["message" := VStr ("Run did not complete within " +:+ PyStr.of_int timeout_minutes
                         +:+ " minutes")]>
    (<["status" := VStr "TIMEOUT"]>
       (<["run_id" := VInt run_id]> ∅)).

(** The [while iteration < max_iterations] loop.  [fuel] bounds the
    number of turns; [None] is a run that used all of it. *)
Fixpoint wait_loop (fuel : nat) (run_id timeout_minutes poll_interval max_iterations : Z)
    (iteration : Z) (c : client) : option (outcome (gmap string value) * client) :=
  match fuel with
  | O => None
  | S fuel' =>
      if iteration <? max_iterations then
        match jobs_get_run run_id c with
        | (Raise e, c1) => Some (Raise e, c1)
        | (Return run, c1) =>
            if match state run with
               | Some st => terminal_states (life_cycle_state st)
               | None => false
               end
            then Some (get_run_output run_id c1)
            else
              let iteration := iteration + 1 in
              match asyncio_sleep poll_interval c1 with
              | (Raise e, c2) => Some (Raise e, c2)
              | (Return _, c2) =>
                  wait_loop fuel' run_id timeout_minutes poll_interval max_iterations
                    iteration c2
              end
        end
      else Some (Return (timeout_result run_id timeout_minutes), c)
  end.

Definition wait_for_run (fuel : nat) (args : wait_for_run_args) (c : client)
  : option (outcome (gmap string value) * client) :=
  let run_id := wr_run_id args in
  let timeout_minutes := default 30 (wr_timeout_minutes args) in
  let poll_interval := default 10 (wr_poll_interval_seconds args) in
  if poll_interval =? 0 then
    Some (Raise (Exn "ZeroDivisionError" "integer division or modulo by zero"), c)
  else
    let max_iterations := (timeout_minutes * 60) / poll_interval in
    wait_loop fuel run_id timeout_minutes poll_interval max_iterations 0 c.

(** *** Clusters *)

Record list_clusters_args := ListClustersArgs {
  lc_filter_by : option string;
  lc_limit : option Z
}.

Definition cluster_item (cl : cluster) (state : string) : value :=
  VDict (<["creator" := creator_user_name cl]>
           (<["num_workers" := num_workers cl]>
              (<["node_type_id" := node_type_id cl]>
                 (<["spark_version" := spark_version cl]>
                    (<["state" := VStr state]>
                       (<["cluster_name" := cluster_name cl]>
                          (<["cluster_id" := cluster_id cl]> ∅))))))).

(** One turn of the loop over the clusters: the state is
    [(clusters, total_matched)]. *)
Definition list_clusters_step (filter_by : string) (limit : Z)
    (st : list value * Z) (cl : cluster) : list value * Z :=
  let '(clusters, total_matched) := st in
  let state := default "UNKNOWN" (cluster_state cl) in
  if String.eqb filter_by "running" && negb (String.eqb state "RUNNING") then st
  else if String.eqb filter_by "terminated" && negb (String.eqb state "TERMINATED") then st
  else
    let total_matched := total_matched + 1 in
    if PyList.len clusters <? limit
    then (clusters ++ [cluster_item cl state], total_matched)
    else (clusters, total_matched).

Definition list_clusters (args : list_clusters_args) : M (gmap string value) :=
  let filter_by := default "all" (lc_filter_by args) in
  let limit := Z.min (default 25 (lc_limit args)) 100 in
  do clusters_iter <- clusters_list;
  let '(clusters, total_matched) :=
    fold_left (list_clusters_step filter_by limit) clusters_iter ([], 0) in
  let result : gmap string value :=
    <["total_matched" := VInt total_matched]>
      (<["returned" := VInt (PyList.len clusters)]>
         (<["clusters" := VList clusters]> ∅)) in
  let result :=
    if total_matched >? limit then
      <["message" := VStr ("Showing " +:+ PyStr.of_int limit +:+ " of "
                             +:+ PyStr.of_int total_matched
                             +:+ " clusters. Use filter_by or increase limit (max 100) to see more.")]>
        (<["truncated" := VBool true]> result)
    else result in
  ret result.

(** *** Logs of a run *)

Record get_run_logs_args := GetRunLogsArgs {
  gl_run_id : Z;
  gl_offset : option Z;
  gl_max_size : option Z
}.

Definition logs_note (max_size offset total_size : Z) : string :=
  PyStr.nl +:+ PyStr.nl +:+ "[... truncated, showing " +:+ PyStr.of_int_commas max_size
    +:+ " chars starting at offset " +:+ PyStr.of_int offset
    +:+ ". Total size: " +:+ PyStr.of_int_commas total_size +:+ " chars]".

Section RunLogs.

(** [output.logs_truncated if hasattr(output, 'logs_truncated') else False]:
    the attribute belongs to the SDK's output object. *)
Variable logs_truncated : run_output -> value.

Definition get_run_logs (args : get_run_logs_args) : M (gmap string value) :=
  let run_id := gl_run_id args in
  let offset := default 0 (gl_offset args) in
  let max_size := default MAX_LOG_SIZE (gl_max_size args) in
  do output <- jobs_get_run_output run_id;
  let logs := default "" (truthy (out_logs output)) in
  let total_size := PyStr.len logs in
  let logs := if offset >? 0 then PyStr.slice_from logs offset else logs in
  let logs_truncated_by_us := PyStr.len logs >? max_size in
  let logs :=
    if logs_truncated_by_us
    then PyStr.slice_to logs max_size +:+ logs_note max_size offset total_size
    else logs in
  let result : gmap string value :=
    <["logs_truncated_by_limit" := VBool logs_truncated_by_us]>
      (<["logs_truncated_by_databricks" := logs_truncated output]>
         (<["logs_offset" := VInt offset]>
            (<["logs_total_size" := VInt total_size]>
               (<["logs" := VStr (if String.eqb logs "" then "No logs available" else logs)]>
                  (<["run_id" := VInt run_id]> ∅))))) in
  let result :=
    if logs_truncated_by_us then
      <["truncation_note" := VStr ("Use offset=" +:+ PyStr.of_int (offset + max_size)
                                    +:+ " to continue reading logs")]>
        (<["next_offset" := VInt (offset + max_size)]> result)
    else result in
  let result :=
    match truthy (out_error output) with
    | Some error => <["error" := VStr error]> result
    | None => result
    end in
  let result :=
    match truthy (out_error_trace output) with
    | Some trace =>
        let '(error_trace, trace_meta) := truncate_text trace MAX_TEXT_SIZE "error_trace" in
        trace_meta ∪ <["error_trace" := VStr error_trace]> result
    | None => result
    end in
  ret result.

End RunLogs.

End Databricks.

(** ** The Notion server *)

Module Notion.

Definition MAX_TEXT_SIZE : Z := 100000.

Definition truncate_text (text : string) (max_size : Z) : string :=
  if (String.eqb text "" || (PyStr.len text <=? max_size))%bool then text
  else PyStr.slice_to text max_size
         +:+ PyStr.nl +:+ PyStr.nl +:+ "[... truncated, showing "
         +:+ PyStr.of_int_commas max_size +:+ " of "
         +:+ PyStr.of_int_commas (PyStr.len text) +:+ " chars]".

(** [s.replace("-", "")] *)
Fixpoint remove_dashes (s : string) : string :=
  match s with
  | "" => ""
  | String c s' => if Ascii.eqb c "-" then remove_dashes s' else String c (remove_dashes s')
  end.

(** What a call can raise: [call_tool] tells [httpx.HTTPStatusError]
    from every other exception. *)
Inductive failure :=
| HTTPStatusError (status_code : Z) (text : string)
| Exception (e : exn).

Inductive result (A : Type) :=
| Ok (a : A)
| Fail (f : failure).
Arguments Ok {A} a.
Arguments Fail {A} f.

(** A block as the API returns it: the two fields that the traversal
    reads, and the rest of the record. *)
Record block := Block {
  id : string;
  has_children : bool;
  block_data : value
}.

(** The body of a successful [GET /blocks/{id}/children]. *)
Record children_page := ChildrenPage {
  results : list block;
  has_more : bool;
  next_cursor : option string
}.

Record request := Request {
  req_block_id : string;
  req_page_size : Z;
  req_start_cursor : option string
}.

(** The remote workspace answers a request with a page or fails it
    ([raise_for_status] turns a 4xx or 5xx answer into
    [HTTPStatusError]; a transport error is another exception). *)
Record client := Client {
  blocks_children : request -> result children_page
}.

(** A call is run against the list of requests sent so far and extends
    it. Its answer is [None] when the run is cut off for lack of fuel;
    the requests sent until then are kept. *)
Definition T (A : Type) : Type :=
  list request -> option (result A) * list request.

Definition ret {A} (a : A) : T A := fun t => (Some (Ok a), t).
Definition fail {A} (f : failure) : T A := fun t => (Some (Fail f), t).
Definition out_of_fuel {A} : T A := fun t => (None, t).
Definition bind {A B} (m : T A) (k : A -> T B) : T B :=
  fun t => match m t with
           | (Some (Ok a), t') => k a t'
           | (Some (Fail f), t') => (Some (Fail f), t')
           | (None, t') => (None, t')
           end.

Notation "'do' x <- m ; k" := (bind m (fun x => k))
  (at level 10, x name, m at level 100, k at level 200).

(** [client.get(f"/blocks/{block_id}/children", params=params)] followed by
    [raise_for_status()] and [json()]. *)
Definition get_children (c : client) (req : request) : T children_page :=
  fun t => (Some (blocks_children c req), t ++ [req]).

(** A [for] loop over a list whose body can fail. *)
Fixpoint for_each {A S} (body : S -> A -> T S) (l : list A) (s : S) : T S :=
  match l with
  | [] => ret s
  | x :: rest => do s' <- body s x; for_each body rest s'
  end.

Record get_page_content_args := GetPageContentArgs {
  ga_page_id : string;
  ga_fetch_all : option bool;
  ga_page_size : option Z;
  ga_start_cursor : option string
}.

Section Traversal.

(** [format_block] shapes one block for display and does not decide the
    traversal; a malformed block can make it raise. *)
Variable format_block : block -> result (gmap string value).
(** [json.dumps(result, indent=2, default=str)] *)
Variable json_dumps : gmap string value -> string.
Variable c : client.

Definition format_one (b : block) : T (gmap string value) :=
  fun t => (Some (format_block b), t).

(** The [while True] loop of [fetch_blocks] over the pages of the
    children of [block_id]; [fetch_children] is the nested call of
    [fetch_blocks] for a block that has children. *)
Fixpoint fetch_pages (fetch_children : string -> T (list value))
    (n : nat) (fetch_all : bool) (page_size : Z) (block_id : string)
    (start_cursor : option string) (all_blocks : list value) : T (list value) :=
  match n with
  | O => out_of_fuel
  | S n' =>
      do data <- get_children c (Request block_id page_size start_cursor);
      do all_blocks <-
        for_each
          (fun all_blocks b =>
             do formatted <- format_one b;
             if fetch_all && has_children b then
               do children <- fetch_children (id b);
               ret (all_blocks ++ [VDict (<["children" := VList children]> formatted)])
             else ret (all_blocks ++ [VDict formatted]))
          (results data) all_blocks;
      if negb fetch_all || negb (has_more data) then ret all_blocks
      else fetch_pages fetch_children n' fetch_all page_size block_id
             (next_cursor data) all_blocks
  end.

(** The closure [fetch_blocks] of [get_page_content]. Each nested call
    and each turn of the loop uses one unit of fuel. *)
Fixpoint fetch_blocks (fuel : nat) (fetch_all : bool) (page_size : Z)
    (block_id : string) (cursor : option string) : T (list value) :=
  match fuel with
  | O => out_of_fuel
  | S fuel' =>
      fetch_pages (fun child => fetch_blocks fuel' fetch_all page_size child None)
        fuel' fetch_all page_size block_id (truthy cursor) []
  end.

Definition get_page_content (fuel : nat) (args : get_page_content_args)
  : T (gmap string value) :=
  let page_id := remove_dashes (ga_page_id args) in
  let fetch_all := default true (ga_fetch_all args) in
  let page_size := Z.min (default 100 (ga_page_size args)) 100 in
  if fetch_all then
    do blocks <- fetch_blocks fuel fetch_all page_size page_id None;
    ret (<["blocks" := VList blocks]> ∅)
  else
    do data <- get_children c (Request page_id page_size (ga_start_cursor args));
    do blocks <- for_each (fun blocks b =>
                             do formatted <- format_one b;
                             ret (blocks ++ [VDict formatted]))
                          (results data) [];
    ret (<["next_cursor" := opt_value (next_cursor data)]>
           (<["has_more" := VBool (has_more data)]>
              (<["blocks" := VList blocks]> ∅))).

(** The branch of [call_tool] for [notion_get_page_content]: the text of
    the one [TextContent] that it returns. *)
Definition call_tool (fuel : nat) (arguments : get_page_content_args)
  : option string :=
  match fst (get_page_content fuel arguments []) with
  | None => None
  | Some (Ok result) => Some (truncate_text (json_dumps result) MAX_TEXT_SIZE)
  | Some (Fail (HTTPStatusError status_code error_body)) =>
      Some ("Notion API Error " +:+ PyStr.of_int status_code +:+ ": " +:+ error_body)
  | Some (Fail (Exception e)) =>
      Some ("Error: " +:+ exn_type e +:+ ": " +:+ exn_msg e)
  end.

End Traversal.

End Notion.

(** * Vocabulary of the properties

    The predicates, the callers and the sample workspaces that the
    statements below are about. *)

Section DatabricksVocabulary.
Import Databricks.

Definition scenario_document : string :=
  "a" +:+ PyStr.nl +:+ "# COMMAND ----------" +:+ PyStr.nl +:+ "b"
      +:+ PyStr.nl +:+ "# COMMAND ----------" +:+ PyStr.nl +:+ "c".

Definition scenario_updated : string :=
  "a" +:+ PyStr.nl +:+ PyStr.nl +:+ "# COMMAND ----------" +:+ PyStr.nl +:+ PyStr.nl
      +:+ "B" +:+ PyStr.nl +:+ PyStr.nl +:+ "# COMMAND ----------" +:+ PyStr.nl +:+ PyStr.nl
      +:+ "c".

(** The content of a cell may not hold the separator, whole or as its
    two halves. *)
Definition forbidden_content (s : string) : Prop :=
  PyStr.contains "# COMMAND ----------" s = true
  \/ (PyStr.contains "# COMMAND" s = true /\ PyStr.contains "----------" s = true).

Definition out_of_range (cells : list string) (u : cell_update) : Prop :=
  index u < 0 \/ PyList.len cells <= index u.

Definition valid_update (cells : list string) (u : cell_update) : Prop :=
  0 <= index u < PyList.len cells /\ ~ forbidden_content (content u).

(** The updates that a call carries, in either input mode. *)
Definition carries (args : update_notebook_cell_args) (u : cell_update) : Prop :=
  (exists i s, un_cell_index args = Some i /\ un_new_content args = Some s
               /\ u = CellUpdate i s)
  \/ (exists ups, un_updates args = Some ups /\ u ∈ ups).

Definition separator_message : string :=
  snd (_validate_cell_content "# COMMAND ----------").




Definition scenario_client : client :=
  {| source := {[ "/nb" := scenario_document ]};
     export_error := fun path => Exn "ResourceDoesNotExist" path;
     import_error := fun _ _ => None;
     imports := [];
     directory := fun _ => Return [];
     run_status := fun _ _ => Return (Run None);
     run_result := fun _ => Return (RunOutput None None None None);
     polls := 0;
     slept := [];
     cluster_list := Return [] |}.

(** The same workspace for a caller who may read it and not write it. *)
Definition read_only_client : client :=
  {| source := {[ "/nb" := scenario_document ]};
     export_error := fun path => Exn "ResourceDoesNotExist" path;
     import_error := fun path _ => Some (Exn "PermissionDenied" path);
     imports := [];
     directory := fun _ => Return [];
     run_status := fun _ _ => Return (Run None);
     run_result := fun _ => Return (RunOutput None None None None);
     polls := 0;
     slept := [];
     cluster_list := Return [] |}.


Definition in_range (cells : list string) (u : cell_update) : Prop :=
  0 <= index u < PyList.len cells.

(** The assignments [cells[idx] = content] of a batch, in its order. *)
Definition assign (cells : list string) (u : cell_update) : list string :=
  <[Z.to_nat (index u) := content u]> cells.

Definition has_repeated_index (ups : list cell_update) : Prop :=
  exists (i j : nat) (u v : cell_update),
    i <> j /\ ups !! i = Some u /\ ups !! j = Some v /\ index u = index v.

(** A call that is turned down: an error result, and the workspace as
    it was. *)
Definition rejected (args : update_notebook_cell_args) (c : client) : Prop :=
  exists message, update_notebook_cell args c = (Return (error_result message), c).

Definition repeated_batch : update_notebook_cell_args :=
  UpdateNotebookCellArgs "/nb" None None (Some [CellUpdate 0 "x"; CellUpdate 0 "y"]).

(** The filter of [list_clusters] on one cluster. *)
Definition cluster_matches (filter_by : string) (cl : cluster) : bool :=
  let state := default "UNKNOWN" (cluster_state cl) in
  negb (String.eqb filter_by "running" && negb (String.eqb state "RUNNING"))
  && negb (String.eqb filter_by "terminated" && negb (String.eqb state "TERMINATED")).

Definition shown_cluster (cl : cluster) : value :=
  cluster_item cl (default "UNKNOWN" (cluster_state cl)).

Definition one_cluster : cluster :=
  Cluster (VStr "c-1") (VStr "etl") (Some "RUNNING") (VStr "15.4") (VStr "m5")
          (VInt 2) (VStr "ops").

Definition one_cluster_client : client :=
  {| source := ∅;
     export_error := fun path => Exn "ResourceDoesNotExist" path;
     import_error := fun _ _ => None;
     imports := [];
     directory := fun _ => Return [];
     run_status := fun _ _ => Return (Run None);
     run_result := fun _ => Return (RunOutput None None None None);
     polls := 0;
     slept := [];
     cluster_list := Return [one_cluster] |}.

(** The run is not in a terminal life-cycle state in the answer [o]. *)
Definition not_terminal (o : outcome run) : Prop :=
  exists r, o = Return r
    /\ match state r with
       | Some st => terminal_states (life_cycle_state st) = false
       | None => True
       end.

(** Two states of the client that differ in the polls and sleeps only. *)
Definition same_upstream (c c' : client) : Prop :=
  source c' = source c /\ imports c' = imports c
  /\ run_status c' = run_status c /\ run_result c' = run_result c.

(** A run that stays in [RUNNING]. *)
Definition running_client : client :=
  {| source := ∅;
     export_error := fun path => Exn "ResourceDoesNotExist" path;
     import_error := fun _ _ => None;
     imports := [];
     directory := fun _ => Return [];
     run_status := fun _ _ => Return (Run (Some (RunState RUNNING None VNone)));
     run_result := fun _ => Return (RunOutput None None None None);
     polls := 0;
     slept := [];
     cluster_list := Return [] |}.

(** The list under a key of a result. *)
Definition result_items (key : string) (r : gmap string value) : list value :=
  match r !! key with
  | Some (VList l) => l
  | _ => []
  end.

(** The offset of the next call, when the result says that there is more. *)
Definition next_offset_of (r : gmap string value) : option Z :=
  match r !! "has_more", r !! "next_offset" with
  | Some (VBool true), Some (VInt next) => Some next
  | _, _ => None
  end.

(** A caller that pages through a directory: it calls [list_notebooks]
    again with each [next_offset] until a result has no [has_more], and
    concatenates the items. *)
Fixpoint follow_list_notebooks (fuel : nat) (c : client) (path : string)
    (limit : option Z) (offset : Z) : option (list value) :=
  match fuel with
  | O => None
  | S fuel' =>
      match list_notebooks (ListNotebooksArgs path limit (Some offset)) c with
      | (Return r, c') =>
          match next_offset_of r with
          | Some next =>
              app (result_items "items" r)
                <$> follow_list_notebooks fuel' c' path limit next
          | None => Some (result_items "items" r)
          end
      | (Raise _, _) => None
      end
  end.

(** The same caller over the cells of a notebook. *)
Fixpoint follow_read_notebook (fuel : nat) (c : client) (path : string)
    (cell_limit : option Z) (cell_offset : Z) : option (list value) :=
  match fuel with
  | O => None
  | S fuel' =>
      match read_notebook (ReadNotebookArgs path (Some cell_offset) cell_limit) c with
      | (Return r, c') =>
          match next_offset_of r with
          | Some next =>
              app (result_items "cells" r)
                <$> follow_read_notebook fuel' c' path cell_limit next
          | None => Some (result_items "cells" r)
          end
      | (Raise _, _) => None
      end
  end.

(** The PageWindow invariant on a result: [has_more] is there, and true,
    exactly when [offset + returned < total]; [next_offset] is there
    exactly when [has_more] is, and is [offset + returned]. *)
Definition window_invariant (offset returned total : Z) (r : gmap string value) : Prop :=
  (r !! "has_more" = Some (VBool true) <-> offset + returned < total)
  /\ (r !! "has_more" = None <-> ~ offset + returned < total)
  /\ (is_Some (r !! "next_offset") <-> r !! "has_more" = Some (VBool true))
  /\ (forall v, r !! "next_offset" = Some v -> v = VInt (offset + returned)).

(** How a cell is shown by [read_notebook]. *)
Definition shown_cell (cell : string) : string :=
  if PyStr.len cell >? MAX_CELL_CONTENT
  then fst (truncate_text cell MAX_CELL_CONTENT "cell")
  else cell.

Definition three_items : list object_info :=
  [ObjectInfo (VStr "/dir/a") (Some "NOTEBOOK") (Some "PYTHON");
   ObjectInfo (VStr "/dir/b") (Some "DIRECTORY") None;
   ObjectInfo (VStr "/dir/c") None None].

(** A cell of 50,001 characters, one more than [MAX_CELL_CONTENT]. *)
Definition long_cell : string := String.concat "" (repeat "x" (Z.to_nat 50001)).

Definition paging_client : client :=
  {| source := {[ "/nb" := scenario_document ]};
     export_error := fun path => Exn "ResourceDoesNotExist" path;
     import_error := fun _ _ => None;
     imports := [];
     directory := fun _ => Return three_items;
     run_status := fun _ _ => Return (Run None);
     run_result := fun _ => Return (RunOutput None None None None);
     polls := 0;
     slept := [];
     cluster_list := Return [] |}.

Definition long_cell_client : client :=
  {| source := {[ "/long" := long_cell ]};
     export_error := fun path => Exn "ResourceDoesNotExist" path;
     import_error := fun _ _ => None;
     imports := [];
     directory := fun _ => Return [];
     run_status := fun _ _ => Return (Run None);
     run_result := fun _ => Return (RunOutput None None None None);
     polls := 0;
     slept := [];
     cluster_list := Return [] |}.

Definition separator_free (s : string) : Prop :=
  PyStr.contains CELL_SEPARATOR s = false.

(** The cells that come back: each one with the blank line that
    [_reconstruct_notebook] puts on its side of a separator. *)
Fixpoint padded_from (before : string) (s : string) (rest : list string) : list string :=
  match rest with
  | [] => [before +:+ s]
  | r :: rest' => (before +:+ s +:+ PyStr.nl) :: padded_from PyStr.nl r rest'
  end.

Definition padded (cells : list string) : list string :=
  match cells with
  | [] => []
  | s :: rest => padded_from "" s rest
  end.

(** The end of [_parse_notebook_cells]: the cell that is still open. *)
Definition close_cell (st : list string * list string) : list string :=
  match snd st with
  | [] => fst st
  | _ :: _ => fst st ++ [PyStr.join PyStr.nl (snd st)]
  end.

End DatabricksVocabulary.

Section NotionVocabulary.
Import Notion.

Definition succeeds (c : client) (req : request) : Prop :=
  exists page, blocks_children c req = Ok page.

(** The requests [new] that a run added, against its answer: no request
    failed before the last one, and when the last one failed the answer
    is its failure. *)
Definition aborted_at_failure {A} (c : client) (answer : option (result A)) (new : list request) : Prop :=
  Forall (succeeds c) new
  \/ exists new' req f,
       new = new' ++ [req] /\ Forall (succeeds c) new'
       /\ blocks_children c req = Fail f /\ answer = Some (Fail f).

(** A computation that stops at the first request that fails. *)
Definition stops_at_failure {A} (c : client) (m : T A) : Prop :=
  forall t, exists new,
    snd (m t) = t ++ new /\ aborted_at_failure c (fst (m t)) new
    /\ (forall a, fst (m t) = Some (Ok a) -> Forall (succeeds c) new)
    /\ (fst (m t) = None -> Forall (succeeds c) new).

(** The text that [call_tool] returns for a failure. *)
Definition error_text (f : failure) : string :=
  match f with
  | HTTPStatusError status_code error_body =>
      "Notion API Error " +:+ PyStr.of_int status_code +:+ ": " +:+ error_body
  | Exception e => "Error: " +:+ exn_type e +:+ ": " +:+ exn_msg e
  end.

(** A page whose first block has children; the request for these fails. *)
Definition three_level_client : client :=
  {| blocks_children := fun req =>
       if String.eqb (req_block_id req) "page" then
         Ok (ChildrenPage [Block "middle" true VNone; Block "sibling" false VNone]
                          false None)
       else if String.eqb (req_block_id req) "middle" then
         Fail (HTTPStatusError 502 "bad gateway")
       else Ok (ChildrenPage [] false None) |}.

Definition id_only (b : block) : result (gmap string value) :=
  Ok {[ "id" := VStr (id b) ]}.

(** A computation that sends only requests with the property [P]. *)
Definition sends_only {A} (P : request -> Prop) (m : T A) : Prop :=
  forall t, Forall P t -> Forall P (snd (m t)).

(** What the eager traversal is to return for the children of a block,
    read from the answers of the workspace: the pages of one level, from
    a cursor on, concatenated in order ([eager_pages]), each block
    formatted, and a block that has children carrying, under
    [children], the traversal of its own level from the start
    ([eager_blocks]). A derivation exists when the tree under the block
    is finite and every request and every formatting succeeds. *)
Inductive eager_pages (format_block : block -> result (gmap string value))
    (c : client) (page_size : Z) : string -> option string -> list value -> Prop :=
| eager_last (block_id : string) (cursor : option string) (data : children_page)
    (vs : list value) :
    blocks_children c (Request block_id page_size cursor) = Ok data ->
    has_more data = false ->
    eager_blocks format_block c page_size (results data) vs ->
    eager_pages format_block c page_size block_id cursor vs
| eager_more (block_id : string) (cursor : option string) (data : children_page)
    (vs rest : list value) :
    blocks_children c (Request block_id page_size cursor) = Ok data ->
    has_more data = true ->
    eager_blocks format_block c page_size (results data) vs ->
    eager_pages format_block c page_size block_id (next_cursor data) rest ->
    eager_pages format_block c page_size block_id cursor (vs ++ rest)
with eager_blocks (format_block : block -> result (gmap string value))
    (c : client) (page_size : Z) : list block -> list value -> Prop :=
| eager_nil : eager_blocks format_block c page_size [] []
| eager_leaf (b : block) (bs : list block) (formatted : gmap string value)
    (vs : list value) :
    format_block b = Ok formatted ->
    has_children b = false ->
    eager_blocks format_block c page_size bs vs ->
    eager_blocks format_block c page_size (b :: bs) (VDict formatted :: vs)
| eager_node (b : block) (bs : list block) (formatted : gmap string value)
    (children vs : list value) :
    format_block b = Ok formatted ->
    has_children b = true ->
    eager_pages format_block c page_size (id b) None children ->
    eager_blocks format_block c page_size bs vs ->
    eager_blocks format_block c page_size (b :: bs)
      (VDict (<["children" := VList children]> formatted) :: vs).

Scheme eager_pages_mut := Minimality for eager_pages Sort Prop
  with eager_blocks_mut := Minimality for eager_blocks Sort Prop.

Combined Scheme eager_mutind from eager_pages_mut, eager_blocks_mut.

(** A page of two blocks in two answers; the first block has one child. *)
Definition small_tree_client : client :=
  {| blocks_children := fun req =>
       if String.eqb (req_block_id req) "page" then
         match req_start_cursor req with
         | None => Ok (ChildrenPage [Block "first" true VNone] true (Some "cursor-2"))
         | Some _ => Ok (ChildrenPage [Block "second" false VNone] false None)
         end
       else if String.eqb (req_block_id req) "first" then
         Ok (ChildrenPage [Block "child" false VNone] false None)
       else Fail (HTTPStatusError 404 "not found") |}.

End NotionVocabulary.

Section NotebookVocabulary.
Import Databricks.

(** A text of which no line is a separator line. *)
Definition no_separator_line (s : string) : Prop :=
  Forall (fun line => is_separator_line line = false) (PyStr.split PyStr.NL s).

(** A text that is one line: splitting it at the newlines gives it back. *)
Definition single_line (s : string) : Prop :=
  PyStr.split PyStr.NL s = [s].

(** The state of the loop of [_parse_notebook_cells]: the cells closed so
    far have no separator line, and the lines gathered for the open one
    are single lines that are not separators. *)
Definition parse_invariant (st : list string * list string) : Prop :=
  Forall no_separator_line (fst st)
  /\ Forall (fun line => single_line line /\ is_separator_line line = false) (snd st).

(** The entry of [truncated_cells] for a cell that was cut. *)
Definition truncated_cell_entry (cell : string) : value :=
  VDict (<["shown_size" := VInt MAX_CELL_CONTENT]>
           (<["total_size" := VInt (PyStr.len cell)]>
              (<["truncated" := VBool true]> ∅))).

(** The cells that a call of [read_notebook] selects. *)
Definition selected_cells (args : read_notebook_args) (text : string) : list string :=
  let all_cells := _parse_notebook_cells text in
  let cell_offset := default 0 (rn_cell_offset args) in
  match rn_cell_limit args with
  | Some cell_limit => PyList.slice all_cells cell_offset (cell_offset + cell_limit)
  | None => PyList.slice_from all_cells cell_offset
  end.

End NotebookVocabulary.

Section RunLogsVocabulary.
Import Databricks.

(** The log text of an output: [output.logs if output.logs else ""]. *)
Definition full_logs (output : run_output) : string :=
  default "" (truthy (out_logs output)).

(** The part of the log text that a result of [get_run_logs] carries:
    its [logs] entry, without the note when the limit cut it. *)
Definition logs_piece (max_size : Z) (r : gmap string value) : string :=
  match r !! "logs", r !! "logs_truncated_by_limit" with
  | Some (VStr s), Some (VBool true) => PyStr.slice_to s max_size
  | Some (VStr s), _ => s
  | _, _ => ""
  end.

(** A caller that reads the logs of a run to the end: it calls
    [get_run_logs] again with each [next_offset] and concatenates the
    pieces. *)
Fixpoint follow_run_logs (logs_truncated : run_output -> value) (fuel : nat)
    (c : client) (run_id : Z) (max_size : option Z) (offset : Z) : option string :=
  match fuel with
  | O => None
  | S fuel' =>
      match get_run_logs logs_truncated (GetRunLogsArgs run_id (Some offset) max_size) c with
      | (Return r, c') =>
          let piece := logs_piece (default MAX_LOG_SIZE max_size) r in
          match r !! "next_offset" with
          | Some (VInt next) =>
              String.append piece
                <$> follow_run_logs logs_truncated fuel' c' run_id max_size next
          | _ => Some piece
          end
      | (Raise _, _) => None
      end
  end.

(** A run with 25 characters of logs. *)
Definition logs_client : client :=
  {| source := ∅;
     export_error := fun path => Exn "ResourceDoesNotExist" path;
     import_error := fun _ _ => None;
     imports := [];
     directory := fun _ => Return [];
     run_status := fun _ _ => Return (Run None);
     run_result := fun _ =>
       Return (RunOutput None None None (Some "step 1 ok; step 2 failed."));
     polls := 0;
     slept := [];
     cluster_list := Return [] |}.

(** The run is in a terminal life-cycle state in the answer [r]. *)
Definition is_terminal (r : run) : Prop :=
  match state r with
  | Some st => terminal_states (life_cycle_state st) = true
  | None => False
  end.

(** A run that is seen running twice and then terminated. *)
Definition finishing_client : client :=
  {| source := ∅;
     export_error := fun path => Exn "ResourceDoesNotExist" path;
     import_error := fun _ _ => None;
     imports := [];
     directory := fun _ => Return [];
     run_status := fun _ n =>
       Return (Run (Some (RunState (if (n <? 2)%nat then RUNNING else TERMINATED)
                                   (Some "SUCCESS") VNone)));
     run_result := fun _ => Return (RunOutput None None None (Some "done"));
     polls := 0;
     slept := [];
     cluster_list := Return [] |}.

End RunLogsVocabulary.

(** * Properties *)

(** ** Strings *)

Section StringFacts.

Lemma str_app_nil_l (b : string) : "" +:+ b = b.
Proof. reflexivity. Qed.

Lemma str_app_cons (ch : ascii) (a b : string) :
  String ch a +:+ b = String ch (a +:+ b).
Proof. reflexivity. Qed.

Lemma str_length_app (a b : string) :
  String.length (a +:+ b) = (String.length a + String.length b)%nat.
Proof. induction a as [|ch a IH]; simpl; [reflexivity | now rewrite IH]. Qed.

Lemma len_app (a b : string) : PyStr.len (a +:+ b) = PyStr.len a + PyStr.len b.
Proof. unfold PyStr.len. rewrite str_length_app. lia. Qed.

Lemma len_nonneg (s : string) : 0 <= PyStr.len s.
Proof. unfold PyStr.len. lia. Qed.

Lemma len_zero (s : string) : PyStr.len s = 0 -> s = "".
Proof. destruct s; [reflexivity | unfold PyStr.len; simpl; lia]. Qed.

Lemma length_take (n : nat) (s : string) :
  String.length (PyStr.take n s) = Nat.min n (String.length s).
Proof.
  revert s. induction n as [|n IH]; intros [|ch s]; simpl; try reflexivity.
  now rewrite IH.
Qed.

Lemma len_slice_to (s : string) (hi : Z) :
  0 <= hi -> PyStr.len (PyStr.slice_to s hi) = Z.min hi (PyStr.len s).
Proof.
  intros Hhi. unfold PyStr.slice_to.
  destruct (Z.ltb_spec hi 0) as [Hneg|_]; [lia|].
  unfold PyStr.len at 1. rewrite length_take. unfold PyStr.len. lia.
Qed.

Lemma str_app_assoc (a b c : string) : (a +:+ b) +:+ c = a +:+ (b +:+ c).
Proof.
  induction a as [|ch a IH]; [reflexivity|].
  rewrite !str_app_cons. f_equal. exact IH.
Qed.

Lemma str_app_empty_r (a : string) : a +:+ "" = a.
Proof.
  induction a as [|ch a IH]; [reflexivity|].
  rewrite !str_app_cons. f_equal. exact IH.
Qed.

End StringFacts.

(** ** Truncation *)

Section Truncation.
Import Databricks.

Lemma eqb_empty (text : string) : String.eqb text "" = true <-> text = "".
Proof. apply String.eqb_eq. Qed.

Lemma truncate_text_short (text : string) (b : Z) (name : string) :
  PyStr.len text <= b \/ text = "" -> truncate_text text b name = (text, ∅).
Proof.
  intros H. unfold truncate_text.
  destruct (String.eqb_spec text "") as [->|Hne]; [reflexivity|].
  destruct H as [H|H]; [|contradiction].
  simpl. destruct (Z.leb_spec (PyStr.len text) b); [reflexivity | lia].
Qed.

Lemma truncate_text_long (text : string) (b : Z) (name : string) :
  0 <= b -> b < PyStr.len text ->
  truncate_text text b name =
    (PyStr.slice_to text b +:+ truncation_suffix b (PyStr.len text),
     <[name +:+ "_shown_size" := VInt b]>
       (<[name +:+ "_total_size" := VInt (PyStr.len text)]>
          (<[name +:+ "_truncated" := VBool true]> ∅))).
Proof.
  intros Hb H. unfold truncate_text.
  destruct (String.eqb_spec text "") as [->|Hne].
  - exfalso. revert H. unfold PyStr.len. simpl. lia.
  - simpl. destruct (Z.leb_spec (PyStr.len text) b); [lia | reflexivity].
Qed.

Lemma field_key_ne (name a b : string) : a <> b -> name +:+ a <> name +:+ b.
Proof. intros Hab Heq. apply Hab. eapply String.app_inj. exact Heq. Qed.

(** C1. For every text and positive budget [b], [truncate_text] returns
    [(out, meta)] with [len(out) <= b + len(suffix)]; [meta] is non-empty
    exactly when [len(text) > b], and then it holds [truncated = True],
    [total_size = len(text)] and [shown_size = b] under the keys prefixed
    by the field name; when [len(text) <= b] or the text is empty, the
    text comes back unchanged with an empty metadata dict. *)
Theorem truncate_text_spec (text : string) (b : Z) (name : string) :
  0 < b ->
  let out := fst (truncate_text text b name) in
  let meta := snd (truncate_text text b name) in
  PyStr.len out <= b + PyStr.len (truncation_suffix b (PyStr.len text))
  /\ (meta <> ∅ <-> PyStr.len text > b)
  /\ (PyStr.len text > b ->
        meta !! (name +:+ "_truncated") = Some (VBool true)
        /\ meta !! (name +:+ "_total_size") = Some (VInt (PyStr.len text))
        /\ meta !! (name +:+ "_shown_size") = Some (VInt b)
        /\ size meta = 3%nat)
  /\ (PyStr.len text <= b \/ text = "" -> out = text /\ meta = ∅).
Proof.
  intros Hb. cbv zeta.
  destruct (Z.le_gt_cases (PyStr.len text) b) as [Hle|Hgt].
  - rewrite truncate_text_short by (left; exact Hle). simpl.
    pose proof (len_nonneg (truncation_suffix b (PyStr.len text))).
    repeat split; try tauto; try lia.
  - rewrite truncate_text_long by lia. simpl.
    assert (Hk1 : name +:+ "_shown_size" <> name +:+ "_total_size")
      by (apply field_key_ne; discriminate).
    assert (Hk2 : name +:+ "_shown_size" <> name +:+ "_truncated")
      by (apply field_key_ne; discriminate).
    assert (Hk3 : name +:+ "_total_size" <> name +:+ "_truncated")
      by (apply field_key_ne; discriminate).
    split; [|split; [|split]].
    + rewrite len_app, len_slice_to by lia. lia.
    + split; [lia|]. intros _ Hempty.
      apply (f_equal (fun m : gmap string value => m !! (name +:+ "_shown_size"))) in Hempty.
      rewrite lookup_insert_eq, lookup_empty in Hempty. discriminate.
    + intros _. repeat split.
      * rewrite !lookup_insert_ne by congruence. apply lookup_insert_eq.
      * rewrite lookup_insert_ne by congruence. apply lookup_insert_eq.
      * apply lookup_insert_eq.
      * rewrite !map_size_insert_None; [rewrite map_size_empty; reflexivity|..].
        -- apply lookup_empty.
        -- rewrite lookup_insert_ne by congruence. apply lookup_empty.
        -- rewrite !lookup_insert_ne by congruence. apply lookup_empty.
    + intros [H|H]; [lia|]. subst text. revert Hgt. unfold PyStr.len. simpl. lia.
Qed.

Lemma truncate_text_spec_witness :
  0 < 5 /\
  PyStr.len (fst (truncate_text "hello world" 5 "content"))
    <= 5 + PyStr.len (truncation_suffix 5 (PyStr.len "hello world")).
Proof.
  split; [lia|].
  exact (proj1 (truncate_text_spec "hello world" 5 "content" ltac:(lia))).
Defined.

End Truncation.

(** ** Notebook cells *)

Section Scenario.
Import Databricks.

(** C7. The document of the scenario parses to the segments
    [["a"; "b"; "c"]]; putting ["B"] at index 1 and reconstructing gives
    the three segments joined by the separator between blank lines. *)
Theorem scenario_parse_update_reconstruct :
  _parse_notebook_cells scenario_document = ["a"; "b"; "c"]
  /\ (_reconstruct_notebook <$> PyList.set_item (_parse_notebook_cells scenario_document) 1 "B")
     = Some scenario_updated.
Proof. split; reflexivity. Qed.

End Scenario.

(** ** Targeted cell updates *)

Section CellUpdates.
Import Databricks.

Lemma validate_cell_content_spec (s : string) :
  (forbidden_content s /\ _validate_cell_content s = (false, separator_message))
  \/ (~ forbidden_content s /\ _validate_cell_content s = (true, "")).
Proof.
  unfold _validate_cell_content, forbidden_content.
  destruct (PyStr.contains "# COMMAND ----------" s) eqn:E1; simpl.
  - left. split; [left|]; reflexivity.
  - destruct (PyStr.contains "# COMMAND" s) eqn:E2; simpl.
    + destruct (PyStr.contains "----------" s) eqn:E3.
      * left. split; [right; split|]; reflexivity.
      * right. split; [|reflexivity]. intros [H|[_ H]]; discriminate.
    + right. split; [|reflexivity]. intros [H|[H _]]; discriminate.
Qed.

(** What the validation loop answers: nothing when every update is
    valid, and otherwise the error of an update of the batch that is
    out of range or has forbidden content. *)
Lemma validate_updates_spec (cells : list string) (ups : list cell_update) :
  match validate_updates cells ups with
  | None => Forall (valid_update cells) ups
  | Some r =>
      exists u, u ∈ ups /\
        ((out_of_range cells u
          /\ r = error_result (out_of_bounds_message (index u) (PyList.len cells)))
         \/ (forbidden_content (content u)
             /\ r = error_result (invalid_content_message (index u) separator_message)))
  end.
Proof.
  induction ups as [|u ups IH]; simpl; [constructor|].
  destruct (Z.ltb_spec (index u) 0) as [Hneg|Hnn]; simpl.
  { exists u. split; [apply list_elem_of_here|]. left. split; [left; lia | reflexivity]. }
  destruct (Z.geb_spec (index u) (PyList.len cells)) as [Hge|Hlt].
  { exists u. split; [apply list_elem_of_here|]. left. split; [right; lia | reflexivity]. }
  destruct (validate_cell_content_spec (content u)) as [[Hbad ->]|[Hok ->]]; simpl.
  { exists u. split; [apply list_elem_of_here|]. right. split; [exact Hbad | reflexivity]. }
  destruct (validate_updates cells ups) as [r|].
  - destruct IH as (v & Hin & Hv). exists v. split; [apply list_elem_of_further; exact Hin | exact Hv].
  - constructor; [|exact IH]. split; [lia | exact Hok].
Qed.




Lemma not_valid_update (cells : list string) (u : cell_update) :
  out_of_range cells u \/ forbidden_content (content u) -> ~ valid_update cells u.
Proof. unfold out_of_range, valid_update. intros [[H|H]|H] [Hr Hc]; [lia | lia | tauto]. Qed.



(** The notebook is written only when every update of the call passed
    both checks. *)
Lemma update_notebook_cell_writes_only_valid (c : client)
    (args : update_notebook_cell_args) :
  snd (update_notebook_cell args c) <> c ->
  exists text,
    source c !! un_notebook_path args = Some text
    /\ forall u, carries args u -> valid_update (_parse_notebook_cells text) u.
Proof.
  unfold update_notebook_cell.
  assert (Hcells : forall ups, snd (update_cells (un_notebook_path args) ups c) <> c ->
            exists text, source c !! un_notebook_path args = Some text
              /\ Forall (valid_update (_parse_notebook_cells text)) ups).
  { intros ups. unfold update_cells, bind, workspace_export.
    destruct (source c !! un_notebook_path args) as [text|]; [|simpl; congruence].
    pose proof (validate_updates_spec (_parse_notebook_cells text) ups) as Hspec.
    destruct (validate_updates (_parse_notebook_cells text) ups); [simpl; congruence|].
    intros _. exists text. split; [reflexivity | exact Hspec]. }
  destruct (un_cell_index args) as [i|] eqn:Ei;
    destruct (un_updates args) as [ups|] eqn:Eu; simpl; try congruence.
  - destruct (un_new_content args) as [s|] eqn:Es; [|simpl; congruence].
    intros H. destruct (Hcells _ H) as (text & Hsrc & Hall).
    exists text. split; [exact Hsrc|].
    intros u [(i' & s' & Hi & Hs & ->)|(ups' & Hups & _)]; [|congruence].
    rewrite Forall_forall in Hall. apply Hall.
    replace i' with i by congruence. replace s' with s by congruence.
    apply list_elem_of_here.
  - intros H. destruct (Hcells _ H) as (text & Hsrc & Hall).
    exists text. split; [exact Hsrc|].
    intros u [(i' & s' & Hi & _)|(ups' & Hups & Hin)]; [congruence|].
    rewrite Forall_forall in Hall. apply Hall. congruence.
Qed.

(** *** The two input modes *)

(** C10. A call with [cell_index = i] and [new_content = s] is the call
    with [updates = [{index: i, content: s}]]: on every workspace the
    two return the same result (or raise the same exception) and leave
    the same workspace, so the same validation outcome, written content
    and result object. *)
Theorem single_update_is_batch_of_one (c : client) (path : string) (i : Z) (s : string) :
  update_notebook_cell (UpdateNotebookCellArgs path (Some i) (Some s) None) c
  = update_notebook_cell (UpdateNotebookCellArgs path None None (Some [CellUpdate i s])) c.
Proof. reflexivity. Qed.

(** *** Batches with a repeated index *)

Lemma set_item_in_range (cells : list string) (u : cell_update) :
  in_range cells u ->
  PyList.set_item cells (index u) (content u) = Some (assign cells u).
Proof.
  unfold in_range, PyList.set_item. intros [H0 H1].
  destruct (Z.leb_spec 0 (index u)); [|lia].
  destruct (Z.ltb_spec (index u) (PyList.len cells)); [reflexivity | lia].
Qed.

Lemma in_range_assign (cells : list string) (u v : cell_update) :
  in_range cells v -> in_range (assign cells u) v.
Proof. unfold in_range, assign, PyList.len. rewrite length_insert. tauto. Qed.

Lemma apply_updates_in_range (ups : list cell_update) :
  forall (cells : list string) (updated : list Z),
  Forall (in_range cells) ups ->
  apply_updates cells updated ups
  = Return (fold_left assign ups cells, updated ++ map index ups).
Proof.
  induction ups as [|u ups IH]; intros cells updated Hall; simpl.
  - now rewrite app_nil_r.
  - inversion Hall as [|? ? Hu Hrest]; subst.
    rewrite set_item_in_range by exact Hu.
    rewrite IH.
    + now rewrite <- app_assoc.
    + eapply Forall_impl; [exact Hrest|]. intros v. apply in_range_assign.
Qed.

Lemma length_fold_assign (ups : list cell_update) (cells : list string) :
  length (fold_left assign ups cells) = length cells.
Proof.
  revert cells. induction ups as [|u ups IH]; intros cells; simpl; [reflexivity|].
  rewrite IH. apply length_insert.
Qed.

(** After the assignments, a cell holds the content of the last update
    of the batch with its index, or what it held when there is none. *)
Lemma lookup_fold_assign (ups : list cell_update) :
  forall (cells : list string) (k : nat),
  Forall (in_range cells) ups ->
  fold_left assign ups cells !! k
  = match last (filter (fun u => index u = Z.of_nat k) ups) with
    | Some u => Some (content u)
    | None => cells !! k
    end.
Proof.
  induction ups as [|u ups IH]; intros cells k Hall; simpl; [reflexivity|].
  inversion Hall as [|? ? Hu Hrest]; subst.
  rewrite IH by (eapply Forall_impl; [exact Hrest|]; intros v; apply in_range_assign).
  rewrite filter_cons.
  destruct (decide (index u = Z.of_nat k)) as [Heq|Hne].
  - rewrite last_cons.
    destruct (last (filter (fun u0 => index u0 = Z.of_nat k) ups)); [reflexivity|].
    unfold assign. rewrite Heq, Nat2Z.id. apply list_lookup_insert_eq.
    destruct Hu as [_ Hu]. unfold PyList.len in Hu. lia.
  - destruct (last (filter (fun u0 => index u0 = Z.of_nat k) ups)); [reflexivity|].
    unfold assign. apply list_lookup_insert_ne. destruct Hu as [Hu _]. lia.
Qed.

(** A batch that names cell 0 twice is not turned down: the notebook
    is written, with the content of the second update in cell 0. *)
Lemma repeated_index_not_rejected :
  has_repeated_index [CellUpdate 0 "x"; CellUpdate 0 "y"]
  /\ ~ rejected repeated_batch scenario_client
  /\ imports (snd (update_notebook_cell repeated_batch scenario_client))
     = [("/nb", _reconstruct_notebook ["y"; "b"; "c"])].
Proof.
  split; [|split].
  - exists 0%nat, 1%nat, (CellUpdate 0 "x"), (CellUpdate 0 "y"). repeat split. lia.
  - intros [message H].
    apply (f_equal (fun p => imports (snd p))) in H.
    vm_compute in H. discriminate.
  - vm_compute. reflexivity.
Qed.

Lemma valid_updates_pass (cells : list string) (ups : list cell_update) :
  Forall (valid_update cells) ups -> validate_updates cells ups = None.
Proof.
  intros Hall.
  pose proof (validate_updates_spec cells ups) as Hspec.
  destruct (validate_updates cells ups) as [r|]; [|reflexivity].
  exfalso. destruct Hspec as (u & Hin & Hu).
  rewrite Forall_forall in Hall. specialize (Hall u Hin).
  apply (not_valid_update cells u); [|exact Hall].
  destruct Hu as [[Hu _]|[Hu _]]; [left | right]; exact Hu.
Qed.

(** A call whose updates all pass the checks comes to the write: what
    is left of it is the call of [import_] with the notebook of the
    cells after the assignments, and the success result after it. *)
Lemma update_cells_valid (c : client) (path text : string) (ups : list cell_update) :
  source c !! path = Some text ->
  Forall (valid_update (_parse_notebook_cells text)) ups ->
  exists result : gmap string value,
    result !! "status" = Some (VStr "success")
    /\ result !! "updated_cells" = Some (VList (map VInt (map index ups)))
    /\ update_cells path ups c
       = (do_ workspace_import_ path
                (_reconstruct_notebook (fold_left assign ups (_parse_notebook_cells text)));
          ret result) c.
Proof.
  intros Hsrc Hall.
  assert (Hrange : Forall (in_range (_parse_notebook_cells text)) ups).
  { eapply Forall_impl; [exact Hall|]. intros u [Hu _]. exact Hu. }
  unfold update_cells, workspace_export, lift.
  unfold bind at 1. rewrite Hsrc. rewrite valid_updates_pass by exact Hall.
  unfold bind at 1. rewrite apply_updates_in_range by exact Hrange.
  eexists. split; [|split; [|reflexivity]]; reflexivity.
Qed.

(** The two ways a call of [import_] ends. *)
Lemma workspace_import_spec (path content : string) (c : client) :
  imports (snd (workspace_import_ path content c)) = imports c ++ [(path, content)]
  /\ match import_error c path content with
     | None =>
         fst (workspace_import_ path content c) = Return tt
         /\ source (snd (workspace_import_ path content c)) = <[path := content]> (source c)
     | Some e =>
         fst (workspace_import_ path content c) = Raise e
         /\ source (snd (workspace_import_ path content c)) = source c
     end.
Proof.
  unfold workspace_import_. destruct (import_error c path content); repeat split.
Qed.

(** C8, as the code has it. A batch whose updates all pass both checks
    is not turned down, also when two of them carry the same index: the
    updates are applied in the order of the batch, so a cell ends with
    the content of the last update that names it, the other cells keep
    their content, and [import_] is called once, with the notebook of
    these cells.  When the workspace accepts the write the call returns
    [status = "success"] and the notebook has the new text; when the
    workspace refuses it the call raises what [import_] raised and the
    notebook is as it was. *)
Theorem repeated_index_last_write_wins (c : client) (path text : string)
    (ups : list cell_update) :
  source c !! path = Some text ->
  Forall (valid_update (_parse_notebook_cells text)) ups ->
  exists (cells' : list string) (answer : outcome (gmap string value)) (c' : client),
    update_notebook_cell (UpdateNotebookCellArgs path None None (Some ups)) c
      = (answer, c')
    /\ ~ rejected (UpdateNotebookCellArgs path None None (Some ups)) c
    /\ imports c' = imports c ++ [(path, _reconstruct_notebook cells')]
    /\ length cells' = length (_parse_notebook_cells text)
    /\ (forall k : nat,
          cells' !! k
          = match last (filter (fun u => index u = Z.of_nat k) ups) with
            | Some u => Some (content u)
            | None => _parse_notebook_cells text !! k
            end)
    /\ match import_error c path (_reconstruct_notebook cells') with
       | None =>
           (exists result,
              answer = Return result
              /\ result !! "status" = Some (VStr "success")
              /\ result !! "updated_cells" = Some (VList (map VInt (map index ups))))
           /\ source c' = <[path := _reconstruct_notebook cells']> (source c)
       | Some e => answer = Raise e /\ source c' = source c
       end.
Proof.
  intros Hsrc Hall.
  assert (Hrange : Forall (in_range (_parse_notebook_cells text)) ups).
  { eapply Forall_impl; [exact Hall|]. intros u [Hu _]. exact Hu. }
  destruct (update_cells_valid c path text ups Hsrc Hall) as (result & Hstatus & Hupd & Hrun).
  set (cells' := fold_left assign ups (_parse_notebook_cells text)) in *.
  destruct (workspace_import_spec path (_reconstruct_notebook cells') c) as [Himp Hend].
  assert (Hwrite : forall answer c',
            update_notebook_cell (UpdateNotebookCellArgs path None None (Some ups)) c
              = (answer, c') ->
            c' = snd (workspace_import_ path (_reconstruct_notebook cells') c)).
  { intros answer c'. unfold update_notebook_cell.
    cbn [un_cell_index un_updates un_notebook_path]. rewrite Hrun. unfold bind, ret.
    destruct (workspace_import_ path (_reconstruct_notebook cells') c) as [[[]|e] c1];
      intros [= _ <-]; reflexivity. }
  destruct (update_notebook_cell (UpdateNotebookCellArgs path None None (Some ups)) c)
    as [answer c'] eqn:Ecall.
  pose proof (Hwrite answer c' eq_refl) as Hc'.
  exists cells', answer, c'. split; [reflexivity|].
  split.
  { intros [message Hrej]. rewrite Hrej in Ecall. injection Ecall as _ <-.
    rewrite <- Hc' in Himp. apply (f_equal (@length _)) in Himp.
    rewrite length_app in Himp. cbn [length] in Himp. lia. }
  split; [rewrite Hc'; exact Himp|].
  split; [apply length_fold_assign|].
  split; [intros k; apply lookup_fold_assign; exact Hrange|].
  revert Ecall. unfold update_notebook_cell.
  cbn [un_cell_index un_updates un_notebook_path]. rewrite Hrun. unfold bind, ret.
  destruct (import_error c path (_reconstruct_notebook cells')) as [e|] eqn:Eerr.
  - destruct Hend as [Hfst Hsource].
    destruct (workspace_import_ path (_reconstruct_notebook cells') c) as [o c1].
    cbn [fst snd] in Hfst, Hsource. subst o. intros [= <- <-]. split; [reflexivity | exact Hsource].
  - destruct Hend as [Hfst Hsource].
    destruct (workspace_import_ path (_reconstruct_notebook cells') c) as [o c1].
    cbn [fst snd] in Hfst, Hsource. subst o. intros [= <- <-].
    split; [|exact Hsource]. exists result. repeat split; assumption.
Qed.

Lemma repeated_index_last_write_wins_witness :
  exists (cells' : list string) (result : gmap string value) (c' : client),
    update_notebook_cell repeated_batch scenario_client = (Return result, c')
    /\ cells' !! 0%nat = Some "y"
    /\ source c' !! "/nb" = Some (_reconstruct_notebook cells').
Proof.
  destruct (repeated_index_last_write_wins scenario_client "/nb" scenario_document
              [CellUpdate 0 "x"; CellUpdate 0 "y"])
    as (cells' & answer & c' & Hrun & _ & _ & _ & Hcells & Hend).
  - reflexivity.
  - repeat constructor; vm_compute; try discriminate;
      intros [H|[H _]]; discriminate.
  - change (import_error scenario_client "/nb" (_reconstruct_notebook cells'))
      with (@None exn) in Hend.
    destruct Hend as [(result & -> & _) Hsource].
    exists cells', result, c'. split; [exact Hrun|].
    split; [rewrite (Hcells 0%nat); reflexivity|].
    rewrite Hsource. apply lookup_insert_eq.
Defined.

(** The same batch on a workspace that refuses the write: the call
    raises what [import_] raised, after one call of [import_], and the
    notebook keeps its text. *)
Lemma refused_write_raises :
  fst (update_notebook_cell repeated_batch read_only_client)
  = Raise (Exn "PermissionDenied" "/nb")
  /\ imports (snd (update_notebook_cell repeated_batch read_only_client))
     = [("/nb", _reconstruct_notebook ["y"; "b"; "c"])]
  /\ source (snd (update_notebook_cell repeated_batch read_only_client))
     = source read_only_client.
Proof. repeat split; vm_compute; reflexivity. Qed.

End CellUpdates.

(** ** Cluster listing *)

Section Clusters.
Import Databricks.

Lemma list_clusters_step_spec (filter_by : string) (limit : Z)
    (clusters : list value) (total_matched : Z) (cl : cluster) :
  list_clusters_step filter_by limit (clusters, total_matched) cl
  = if cluster_matches filter_by cl
    then (if PyList.len clusters <? limit then clusters ++ [shown_cluster cl] else clusters,
          total_matched + 1)
    else (clusters, total_matched).
Proof.
  unfold list_clusters_step, cluster_matches, shown_cluster. cbv zeta.
  destruct (String.eqb filter_by "running" &&
            negb (String.eqb (default "UNKNOWN" (cluster_state cl)) "RUNNING"));
    [reflexivity|].
  destruct (String.eqb filter_by "terminated" &&
            negb (String.eqb (default "UNKNOWN" (cluster_state cl)) "TERMINATED"));
    [reflexivity|].
  simpl. destruct (PyList.len clusters <? limit); reflexivity.
Qed.

Lemma list_clusters_loop (filter_by : string) (limit : Z) (cls : list cluster) :
  forall (clusters : list value) (total_matched : Z),
  fold_left (list_clusters_step filter_by limit) cls (clusters, total_matched)
  = (clusters ++ firstn (Z.to_nat (limit - PyList.len clusters))
                   (map shown_cluster (List.filter (cluster_matches filter_by) cls)),
     total_matched + PyList.len (List.filter (cluster_matches filter_by) cls)).
Proof.
  induction cls as [|cl cls IH]; intros clusters total_matched.
  - simpl. rewrite firstn_nil, app_nil_r. unfold PyList.len. simpl. f_equal. lia.
  - cbn [fold_left List.filter]. rewrite list_clusters_step_spec.
    destruct (cluster_matches filter_by cl); [|apply IH].
    destruct (Z.ltb_spec (PyList.len clusters) limit) as [Hlt|Hge]; rewrite IH.
    + f_equal.
      * unfold PyList.len in *. rewrite length_app. cbn [length map].
        replace (Z.to_nat (limit - Z.of_nat (length clusters)))
          with (S (Z.to_nat (limit - Z.of_nat (length clusters + 1)))) by lia.
        cbn [firstn]. now rewrite <- app_assoc.
      * unfold PyList.len. cbn [length]. lia.
    + f_equal.
      * replace (Z.to_nat (limit - PyList.len clusters)) with 0%nat by lia.
        reflexivity.
      * unfold PyList.len. cbn [length]. lia.
Qed.

(** A requested limit of 500 is clamped to 100, and the result does not
    say so: it has three entries, [clusters], [returned] and
    [total_matched], and it is the result of a request for 3. And a
    requested limit of -1 stays -1, below the 0 clusters returned. *)
Lemma clamped_limit_not_reported :
  Z.min 500 100 <> 500
  /\ (exists result,
       list_clusters (ListClustersArgs None (Some 500)) one_cluster_client
         = (Return result, one_cluster_client)
       /\ size result = 3%nat
       /\ result !! "clusters" = Some (VList [shown_cluster one_cluster])
       /\ result !! "returned" = Some (VInt 1)
       /\ result !! "total_matched" = Some (VInt 1))
  /\ list_clusters (ListClustersArgs None (Some 500)) one_cluster_client
     = list_clusters (ListClustersArgs None (Some 3)) one_cluster_client
  /\ (exists result,
       list_clusters (ListClustersArgs None (Some (-1))) one_cluster_client
         = (Return result, one_cluster_client)
       /\ result !! "returned" = Some (VInt 0)
       /\ Z.min (-1) 100 < 0).
Proof.
  split; [lia|]. split; [|split; [reflexivity|]].
  - eexists. split; [reflexivity|]. repeat split; vm_compute; reflexivity.
  - eexists. split; [reflexivity|]. split; [reflexivity | lia].
Qed.

(** C9, as the code has it. The effective limit of [list_clusters] is
    [min(requested, 100)]; the clusters returned are the first matching
    ones, at most [max(effective, 0)] of them; and the effective limit
    is reported, in the message next to [truncated = True], exactly when
    more clusters matched than the effective limit, whether or not the
    requested limit was clamped. *)
Theorem list_clusters_limit (c : client) (args : list_clusters_args) (cls : list cluster) :
  cluster_list c = Return cls ->
  let limit := Z.min (default 25 (lc_limit args)) 100 in
  let matched := List.filter (cluster_matches (default "all" (lc_filter_by args))) cls in
  exists result,
    list_clusters args c = (Return result, c)
    /\ limit <= 100
    /\ result !! "clusters"
       = Some (VList (firstn (Z.to_nat limit) (map shown_cluster matched)))
    /\ result !! "returned"
       = Some (VInt (PyList.len (firstn (Z.to_nat limit) (map shown_cluster matched))))
    /\ PyList.len (firstn (Z.to_nat limit) (map shown_cluster matched)) <= Z.max limit 0
    /\ result !! "total_matched" = Some (VInt (PyList.len matched))
    /\ (if limit <? PyList.len matched
        then result !! "truncated" = Some (VBool true)
             /\ result !! "message"
                = Some (VStr ("Showing " +:+ PyStr.of_int limit +:+ " of "
                               +:+ PyStr.of_int (PyList.len matched)
                               +:+ " clusters. Use filter_by or increase limit (max 100) to see more."))
        else result !! "truncated" = None /\ result !! "message" = None).
Proof.
  intros Hcls limit matched.
  unfold list_clusters, bind, clusters_list. rewrite Hcls.
  fold limit. rewrite list_clusters_loop. fold matched.
  cbn [app]. change (PyList.len (@nil value)) with 0.
  rewrite Z.sub_0_r, !Z.add_0_l.
  assert (Hlen : PyList.len (firstn (Z.to_nat limit) (map shown_cluster matched))
                 <= Z.max limit 0).
  { unfold PyList.len. rewrite length_firstn. lia. }
  rewrite Z.gtb_ltb. unfold ret.
  destruct (limit <? PyList.len matched);
    (eexists; split; [reflexivity|]);
    (split; [subst limit; lia|]);
    repeat split; try exact Hlen; reflexivity.
Qed.

Lemma list_clusters_limit_witness :
  exists result,
    list_clusters (ListClustersArgs None (Some 500)) one_cluster_client
      = (Return result, one_cluster_client)
    /\ result !! "truncated" = None.
Proof.
  destruct (list_clusters_limit one_cluster_client (ListClustersArgs None (Some 500))
              [one_cluster] eq_refl)
    as (result & Hrun & _ & _ & _ & _ & _ & Hrep).
  exists result. split; [exact Hrun|]. exact (proj1 Hrep).
Defined.

End Clusters.

(** ** Waiting for a run *)

Section RunWaiter.
Import Databricks.

Lemma wait_loop_never_terminal (run_id timeout_minutes poll_interval max_iterations : Z)
    (n : nat) :
  forall (fuel : nat) (iteration : Z) (c : client),
  (forall k, not_terminal (run_status c run_id k)) ->
  Z.to_nat (max_iterations - iteration) = n ->
  (n < fuel)%nat ->
  exists c',
    wait_loop fuel run_id timeout_minutes poll_interval max_iterations iteration c
      = Some (Return (timeout_result run_id timeout_minutes), c')
    /\ polls c' = (polls c + n)%nat
    /\ slept c' = slept c ++ repeat poll_interval n
    /\ same_upstream c c'.
Proof.
  induction n as [|n IH]; intros fuel iteration c Hrun Hn Hfuel;
    (destruct fuel as [|fuel]; [lia|]); cbn [wait_loop].
  - destruct (Z.ltb_spec iteration max_iterations); [lia|].
    exists c. rewrite Nat.add_0_r, app_nil_r. repeat split.
  - destruct (Z.ltb_spec iteration max_iterations); [|lia].
    destruct (Hrun (polls c)) as (r & Hr & Hst).
    unfold jobs_get_run. rewrite Hr.
    replace (match state r with
             | Some st => terminal_states (life_cycle_state st)
             | None => false
             end) with false by (destruct (state r); [symmetry; exact Hst | reflexivity]).
    cbn [asyncio_sleep].
    edestruct (IH fuel (iteration + 1)) as (c' & Hloop & Hpolls & Hslept & Hsame);
      [| | |rewrite Hloop].
    + cbn [run_status]. exact Hrun.
    + lia.
    + lia.
    + exists c'. split; [reflexivity|]. cbn in Hpolls, Hslept.
      split; [lia|]. split.
      * rewrite Hslept, <- app_assoc. reflexivity.
      * exact Hsame.
Qed.

Lemma truncate_text_meta_other (text : string) (b : Z) (name key : string) :
  key <> name +:+ "_truncated" -> key <> name +:+ "_total_size" ->
  key <> name +:+ "_shown_size" ->
  snd (truncate_text text b name) !! key = None.
Proof.
  intros H1 H2 H3. unfold truncate_text.
  destruct (String.eqb text "" || (PyStr.len text <=? b))%bool; simpl.
  - apply lookup_empty.
  - rewrite !lookup_insert_ne by congruence. apply lookup_empty.
Qed.

(** The result that [get_run_output] assembles for a run, whatever its
    state and output, has no [status] entry. *)
Lemma get_run_output_no_status (run_id : Z) (c c' : client) (result : gmap string value) :
  get_run_output run_id c = (Return result, c') -> result !! "status" = None.
Proof.
  unfold get_run_output, bind, jobs_get_run, jobs_get_run_output. cbn [run_result].
  destruct (run_status c run_id (polls c)) as [r|e]; [|discriminate].
  destruct (run_result c run_id) as [output|e]; [|discriminate].
  unfold ret. intros H. injection H as <- _.
  assert (Hmeta : forall text b name,
            "status" <> name +:+ "_truncated" -> "status" <> name +:+ "_total_size" ->
            "status" <> name +:+ "_shown_size" ->
            forall m : gmap string value, m !! "status" = None ->
            (snd (truncate_text text b name) ∪ m) !! "status" = None).
  { intros text b name H1 H2 H3 m Hm. apply lookup_union_None_2; [|exact Hm].
    apply truncate_text_meta_other; assumption. }
  repeat match goal with
         | |- context [match ?o with Some _ => _ | None => _ end] => destruct o
         | |- context [let '(_, _) := truncate_text ?t ?b ?n in _] =>
             rewrite (surjective_pairing (truncate_text t b n))
         | |- (snd (truncate_text _ _ _) ∪ _) !! _ = None =>
             apply Hmeta; [discriminate..|]
         | |- <[_ := _]> _ !! "status" = None =>
             rewrite lookup_insert_ne by discriminate
         | |- ∅ !! _ = None => apply lookup_empty
         | |- context [let '(_, _) := (_, _) in _] => cbv beta iota
         end.
Qed.

(** C5. When no answer of the service shows the run in a terminal
    life-cycle state, [wait_for_run] asks for the status of the run
    [floor(timeout_minutes * 60 / poll_interval_seconds)] times, no more
    and no less, sleeping the interval after each, and then returns (it
    does not raise) the result with [status = "TIMEOUT"]; a result that
    [get_run_output] assembles for a finished run, succeeded or failed,
    has no [status] entry. *)
Theorem wait_for_run_timeout (c : client) (args : wait_for_run_args) (fuel : nat) :
  let timeout_minutes := default 30 (wr_timeout_minutes args) in
  let poll_interval := default 10 (wr_poll_interval_seconds args) in
  let attempts := timeout_minutes * 60 / poll_interval in
  0 < poll_interval ->
  0 <= timeout_minutes ->
  (forall k, not_terminal (run_status c (wr_run_id args) k)) ->
  attempts < Z.of_nat fuel ->
  exists (result : gmap string value) (c' : client),
    wait_for_run fuel args c = Some (Return result, c')
    /\ Z.of_nat (polls c') = Z.of_nat (polls c) + attempts
    /\ slept c' = slept c ++ repeat poll_interval (Z.to_nat attempts)
    /\ same_upstream c c'
    /\ result !! "status" = Some (VStr "TIMEOUT")
    /\ result !! "run_id" = Some (VInt (wr_run_id args))
    /\ result !! "message"
       = Some (VStr ("Run did not complete within " +:+ PyStr.of_int timeout_minutes
                      +:+ " minutes"))
    /\ forall (run_id : Z) (c0 c1 : client) (finished : gmap string value),
         get_run_output run_id c0 = (Return finished, c1) ->
         finished !! "status" = None.
Proof.
  intros timeout_minutes poll_interval attempts Hpoll Htimeout Hrun Hfuel.
  assert (Hnn : 0 <= attempts) by (apply Z.div_pos; lia).
  unfold wait_for_run. fold timeout_minutes poll_interval.
  destruct (Z.eqb_spec poll_interval 0) as [H0|_]; [lia|].
  fold attempts.
  destruct (wait_loop_never_terminal (wr_run_id args) timeout_minutes poll_interval
              attempts (Z.to_nat attempts) fuel 0 c Hrun)
    as (c' & Hloop & Hpolls & Hslept & Hsame); [f_equal; lia | lia |].
  exists (timeout_result (wr_run_id args) timeout_minutes), c'.
  split; [exact Hloop|]. split; [lia|]. split; [exact Hslept|].
  split; [exact Hsame|]. repeat split.
  intros run_id c0 c1 finished. apply get_run_output_no_status.
Qed.

(** One minute at ten seconds: six polls. *)
Lemma wait_for_run_timeout_witness :
  exists (result : gmap string value) (c' : client),
    wait_for_run 7 (WaitForRunArgs 42 (Some 1) (Some 10)) running_client
      = Some (Return result, c')
    /\ polls c' = 6%nat
    /\ result !! "status" = Some (VStr "TIMEOUT").
Proof.
  destruct (wait_for_run_timeout running_client (WaitForRunArgs 42 (Some 1) (Some 10)) 7)
    as (result & c' & Hrun & Hpolls & _ & _ & Hstatus & _).
  - reflexivity.
  - discriminate.
  - intros k. eexists. split; reflexivity.
  - reflexivity.
  - exists result, c'. split; [exact Hrun|]. split; [|exact Hstatus].
    simpl in Hpolls. change (1 * 60 / 10) with 6 in Hpolls. lia.
Defined.

End RunWaiter.

(** ** Windows over lists *)

Section Windows.
Import Databricks.

Lemma slice_window {A} (l : list A) (offset limit : Z) :
  0 <= offset -> 0 <= limit ->
  PyList.slice l offset (offset + limit)
  = firstn (Z.to_nat limit) (skipn (Z.to_nat offset) l).
Proof.
  intros Ho Hl. unfold PyList.slice, PyList.clamp, PyList.len.
  destruct (Z.ltb_spec offset 0); [lia|].
  destruct (Z.ltb_spec (offset + limit) 0); [lia|].
  destruct (Z.le_gt_cases (Z.of_nat (length l)) offset) as [Hbig|Hsmall].
  - rewrite !skipn_all2 by lia. now rewrite !firstn_nil.
  - replace (Z.to_nat (Z.min offset (Z.of_nat (length l)))) with (Z.to_nat offset) by lia.
    destruct (Z.le_gt_cases (offset + limit) (Z.of_nat (length l))).
    + f_equal. lia.
    + rewrite !firstn_all2; [reflexivity | |]; rewrite length_skipn; lia.
Qed.

Lemma slice_from_window {A} (l : list A) (offset : Z) :
  0 <= offset -> PyList.slice_from l offset = skipn (Z.to_nat offset) l.
Proof.
  intros Ho. unfold PyList.slice_from, PyList.clamp, PyList.len.
  destruct (Z.ltb_spec offset 0); [lia|].
  destruct (Z.le_gt_cases (Z.of_nat (length l)) offset) as [Hbig|Hsmall].
  - rewrite !skipn_all2 by lia. reflexivity.
  - f_equal. lia.
Qed.

Lemma window_invariant_result (offset returned total : Z) (r : gmap string value) :
  r !! "has_more" = None -> r !! "next_offset" = None ->
  window_invariant offset returned total
    (if offset + returned <? total
     then <["next_offset" := VInt (offset + returned)]> (<["has_more" := VBool true]> r)
     else r).
Proof.
  intros Hm Hn. unfold window_invariant.
  destruct (Z.ltb_spec (offset + returned) total) as [Hlt|Hge].
  - rewrite lookup_insert_eq, lookup_insert_ne, lookup_insert_eq by discriminate.
    split; [|split; [|split]].
    + split; auto.
    + split; [discriminate | intros H; contradiction].
    + split; eauto.
    + intros v [= <-]. reflexivity.
  - rewrite Hm, Hn. split; [|split; [|split]].
    + split; [discriminate | lia].
    + split; [intros _; lia | reflexivity].
    + split; [intros [v Hv]; discriminate | discriminate].
    + discriminate.
Qed.

Lemma next_offset_of_result (offset returned total : Z) (r : gmap string value) :
  r !! "has_more" = None -> r !! "next_offset" = None ->
  next_offset_of
    (if offset + returned <? total
     then <["next_offset" := VInt (offset + returned)]> (<["has_more" := VBool true]> r)
     else r)
  = if offset + returned <? total then Some (offset + returned) else None.
Proof.
  intros Hm Hn. unfold next_offset_of.
  destruct (offset + returned <? total).
  - rewrite lookup_insert_eq, lookup_insert_ne, lookup_insert_eq by discriminate.
    reflexivity.
  - rewrite Hm. reflexivity.
Qed.

Lemma lookup_window_other (key : string) (offset returned total : Z)
    (r : gmap string value) :
  key <> "has_more" -> key <> "next_offset" ->
  (if offset + returned <? total
   then <["next_offset" := VInt (offset + returned)]> (<["has_more" := VBool true]> r)
   else r) !! key = r !! key.
Proof.
  intros H1 H2. destruct (offset + returned <? total); [|reflexivity].
  rewrite !lookup_insert_ne by congruence. reflexivity.
Qed.

(** What [list_notebooks] returns over a directory that can be listed. *)
Lemma list_notebooks_spec (c : client) (args : list_notebooks_args)
    (items : list object_info) :
  directory c (ln_path args) = Return items ->
  let all_items := map notebook_item items in
  let offset := default 0 (ln_offset args) in
  let limit := default MAX_LIST_ITEMS (ln_limit args) in
  let window := PyList.slice all_items offset (offset + limit) in
  exists r,
    list_notebooks args c = (Return r, c)
    /\ r !! "items" = Some (VList window)
    /\ r !! "total_count" = Some (VInt (PyList.len all_items))
    /\ r !! "returned_count" = Some (VInt (PyList.len window))
    /\ r !! "offset" = Some (VInt offset)
    /\ window_invariant offset (PyList.len window) (PyList.len all_items) r
    /\ next_offset_of r
       = if offset + PyList.len window <? PyList.len all_items
         then Some (offset + PyList.len window) else None.
Proof.
  intros Hdir all_items offset limit window.
  unfold list_notebooks, bind, workspace_list. rewrite Hdir.
  fold all_items offset limit. fold window. unfold ret.
  eexists. split; [reflexivity|].
  rewrite !lookup_window_other by discriminate.
  repeat split; try reflexivity;
    try (apply window_invariant_result; reflexivity).
  apply next_offset_of_result; reflexivity.
Qed.

Lemma map_snd_imap {A} (g : nat -> Z) (l : list A) :
  map snd (imap (fun i x => (g i, x)) l) = l.
Proof.
  revert g. induction l as [|x l IH]; intros g; [reflexivity|].
  rewrite imap_cons. cbn [map snd]. f_equal. apply (IH (g ∘ S)).
Qed.

Lemma read_cell_fst (cell_offset : Z) (cells_output : list string)
    (info : gmap Z value) (ic : Z * string) :
  fst (read_cell cell_offset (cells_output, info) ic)
  = cells_output ++ [shown_cell (snd ic)].
Proof.
  destruct ic as [i cell]. unfold read_cell, shown_cell. cbn [snd].
  destruct (PyStr.len cell >? MAX_CELL_CONTENT); reflexivity.
Qed.

Lemma read_cells_output (cell_offset : Z) (ics : list (Z * string)) :
  forall (cells_output : list string) (info : gmap Z value),
  fst (fold_left (read_cell cell_offset) ics (cells_output, info))
  = cells_output ++ map shown_cell (map snd ics).
Proof.
  induction ics as [|ic ics IH]; intros cells_output info; cbn [fold_left map].
  - now rewrite app_nil_r.
  - pose proof (read_cell_fst cell_offset cells_output info ic) as Hfst.
    destruct (read_cell cell_offset (cells_output, info) ic) as [out info'].
    cbn [fst] in Hfst. subst out. rewrite IH, <- app_assoc. reflexivity.
Qed.

(** What [read_notebook] returns for a notebook that can be exported. *)
Lemma read_notebook_spec (c : client) (args : read_notebook_args) (text : string) :
  source c !! rn_notebook_path args = Some text ->
  let all_cells := _parse_notebook_cells text in
  let cell_offset := default 0 (rn_cell_offset args) in
  let window :=
    match rn_cell_limit args with
    | Some cell_limit => PyList.slice all_cells cell_offset (cell_offset + cell_limit)
    | None => PyList.slice_from all_cells cell_offset
    end in
  exists r,
    read_notebook args c = (Return r, c)
    /\ r !! "cells" = Some (VList (map VStr (map shown_cell window)))
    /\ r !! "total_cells" = Some (VInt (PyList.len all_cells))
    /\ r !! "cells_returned" = Some (VInt (PyList.len window))
    /\ r !! "cell_offset" = Some (VInt cell_offset)
    /\ window_invariant cell_offset (PyList.len window) (PyList.len all_cells) r
    /\ next_offset_of r
       = if cell_offset + PyList.len window <? PyList.len all_cells
         then Some (cell_offset + PyList.len window) else None.
Proof.
  intros Hsrc all_cells cell_offset window.
  unfold read_notebook, bind, workspace_export. rewrite Hsrc.
  fold all_cells cell_offset. fold window.
  pose proof (read_cells_output cell_offset (enumerate window) [] ∅) as Hout.
  destruct (fold_left (read_cell cell_offset) (enumerate window) ([], ∅))
    as [cells_output info].
  cbn [fst app] in Hout. unfold enumerate in Hout. rewrite map_snd_imap in Hout.
  subst cells_output. unfold ret.
  assert (Hlen : PyList.len (map shown_cell window) = PyList.len window).
  { unfold PyList.len. now rewrite length_map. }
  rewrite Hlen.
  eexists. split; [reflexivity|].
  rewrite !lookup_window_other by discriminate.
  destruct (decide (info = ∅)).
  - repeat split; try reflexivity;
      try (apply window_invariant_result; reflexivity).
    apply next_offset_of_result; reflexivity.
  - repeat split; try reflexivity;
      try (apply window_invariant_result; reflexivity).
    apply next_offset_of_result; reflexivity.
Qed.

(** The two cases of a window [take limit (drop offset l)] with
    [limit >= 1]: either more follows and the rest starts [limit]
    further, or the window is all that is left. *)
Lemma window_step {A} (l : list A) (offset limit : Z) :
  0 <= offset -> 1 <= limit ->
  let window := firstn (Z.to_nat limit) (skipn (Z.to_nat offset) l) in
  (offset + PyList.len window < PyList.len l
   -> PyList.len window = limit
      /\ window ++ skipn (Z.to_nat (offset + PyList.len window)) l
         = skipn (Z.to_nat offset) l)
  /\ (~ offset + PyList.len window < PyList.len l
      -> window = skipn (Z.to_nat offset) l).
Proof.
  intros Ho Hl window.
  assert (Hlen : PyList.len window
                 = Z.min limit (Z.max 0 (PyList.len l - offset))).
  { unfold window, PyList.len. rewrite length_firstn, length_skipn. lia. }
  split.
  - intros Hmore. assert (Hw : PyList.len window = limit) by lia.
    split; [exact Hw|]. rewrite Hw.
    replace (Z.to_nat (offset + limit)) with (Z.to_nat offset + Z.to_nat limit)%nat by lia.
    rewrite <- drop_drop. apply take_drop.
  - intros Hlast. unfold window. apply firstn_all2.
    rewrite length_skipn. unfold PyList.len in *. lia.
Qed.

Lemma follow_list_notebooks_complete (c : client) (path : string) (limit : option Z)
    (items : list object_info) :
  directory c path = Return items ->
  1 <= default MAX_LIST_ITEMS limit ->
  forall (fuel : nat) (offset : Z),
  0 <= offset ->
  Z.max 0 (PyList.len items - offset) < Z.of_nat fuel ->
  follow_list_notebooks fuel c path limit offset
  = Some (skipn (Z.to_nat offset) (map notebook_item items)).
Proof.
  intros Hdir Hlimit. induction fuel as [|fuel IH]; intros offset Ho Hfuel; [lia|].
  cbn [follow_list_notebooks].
  destruct (list_notebooks_spec c (ListNotebooksArgs path limit (Some offset)) items Hdir)
    as (r & Hrun & Hitems & _ & _ & _ & _ & Hnext).
  cbn [ln_path ln_limit ln_offset] in Hrun, Hitems, Hnext.
  change (default 0 (Some offset)) with offset in Hitems, Hnext.
  rewrite Hrun, Hnext. unfold result_items. rewrite Hitems.
  rewrite slice_window by lia.
  destruct (window_step (map notebook_item items) offset (default MAX_LIST_ITEMS limit) Ho Hlimit)
    as [Hmore Hlast]. cbv zeta in Hmore, Hlast.
  assert (Hall : PyList.len (map notebook_item items) = PyList.len items).
  { unfold PyList.len. now rewrite length_map. }
  match goal with |- context [?a <? ?b] => destruct (Z.ltb_spec a b) as [Hlt|Hge] end.
  - destruct (Hmore Hlt) as [Hw Happ].
    rewrite IH by lia. cbn [fmap option_fmap option_map]. f_equal. exact Happ.
  - f_equal. apply Hlast. lia.
Qed.

Lemma follow_read_notebook_complete (c : client) (path text : string)
    (cell_limit : option Z) :
  source c !! path = Some text ->
  (forall l, cell_limit = Some l -> 1 <= l) ->
  forall (fuel : nat) (cell_offset : Z),
  0 <= cell_offset ->
  Z.max 0 (PyList.len (_parse_notebook_cells text) - cell_offset) < Z.of_nat fuel ->
  follow_read_notebook fuel c path cell_limit cell_offset
  = Some (map VStr (map shown_cell
            (skipn (Z.to_nat cell_offset) (_parse_notebook_cells text)))).
Proof.
  intros Hsrc Hlimit. induction fuel as [|fuel IH]; intros offset Ho Hfuel; [lia|].
  cbn [follow_read_notebook].
  destruct (read_notebook_spec c (ReadNotebookArgs path (Some offset) cell_limit) text Hsrc)
    as (r & Hrun & Hcells & _ & _ & _ & _ & Hnext).
  cbn [rn_notebook_path rn_cell_limit rn_cell_offset] in Hrun, Hcells, Hnext.
  change (default 0 (Some offset)) with offset in Hcells, Hnext.
  rewrite Hrun, Hnext. unfold result_items. rewrite Hcells.
  destruct cell_limit as [l|].
  - specialize (Hlimit l eq_refl). rewrite slice_window by lia.
    destruct (window_step (_parse_notebook_cells text) offset l Ho Hlimit) as [Hmore Hlast].
    cbv zeta in Hmore, Hlast.
    match goal with |- context [?a <? ?b] => destruct (Z.ltb_spec a b) as [Hlt|Hge] end.
    + destruct (Hmore Hlt) as [Hw Happ].
      rewrite IH by lia. cbn [fmap option_fmap option_map]. f_equal.
      rewrite <- !map_app. rewrite Happ. reflexivity.
    + f_equal. rewrite Hlast by lia. reflexivity.
  - rewrite slice_from_window by lia.
    match goal with |- context [?a <? ?b] => destruct (Z.ltb_spec a b) as [Hlt|Hge] end.
    + exfalso. revert Hlt. unfold PyList.len. rewrite length_skipn. lia.
    + reflexivity.
Qed.

Lemma follow_zero_limit (fuel : nat) :
  follow_list_notebooks fuel paging_client "/dir" (Some 0) 0 = None.
Proof.
  induction fuel as [|fuel IH]; [reflexivity|].
  change (follow_list_notebooks (S fuel) paging_client "/dir" (Some 0) 0)
    with (app [] <$> follow_list_notebooks fuel paging_client "/dir" (Some 0) 0).
  rewrite IH. reflexivity.
Qed.

(** With a limit of 0 the window is empty, [has_more] is true and
    [next_offset] is the offset of the call, so following it never
    yields the directory; from an offset of -1 the last item comes
    first and then the whole directory, so it comes twice; and a
    notebook whose one cell has 50,001
    characters, over [MAX_CELL_CONTENT], is read as one cell of 50,049:
    the first 50,000 and the truncation note. *)
Lemma window_chain_counterexample :
  (exists r,
     list_notebooks (ListNotebooksArgs "/dir" (Some 0) (Some 0)) paging_client
       = (Return r, paging_client)
     /\ r !! "items" = Some (VList [])
     /\ r !! "has_more" = Some (VBool true)
     /\ r !! "next_offset" = Some (VInt 0))
  /\ ~ (exists fuel,
         follow_list_notebooks fuel paging_client "/dir" (Some 0) 0
         = Some (map notebook_item three_items))
  /\ follow_list_notebooks 2 paging_client "/dir" (Some 5) (-1)
     = Some (map notebook_item
               (ObjectInfo (VStr "/dir/c") None None :: three_items))
  /\ map PyStr.len (_parse_notebook_cells long_cell) = [50001]
  /\ match follow_read_notebook 1 long_cell_client "/long" None 0 with
     | Some [VStr shown] => PyStr.len shown
     | _ => 0
     end = 50049.
Proof.
  split; [|split; [|split; [|split]]].
  - eexists. split; [reflexivity|]. repeat split.
  - intros [fuel H]. rewrite follow_zero_limit in H. discriminate.
  - reflexivity.
  - vm_compute. reflexivity.
  - vm_compute. reflexivity.
Qed.

(** C4, as the code has it. Every result of [list_notebooks] and of
    [read_notebook] satisfies the PageWindow invariant: [has_more] is
    present (and true) exactly when [offset + returned < total], and
    [next_offset] is present exactly then and is [offset + returned].
    When the limit is at least 1 (or, for [read_notebook], absent) and
    the first offset is not negative, the calls obtained by following
    [next_offset] end, and their items, concatenated, are the elements
    from the first offset on, in order and once each; from offset 0 that
    is the whole listing. [read_notebook] shows a cell longer than
    [MAX_CELL_CONTENT] truncated. *)
Theorem windows_follow_next_offset (c : client) (path nb_path text : string)
    (items : list object_info) :
  directory c path = Return items ->
  source c !! nb_path = Some text ->
  (forall limit offset, exists r window,
     list_notebooks (ListNotebooksArgs path limit offset) c = (Return r, c)
     /\ r !! "items" = Some (VList window)
     /\ window_invariant (default 0 offset) (PyList.len window) (PyList.len items) r)
  /\ (forall limit offset fuel,
        1 <= default MAX_LIST_ITEMS limit -> 0 <= offset ->
        Z.max 0 (PyList.len items - offset) < Z.of_nat fuel ->
        follow_list_notebooks fuel c path limit offset
        = Some (skipn (Z.to_nat offset) (map notebook_item items)))
  /\ (forall cell_limit cell_offset, exists r window,
        read_notebook (ReadNotebookArgs nb_path cell_offset cell_limit) c = (Return r, c)
        /\ r !! "cells" = Some (VList window)
        /\ window_invariant (default 0 cell_offset) (PyList.len window)
             (PyList.len (_parse_notebook_cells text)) r)
  /\ (forall cell_limit cell_offset fuel,
        (forall l, cell_limit = Some l -> 1 <= l) -> 0 <= cell_offset ->
        Z.max 0 (PyList.len (_parse_notebook_cells text) - cell_offset) < Z.of_nat fuel ->
        follow_read_notebook fuel c nb_path cell_limit cell_offset
        = Some (map VStr (map shown_cell
                  (skipn (Z.to_nat cell_offset) (_parse_notebook_cells text))))).
Proof.
  intros Hdir Hsrc. split; [|split; [|split]].
  - intros limit offset.
    destruct (list_notebooks_spec c (ListNotebooksArgs path limit offset) items Hdir)
      as (r & Hrun & Hitems & _ & _ & _ & Hinv & _).
    cbn [ln_path ln_limit ln_offset] in Hrun, Hitems, Hinv.
    exists r. eexists. split; [exact Hrun|]. split; [exact Hitems|].
    replace (PyList.len items) with (PyList.len (map notebook_item items))
      by (unfold PyList.len; now rewrite length_map).
    exact Hinv.
  - intros limit offset fuel Hlimit Hoffset Hfuel.
    exact (follow_list_notebooks_complete c path limit items Hdir Hlimit fuel offset
             Hoffset Hfuel).
  - intros cell_limit cell_offset.
    destruct (read_notebook_spec c (ReadNotebookArgs nb_path cell_offset cell_limit) text Hsrc)
      as (r & Hrun & Hcells & _ & _ & _ & Hinv & _).
    cbn [rn_notebook_path rn_cell_limit rn_cell_offset] in Hrun, Hcells, Hinv.
    exists r. eexists. split; [exact Hrun|]. split; [exact Hcells|].
    replace (PyList.len (map VStr (map shown_cell
               match cell_limit with
               | Some l => PyList.slice (_parse_notebook_cells text) (default 0 cell_offset)
                             (default 0 cell_offset + l)
               | None => PyList.slice_from (_parse_notebook_cells text) (default 0 cell_offset)
               end)))
      with (PyList.len match cell_limit with
               | Some l => PyList.slice (_parse_notebook_cells text) (default 0 cell_offset)
                             (default 0 cell_offset + l)
               | None => PyList.slice_from (_parse_notebook_cells text) (default 0 cell_offset)
               end)
      by (unfold PyList.len; now rewrite !length_map).
    exact Hinv.
  - intros cell_limit cell_offset fuel Hlimit Hoffset Hfuel.
    exact (follow_read_notebook_complete c nb_path text cell_limit Hsrc Hlimit fuel
             cell_offset Hoffset Hfuel).
Qed.

Lemma windows_follow_next_offset_witness :
  follow_list_notebooks 4 paging_client "/dir" (Some 2) 0
  = Some (map notebook_item three_items)
  /\ follow_read_notebook 4 paging_client "/nb" (Some 2) 0
     = Some [VStr "a"; VStr "b"; VStr "c"].
Proof.
  destruct (windows_follow_next_offset paging_client "/dir" "/nb" scenario_document
              three_items eq_refl eq_refl) as (_ & Hitems & _ & Hcells).
  split.
  - apply (Hitems (Some 2) 0 4%nat); [discriminate | discriminate | reflexivity].
  - apply (Hcells (Some 2) 0 4%nat); [|discriminate | reflexivity].
    intros l [= <-]. discriminate.
Defined.

End Windows.

(** ** Eager traversal of a page *)

Section EagerTraversal.
Import Notion.

Variable format_block : block -> result (gmap string value).
Variable json_dumps : gmap string value -> string.
Variable c : client.

Lemma stops_ret {A} (a : A) : stops_at_failure c (ret a).
Proof.
  intros t. exists []. cbn. rewrite app_nil_r.
  repeat split; try (left; constructor); intros; constructor.
Qed.

Lemma stops_out_of_fuel {A} : stops_at_failure c (@out_of_fuel A).
Proof.
  intros t. exists []. cbn. rewrite app_nil_r.
  repeat split; try (left; constructor); intros; constructor.
Qed.

Lemma stops_format_one (b : block) : stops_at_failure c (format_one format_block b).
Proof.
  intros t. exists []. cbn. rewrite app_nil_r.
  repeat split; try (left; constructor); intros; constructor.
Qed.

Lemma stops_get_children (req : request) : stops_at_failure c (get_children c req).
Proof.
  intros t. exists [req]. cbn. split; [reflexivity|].
  destruct (blocks_children c req) as [page|f] eqn:E.
  - assert (Hok : Forall (succeeds c) [req]).
    { constructor; [exists page; exact E | constructor]. }
    repeat split; [left; exact Hok | intros; exact Hok | discriminate].
  - split; [|split; [discriminate | discriminate]].
    right. exists [], req, f. repeat split; [constructor | exact E].
Qed.

Lemma stops_bind {A B} (m : T A) (k : A -> T B) :
  stops_at_failure c m -> (forall a, stops_at_failure c (k a)) ->
  stops_at_failure c (bind m k).
Proof.
  intros Hm Hk t. unfold bind.
  destruct (Hm t) as (new1 & Ht1 & Hab1 & Hok1 & Hcut1).
  destruct (m t) as [[[a|f]|] t1]; cbn [fst snd] in *.
  - specialize (Hok1 a eq_refl).
    destruct (Hk a t1) as (new2 & Ht2 & Hab2 & Hok2 & Hcut2).
    exists (new1 ++ new2). subst t1. rewrite Ht2, app_assoc.
    split; [reflexivity|]. split; [|split].
    + destruct Hab2 as [Hall|(new' & req & f & -> & Hall & Hfail & Hans)].
      * left. apply Forall_app. split; assumption.
      * right. exists (new1 ++ new'), req, f. rewrite app_assoc.
        repeat split; try assumption. apply Forall_app. split; assumption.
    + intros b Hb. apply Forall_app. split; [assumption | eapply Hok2; exact Hb].
    + intros Hnone. apply Forall_app. split; [assumption | apply Hcut2; exact Hnone].
  - exists new1. split; [assumption|]. split; [|split; intros; discriminate].
    destruct Hab1 as [Hall|(new' & req & f' & Hnew & Hall & Hfail & Hans)].
    + left. exact Hall.
    + right. exists new', req, f'. injection Hans as ->. repeat split; assumption.
  - exists new1. split; [assumption|].
    split; [left; apply Hcut1; reflexivity|].
    split; [intros; discriminate | intros _; apply Hcut1; reflexivity].
Qed.

Lemma stops_for_each {A S} (body : S -> A -> T S) (l : list A) :
  (forall s x, stops_at_failure c (body s x)) ->
  forall s, stops_at_failure c (for_each body l s).
Proof.
  intros Hbody. induction l as [|x l IH]; intros s; cbn [for_each].
  - apply stops_ret.
  - apply stops_bind; [apply Hbody | exact IH].
Qed.

Lemma stops_fetch_pages (fetch_children : string -> T (list value))
    (fetch_all : bool) (page_size : Z) (block_id : string) (n : nat) :
  (forall child, stops_at_failure c (fetch_children child)) ->
  forall start_cursor all_blocks,
  stops_at_failure c
    (fetch_pages format_block c fetch_children n fetch_all page_size block_id
       start_cursor all_blocks).
Proof.
  intros Hchildren. induction n as [|n IH]; intros start_cursor all_blocks;
    cbn [fetch_pages].
  - apply stops_out_of_fuel.
  - apply stops_bind; [apply stops_get_children|]. intros data.
    apply stops_bind.
    + apply stops_for_each. intros acc b.
      apply stops_bind; [apply stops_format_one|]. intros formatted.
      destruct (fetch_all && has_children b).
      * apply stops_bind; [apply Hchildren|]. intros children. apply stops_ret.
      * apply stops_ret.
    + intros acc. destruct (negb fetch_all || negb (has_more data)).
      * apply stops_ret.
      * apply IH.
Qed.

Lemma stops_fetch_blocks (fetch_all : bool) (page_size : Z) (fuel : nat) :
  forall block_id cursor,
  stops_at_failure c (fetch_blocks format_block c fuel fetch_all page_size block_id cursor).
Proof.
  induction fuel as [|fuel IH]; intros block_id cursor; cbn [fetch_blocks].
  - apply stops_out_of_fuel.
  - apply stops_fetch_pages. intros child. apply IH.
Qed.

Lemma stops_get_page_content (fuel : nat) (args : get_page_content_args) :
  stops_at_failure c (get_page_content format_block c fuel args).
Proof.
  unfold get_page_content. destruct (default true (ga_fetch_all args)).
  - apply stops_bind; [apply stops_fetch_blocks|]. intros blocks. apply stops_ret.
  - apply stops_bind; [apply stops_get_children|]. intros data.
    apply stops_bind.
    + apply stops_for_each. intros acc b.
      apply stops_bind; [apply stops_format_one|]. intros formatted. apply stops_ret.
    + intros blocks. apply stops_ret.
Qed.

Lemma for_each_format_trace (l : list block) :
  forall (blocks : list value) (t : list request),
  snd (for_each (fun blocks b =>
                   do formatted <- format_one format_block b;
                   ret (blocks ++ [VDict formatted])) l blocks t) = t.
Proof.
  induction l as [|b l IH]; intros blocks t; cbn [for_each]; [reflexivity|].
  unfold bind at 1. unfold bind at 1. unfold format_one at 1.
  destruct (format_block b) as [formatted|f]; [|reflexivity].
  unfold ret at 1. apply IH.
Qed.

(** C6. When a request for the children of a block fails during
    [get_page_content], be it the request for the page itself or one
    for a nested block after earlier requests were answered, the call
    ends there with that failure: it returns no blocks, and [call_tool]
    answers with the error text of the upstream failure. With
    [fetch_all = false] the one request sent is the one for the page
    asked for, so no other failure can reach the call. *)
Theorem fetch_failure_aborts (fuel : nat) (args : get_page_content_args)
    (req : request) (f : failure) :
  req ∈ snd (get_page_content format_block c fuel args []) ->
  blocks_children c req = Fail f ->
  fst (get_page_content format_block c fuel args []) = Some (Fail f)
  /\ call_tool format_block json_dumps c fuel args = Some (error_text f)
  /\ (ga_fetch_all args = Some false ->
      snd (get_page_content format_block c fuel args [])
      = [Request (remove_dashes (ga_page_id args))
                 (Z.min (default 100 (ga_page_size args)) 100)
                 (ga_start_cursor args)]).
Proof.
  intros Hin Hfail.
  assert (Hans : fst (get_page_content format_block c fuel args []) = Some (Fail f)).
  { destruct (stops_get_page_content fuel args []) as (new & Htrace & Hab & _ & _).
    rewrite Htrace in Hin. cbn [app] in Hin.
    assert (Hnot : forall l, Forall (succeeds c) l -> req ∈ l -> False).
    { intros l Hall Hl. rewrite Forall_forall in Hall.
      destruct (Hall req Hl) as [page Hpage]. congruence. }
    destruct Hab as [Hall|(new' & req' & f' & -> & Hall & Hfail' & Hans)].
    - exfalso. exact (Hnot new Hall Hin).
    - apply elem_of_app in Hin. destruct Hin as [Hin|Hin].
      + exfalso. exact (Hnot new' Hall Hin).
      + apply list_elem_of_singleton in Hin. subst req'. congruence. }
  split; [exact Hans|]. split.
  - unfold call_tool. rewrite Hans. destruct f; reflexivity.
  - intros Hmode. unfold get_page_content. rewrite Hmode.
    change (default true (Some false)) with false. cbv iota.
    set (req0 := Request (remove_dashes (ga_page_id args))
                   (Z.min (default 100 (ga_page_size args)) 100)
                   (ga_start_cursor args)).
    unfold bind at 1. unfold get_children at 1. cbn [app].
    destruct (blocks_children c req0) as [data|f']; [|reflexivity].
    unfold bind at 1.
    pose proof (for_each_format_trace (results data) [] [req0]) as Htrace.
    destruct (for_each _ (results data) [] [req0]) as [[[blocks|f']|] t];
      cbn [snd] in Htrace; subst t; reflexivity.
Qed.

End EagerTraversal.

Section ThreeLevels.
Import Notion.

Lemma fetch_failure_aborts_witness :
  fst (get_page_content id_only three_level_client 5
         (GetPageContentArgs "page" None None None) [])
  = Some (Fail (HTTPStatusError 502 "bad gateway"))
  /\ call_tool id_only (fun _ => "{}") three_level_client 5
       (GetPageContentArgs "page" None None None)
     = Some "Notion API Error 502: bad gateway".
Proof.
  destruct (fetch_failure_aborts id_only (fun _ => "{}") three_level_client 5
              (GetPageContentArgs "page" None None None)
              (Request "middle" 100 None) (HTTPStatusError 502 "bad gateway"))
    as (Hans & Htext & _).
  - apply list_elem_of_further, list_elem_of_here.
  - reflexivity.
  - split; [exact Hans | exact Htext].
Defined.

End ThreeLevels.

(** ** Parsing what was reconstructed *)

Section RoundTrip.
Import Databricks.

Lemma prefix_app (p s : string) :
  String.prefix p s = true -> exists r, s = p +:+ r.
Proof.
  revert s. induction p as [|a p IH]; intros s H.
  - exists s. reflexivity.
  - destruct s as [|b s]; [discriminate|]. cbn in H.
    destruct (ascii_dec a b) as [->|]; [|discriminate].
    destruct (IH s H) as [r ->]. exists r. reflexivity.
Qed.

Lemma prefix_refl_app (p r : string) : String.prefix p (p +:+ r) = true.
Proof.
  induction p as [|a p IH]; [rewrite str_app_nil_l; destruct r; reflexivity|].
  rewrite str_app_cons. cbn [String.prefix].
  destruct (ascii_dec a a); [exact IH | contradiction].
Qed.

Lemma contains_infix (needle a b : string) :
  PyStr.contains needle (a +:+ needle +:+ b) = true.
Proof.
  induction a as [|ch a IH].
  - rewrite str_app_nil_l. destruct (needle +:+ b) eqn:E; cbn [PyStr.contains];
      rewrite <- E, prefix_refl_app; reflexivity.
  - rewrite str_app_cons. cbn [PyStr.contains]. rewrite IH.
    destruct (String.prefix needle _); reflexivity.
Qed.

Lemma lstrip_app (s : string) : exists ws, s = ws +:+ PyStr.lstrip s.
Proof.
  induction s as [|ch s [ws IH]]; cbn [PyStr.lstrip].
  - exists "". reflexivity.
  - destruct (PyStr.isspace ch).
    + exists (String ch ws). rewrite str_app_cons. f_equal. exact IH.
    + exists "". reflexivity.
Qed.

Lemma rstrip_app (s : string) : exists ws, s = PyStr.rstrip s +:+ ws.
Proof.
  induction s as [|ch s [ws IH]]; cbn [PyStr.rstrip].
  - exists "". reflexivity.
  - destruct (PyStr.rstrip s) as [|ch' r] eqn:E.
    + destruct (PyStr.isspace ch).
      * exists (String ch s). reflexivity.
      * exists ws. rewrite str_app_cons, str_app_nil_l. f_equal.
        rewrite IH. reflexivity.
    + exists ws. rewrite str_app_cons. f_equal. exact IH.
Qed.

Lemma strip_app (s : string) : exists ws1 ws2, s = ws1 +:+ PyStr.strip s +:+ ws2.
Proof.
  destruct (lstrip_app s) as [ws1 H1].
  destruct (rstrip_app (PyStr.lstrip s)) as [ws2 H2].
  exists ws1, ws2. unfold PyStr.strip. rewrite <- H2. exact H1.
Qed.

Lemma split_nonempty (ch : ascii) (s : string) : PyStr.split ch s <> [].
Proof.
  destruct s as [|a s]; cbn [PyStr.split]; [discriminate|].
  destruct (Ascii.eqb a ch); [discriminate|].
  destruct (PyStr.split ch s); discriminate.
Qed.

Lemma split_app (a b : string) :
  PyStr.split PyStr.NL (a +:+ PyStr.nl +:+ b)
  = PyStr.split PyStr.NL a ++ PyStr.split PyStr.NL b.
Proof.
  induction a as [|ch a IH].
  - reflexivity.
  - rewrite str_app_cons. cbn [PyStr.split]. rewrite IH.
    destruct (Ascii.eqb ch PyStr.NL); [reflexivity|].
    pose proof (split_nonempty PyStr.NL a) as Hne.
    destruct (PyStr.split PyStr.NL a); [contradiction | reflexivity].
Qed.

Lemma split_line_infix (s line : string) :
  line ∈ PyStr.split PyStr.NL s -> exists a b, s = a +:+ line +:+ b.
Proof.
  revert line. induction s as [|ch s IH]; intros line Hin; cbn [PyStr.split] in Hin.
  - apply list_elem_of_singleton in Hin. subst line. exists "", "". reflexivity.
  - destruct (Ascii.eqb_spec ch PyStr.NL) as [->|Hne].
    + apply elem_of_cons in Hin. destruct Hin as [->|Hin].
      * exists "", (String PyStr.NL s). reflexivity.
      * destruct (IH line Hin) as (a & b & ->).
        exists (String PyStr.NL a), b. reflexivity.
    + pose proof (split_nonempty PyStr.NL s) as Hsplit.
      destruct (PyStr.split PyStr.NL s) as [|l ls] eqn:E; [contradiction|].
      apply elem_of_cons in Hin. destruct Hin as [->|Hin].
      * destruct (IH l (list_elem_of_here _ _)) as (a & b & Hs).
        (* the first line starts the text *)
        assert (Hfirst : exists b', s = l +:+ b').
        { clear -E. revert l ls E. induction s as [|c0 s IHs]; intros l ls E;
            cbn [PyStr.split] in E.
          - injection E as <- <-. exists "". reflexivity.
          - destruct (Ascii.eqb c0 PyStr.NL).
            + injection E as <- <-. exists (String c0 s). reflexivity.
            + pose proof (split_nonempty PyStr.NL s) as Hs.
              destruct (PyStr.split PyStr.NL s) as [|l' ls'] eqn:E'; [contradiction|].
              injection E as <- <-. destruct (IHs l' ls' eq_refl) as [b' ->].
              exists b'. reflexivity. }
        destruct Hfirst as [b' ->]. exists "", b'. reflexivity.
      * destruct (IH line (list_elem_of_further _ _ _ Hin)) as (a & b & ->).
        exists (String ch a), b. reflexivity.
Qed.

(** No line of a text without the separator is a separator line. *)
Lemma separator_free_lines (s : string) :
  separator_free s ->
  Forall (fun line => is_separator_line line = false) (PyStr.split PyStr.NL s).
Proof.
  intros Hfree. apply Forall_forall. intros line Hin.
  destruct (is_separator_line line) eqn:Hsep; [exfalso | reflexivity].
  unfold is_separator_line, PyStr.startswith in Hsep.
  destruct (prefix_app _ _ Hsep) as [r Hr].
  destruct (strip_app line) as (ws1 & ws2 & Hline).
  destruct (split_line_infix s line Hin) as (a & b & Hs).
  unfold separator_free, CELL_SEPARATOR in Hfree.
  rewrite Hs, Hline, Hr in Hfree.
  rewrite !str_app_assoc in Hfree.
  rewrite <- (str_app_assoc a ws1) in Hfree.
  rewrite contains_infix in Hfree. discriminate.
Qed.

Lemma join_cons (sep x : string) (l : list string) :
  l <> [] -> PyStr.join sep (x :: l) = x +:+ sep +:+ PyStr.join sep l.
Proof. destruct l; [contradiction | reflexivity]. Qed.

Lemma join_app (sep : string) (l1 l2 : list string) :
  l1 <> [] -> l2 <> [] ->
  PyStr.join sep (l1 ++ l2) = PyStr.join sep l1 +:+ sep +:+ PyStr.join sep l2.
Proof.
  intros H1 H2. induction l1 as [|x l1 IH]; [contradiction|].
  destruct l1 as [|y l1].
  - cbn [app]. rewrite join_cons by exact H2. reflexivity.
  - change ((x :: y :: l1) ++ l2) with (x :: (y :: l1) ++ l2).
    rewrite join_cons by discriminate. rewrite IH by discriminate.
    rewrite (join_cons sep x (y :: l1)) by discriminate.
    rewrite !str_app_assoc. reflexivity.
Qed.

Lemma join_split (s : string) : PyStr.join PyStr.nl (PyStr.split PyStr.NL s) = s.
Proof.
  induction s as [|ch s IH]; [reflexivity|]. cbn [PyStr.split].
  pose proof (split_nonempty PyStr.NL s) as Hne.
  destruct (Ascii.eqb_spec ch PyStr.NL) as [->|Hch].
  - rewrite join_cons by exact Hne. rewrite IH. reflexivity.
  - destruct (PyStr.split PyStr.NL s) as [|l ls]; [contradiction|].
    destruct ls as [|l' ls].
    + cbn in IH |- *. now rewrite IH.
    + rewrite join_cons by discriminate. rewrite join_cons in IH by discriminate.
      rewrite str_app_cons, IH. reflexivity.
Qed.

(** Lines that are not separators gather in the current cell. *)
Lemma parse_lines_gather (lines : list string) :
  forall cells current_cell,
  Forall (fun line => is_separator_line line = false) lines ->
  fold_left parse_step lines (cells, current_cell) = (cells, current_cell ++ lines).
Proof.
  induction lines as [|line lines IH]; intros cells current_cell Hall; cbn [fold_left].
  - now rewrite app_nil_r.
  - inversion Hall as [|? ? Hline Hrest]; subst.
    unfold parse_step at 2. rewrite Hline. rewrite IH by exact Hrest.
    now rewrite <- app_assoc.
Qed.

Lemma parse_close_cell (content : string) :
  _parse_notebook_cells content
  = close_cell (fold_left parse_step (PyStr.split PyStr.NL content) ([], [])).
Proof.
  unfold _parse_notebook_cells, close_cell.
  destruct (fold_left parse_step (PyStr.split PyStr.NL content) ([], [])) as [cells cur].
  reflexivity.
Qed.

Lemma reconstruct_cons (s r : string) (rest : list string) (tail : string) :
  tail = _reconstruct_notebook (r :: rest) ->
  _reconstruct_notebook (s :: r :: rest)
  = s +:+ PyStr.nl +:+ ("" +:+ PyStr.nl +:+
      (CELL_SEPARATOR +:+ PyStr.nl +:+ ("" +:+ PyStr.nl +:+ tail))).
Proof.
  intros ->. unfold _reconstruct_notebook. rewrite join_cons by discriminate.
  f_equal.
Qed.

Lemma parse_reconstructed (rest : list string) :
  forall (s : string) (cells : list string) (first : bool),
  separator_free s -> Forall separator_free rest ->
  close_cell
    (fold_left parse_step (PyStr.split PyStr.NL (_reconstruct_notebook (s :: rest)))
       (cells, if first then [] else [""]))
  = cells ++ padded_from (if first then "" else PyStr.nl) s rest.
Proof.
  induction rest as [|r rest IH]; intros s cells first Hs Hrest.
  - change (_reconstruct_notebook [s]) with s.
    rewrite parse_lines_gather by (apply separator_free_lines; exact Hs).
    unfold close_cell. cbn [fst snd padded_from].
    pose proof (split_nonempty PyStr.NL s) as Hne.
    destruct first; cbn [app].
    + destruct (PyStr.split PyStr.NL s) as [|l ls] eqn:E; [contradiction|].
      rewrite <- E, join_split. reflexivity.
    + rewrite join_cons by exact Hne. rewrite join_split. reflexivity.
  - inversion Hrest as [|? ? Hr Hrest']; subst.
    rewrite (reconstruct_cons s r rest _ eq_refl).
    rewrite !split_app, !fold_left_app.
    rewrite parse_lines_gather by (apply separator_free_lines; exact Hs).
    change (PyStr.split PyStr.NL "") with [""].
    change (PyStr.split PyStr.NL CELL_SEPARATOR) with [CELL_SEPARATOR].
    cbn [fold_left].
    change (parse_step (cells, (if first then [] else [""]) ++ PyStr.split PyStr.NL s) "")
      with (cells, ((if first then [] else [""]) ++ PyStr.split PyStr.NL s) ++ [""]).
    pose proof (split_nonempty PyStr.NL s) as Hne.
    assert (Hcell : PyStr.join PyStr.nl
                      (((if first then [] else [""]) ++ PyStr.split PyStr.NL s) ++ [""])
                    = (if first then "" else PyStr.nl) +:+ s +:+ PyStr.nl).
    { rewrite join_app; [| |discriminate].
      - destruct first; cbn [app].
        + rewrite join_split. reflexivity.
        + rewrite join_cons by exact Hne. rewrite join_split. reflexivity.
      - destruct first; [exact Hne | discriminate]. }
    assert (Hstep : parse_step
                      (cells, ((if first then [] else [""]) ++ PyStr.split PyStr.NL s) ++ [""])
                      CELL_SEPARATOR
                    = (cells ++ [(if first then "" else PyStr.nl) +:+ s +:+ PyStr.nl], [])).
    { unfold parse_step.
      change (is_separator_line CELL_SEPARATOR) with true. cbv iota.
      destruct (((if first then [] else [""]) ++ PyStr.split PyStr.NL s) ++ [""])
        as [|l ls] eqn:E.
      - destruct ((if first then [] else [""]) ++ PyStr.split PyStr.NL s); discriminate.
      - rewrite Hcell. reflexivity. }
    rewrite Hstep.
    change (parse_step (cells ++ [(if first then "" else PyStr.nl) +:+ s +:+ PyStr.nl], []) "")
      with (cells ++ [(if first then "" else PyStr.nl) +:+ s +:+ PyStr.nl], [""]).
    rewrite (IH r _ false Hr Hrest'). cbn [padded_from].
    rewrite <- app_assoc. reflexivity.
Qed.

Lemma length_padded_from (rest : list string) :
  forall before s, length (padded_from before s rest) = S (length rest).
Proof.
  induction rest as [|r rest IH]; intros before s; cbn [padded_from length];
    [reflexivity | now rewrite IH].
Qed.

Lemma padded_from_lookup (rest : list string) :
  forall (before s : string) (i : nat) (x : string),
  (s :: rest) !! i = Some x ->
  padded_from before s rest !! i
  = Some ((if i is O then before else PyStr.nl) +:+ x
          +:+ (if decide (S i = length (s :: rest)) then "" else PyStr.nl)).
Proof.
  induction rest as [|r rest IH]; intros before s i x Hx; cbn [padded_from].
  - destruct i as [|i]; [|destruct i; discriminate].
    injection Hx as ->. cbn. rewrite str_app_empty_r. reflexivity.
  - destruct i as [|i].
    + injection Hx as ->. reflexivity.
    + cbn [lookup list_lookup] in Hx |- *.
      change ((r :: rest) !! i = Some x) in Hx.
      change (padded_from PyStr.nl r rest !! i
              = Some (PyStr.nl +:+ x +:+
                        (if decide (S (S i) = length (s :: r :: rest))
                         then "" else PyStr.nl))).
      rewrite (IH PyStr.nl r i x Hx).
      destruct i; cbn [length];
        repeat match goal with |- context [decide ?P] => destruct (decide P) end;
        try reflexivity; lia.
Qed.

(** Two cells without the separator do not come back as they were: each
    has gained the newline on its side of the separator. And the empty
    list comes back as one empty cell. *)
Lemma round_trip_counterexample :
  Forall separator_free ["a"; "b"]
  /\ _parse_notebook_cells (_reconstruct_notebook ["a"; "b"])
     = ["a" +:+ PyStr.nl; PyStr.nl +:+ "b"]
  /\ _parse_notebook_cells (_reconstruct_notebook ["a"; "b"]) <> ["a"; "b"]
  /\ _parse_notebook_cells (_reconstruct_notebook []) = [""].
Proof.
  split; [repeat constructor|]. split; [reflexivity|]. split; [|reflexivity].
  vm_compute. discriminate.
Qed.

(** C3, as the code has it. For every non-empty list of cells without
    the separator, parsing the reconstruction gives as many cells, in
    the same order, each with one newline before it unless it is the
    first and one newline after it unless it is the last; a list of one
    cell comes back as it is. *)
Theorem parse_reconstruct_padded (cells : list string) :
  cells <> [] ->
  Forall separator_free cells ->
  _parse_notebook_cells (_reconstruct_notebook cells) = padded cells
  /\ length (_parse_notebook_cells (_reconstruct_notebook cells)) = length cells
  /\ (forall (i : nat) (x : string),
        cells !! i = Some x ->
        _parse_notebook_cells (_reconstruct_notebook cells) !! i
        = Some ((if i is O then "" else PyStr.nl) +:+ x
                +:+ (if decide (S i = length cells) then "" else PyStr.nl)))
  /\ (forall s, cells = [s] -> _parse_notebook_cells (_reconstruct_notebook cells) = [s]).
Proof.
  intros Hne Hall. destruct cells as [|s rest]; [contradiction|].
  inversion Hall as [|? ? Hs Hrest]; subst.
  assert (Hparse : _parse_notebook_cells (_reconstruct_notebook (s :: rest))
                   = padded (s :: rest)).
  { rewrite parse_close_cell.
    exact (parse_reconstructed rest s [] true Hs Hrest). }
  rewrite Hparse. cbn [padded]. split; [reflexivity|]. split; [|split].
  - rewrite length_padded_from. reflexivity.
  - intros i x Hx. rewrite (padded_from_lookup rest "" s i x Hx).
    destruct i; reflexivity.
  - intros s' Heq. injection Heq as -> ->. reflexivity.
Qed.

Lemma parse_reconstruct_padded_witness :
  _parse_notebook_cells (_reconstruct_notebook ["a"; "b"; "c"])
  = ["a" +:+ PyStr.nl; PyStr.nl +:+ "b" +:+ PyStr.nl; PyStr.nl +:+ "c"].
Proof.
  destruct (parse_reconstruct_padded ["a"; "b"; "c"]) as (Hparse & _).
  - discriminate.
  - repeat constructor.
  - exact Hparse.
Defined.

End RoundTrip.

(** * Further properties of the notebook model *)

Section NotebookCells.
Import Databricks.

Lemma split_single_lines (s : string) : Forall single_line (PyStr.split PyStr.NL s).
Proof.
  induction s as [|ch s IH]; cbn [PyStr.split].
  - repeat constructor.
  - destruct (Ascii.eqb ch PyStr.NL) eqn:Ech.
    + constructor; [reflexivity | exact IH].
    + pose proof (split_nonempty PyStr.NL s) as Hne.
      destruct (PyStr.split PyStr.NL s) as [|l ls]; [contradiction|].
      inversion IH as [|? ? Hl Hls]; subst. constructor; [|exact Hls].
      unfold single_line in *. cbn [PyStr.split]. rewrite Ech, Hl. reflexivity.
Qed.

Lemma split_join (lines : list string) :
  lines <> [] -> Forall single_line lines ->
  PyStr.split PyStr.NL (PyStr.join PyStr.nl lines) = lines.
Proof.
  intros Hne Hall. induction lines as [|x lines IH]; [contradiction|].
  inversion Hall as [|? ? Hx Hrest]; subst.
  destruct lines as [|y lines]; [exact Hx|].
  rewrite join_cons by discriminate. rewrite split_app, Hx, IH by (discriminate || assumption).
  reflexivity.
Qed.

Lemma joined_no_separator_line (lines : list string) :
  lines <> [] ->
  Forall (fun line => single_line line /\ is_separator_line line = false) lines ->
  no_separator_line (PyStr.join PyStr.nl lines).
Proof.
  intros Hne Hall. unfold no_separator_line. rewrite split_join.
  - eapply Forall_impl; [exact Hall|]. intros l [_ H]. exact H.
  - exact Hne.
  - eapply Forall_impl; [exact Hall|]. intros l [H _]. exact H.
Qed.

Lemma parse_step_invariant (st : list string * list string) (line : string) :
  single_line line -> parse_invariant st -> parse_invariant (parse_step st line).
Proof.
  destruct st as [cells cur]. intros Hline [Hcells Hcur]. unfold parse_step.
  destruct (is_separator_line line) eqn:Hsep.
  - destruct cur as [|l ls]; [split; assumption|].
    split; [|constructor]. cbn [fst]. apply Forall_app. split; [exact Hcells|].
    constructor; [|constructor]. apply joined_no_separator_line; [discriminate | exact Hcur].
  - split; [exact Hcells|]. cbn [snd]. apply Forall_app. split; [exact Hcur|].
    constructor; [split; assumption | constructor].
Qed.

Lemma parse_loop_invariant (lines : list string) :
  forall st, Forall single_line lines -> parse_invariant st ->
  parse_invariant (fold_left parse_step lines st).
Proof.
  induction lines as [|line lines IH]; intros st Hall Hst; cbn [fold_left];
    [exact Hst|].
  inversion Hall as [|? ? Hline Hrest]; subst.
  apply IH; [exact Hrest|]. apply parse_step_invariant; assumption.
Qed.

(** No cell that [_parse_notebook_cells] returns has a separator line. *)
Theorem parsed_cells_no_separator_line (content : string) :
  Forall no_separator_line (_parse_notebook_cells content).
Proof.
  rewrite parse_close_cell.
  pose proof (parse_loop_invariant (PyStr.split PyStr.NL content) ([], [])
                (split_single_lines content)) as Hinv.
  destruct Hinv as [Hcells Hcur]; [split; constructor|].
  unfold close_cell.
  destruct (fold_left parse_step (PyStr.split PyStr.NL content) ([], [])) as [cells cur].
  cbn [fst snd] in *. destruct cur as [|l ls]; [exact Hcells|].
  apply Forall_app. split; [exact Hcells|].
  constructor; [|constructor]. apply joined_no_separator_line; [discriminate | exact Hcur].
Qed.

(** A document without a separator line is one cell, the whole text;
    this holds for the empty document too. *)
Theorem parse_without_separator (content : string) :
  no_separator_line content -> _parse_notebook_cells content = [content].
Proof.
  intros Hfree. rewrite parse_close_cell.
  rewrite parse_lines_gather by exact Hfree. unfold close_cell. cbn [fst snd app].
  pose proof (split_nonempty PyStr.NL content) as Hne.
  destruct (PyStr.split PyStr.NL content) as [|l ls] eqn:E; [contradiction|].
  rewrite <- E, join_split. reflexivity.
Qed.

Lemma parse_without_separator_witness :
  _parse_notebook_cells ("x = 1" +:+ PyStr.nl +:+ "y = 2")
  = ["x = 1" +:+ PyStr.nl +:+ "y = 2"].
Proof.
  apply parse_without_separator. repeat constructor.
Defined.

(** A separator line at the very start of a document, or at its very
    end, opens no cell: the document parses as it does without it. *)
Theorem parse_ignores_outer_separator (line content : string) :
  single_line line -> is_separator_line line = true ->
  _parse_notebook_cells (line +:+ PyStr.nl +:+ content) = _parse_notebook_cells content
  /\ _parse_notebook_cells (content +:+ PyStr.nl +:+ line) = _parse_notebook_cells content.
Proof.
  intros Hline Hsep. rewrite !parse_close_cell, !split_app, Hline. split.
  - cbn [app fold_left]. unfold parse_step at 2. rewrite Hsep. reflexivity.
  - rewrite fold_left_app. cbn [fold_left].
    destruct (fold_left parse_step (PyStr.split PyStr.NL content) ([], [])) as [cells cur].
    unfold parse_step. rewrite Hsep. destruct cur; reflexivity.
Qed.

Lemma parse_ignores_outer_separator_witness :
  _parse_notebook_cells ("  # COMMAND ---------- 2" +:+ PyStr.nl +:+ "a") = ["a"]
  /\ _parse_notebook_cells ("a" +:+ PyStr.nl +:+ "  # COMMAND ---------- 2") = ["a"].
Proof.
  destruct (parse_ignores_outer_separator "  # COMMAND ---------- 2" "a")
    as [Hstart Hend]; [reflexivity | reflexivity |].
  split; [rewrite Hstart | rewrite Hend]; reflexivity.
Defined.

(** Content that [_validate_cell_content] accepts has no separator
    line, so it cannot split the cell it is put in. *)
Theorem valid_content_no_separator_line (content : string) :
  fst (_validate_cell_content content) = true -> no_separator_line content.
Proof.
  intros Hvalid.
  destruct (validate_cell_content_spec content) as [[_ Heq]|[Hok _]].
  - rewrite Heq in Hvalid. discriminate.
  - apply separator_free_lines. unfold separator_free, CELL_SEPARATOR.
    destruct (PyStr.contains "# COMMAND ----------" content) eqn:E; [|reflexivity].
    exfalso. apply Hok. left. exact E.
Qed.

Lemma valid_content_no_separator_line_witness :
  no_separator_line ("print(1)" +:+ PyStr.nl +:+ "# a comment").
Proof.
  apply valid_content_no_separator_line. reflexivity.
Defined.

(** The lemma behind the padded round trip, for cells that may hold
    the separator inside a line but have no separator line. *)
Lemma parse_reconstructed_lines (rest : list string) :
  forall (s : string) (cells : list string) (first : bool),
  no_separator_line s -> Forall no_separator_line rest ->
  close_cell
    (fold_left parse_step (PyStr.split PyStr.NL (_reconstruct_notebook (s :: rest)))
       (cells, if first then [] else [""]))
  = cells ++ padded_from (if first then "" else PyStr.nl) s rest.
Proof.
  induction rest as [|r rest IH]; intros s cells first Hs Hrest.
  - change (_reconstruct_notebook [s]) with s.
    rewrite parse_lines_gather by exact Hs.
    unfold close_cell. cbn [fst snd padded_from].
    pose proof (split_nonempty PyStr.NL s) as Hne.
    destruct first; cbn [app].
    + destruct (PyStr.split PyStr.NL s) as [|l ls] eqn:E; [contradiction|].
      rewrite <- E, join_split. reflexivity.
    + rewrite join_cons by exact Hne. rewrite join_split. reflexivity.
  - inversion Hrest as [|? ? Hr Hrest']; subst.
    rewrite (reconstruct_cons s r rest _ eq_refl).
    rewrite !split_app, !fold_left_app.
    rewrite parse_lines_gather by exact Hs.
    change (PyStr.split PyStr.NL "") with [""].
    change (PyStr.split PyStr.NL CELL_SEPARATOR) with [CELL_SEPARATOR].
    cbn [fold_left].
    set (pre := (if first then [] else [""]) ++ PyStr.split PyStr.NL s).
    assert (Hpre : pre <> []).
    { subst pre. pose proof (split_nonempty PyStr.NL s).
      destruct first; [assumption | discriminate]. }
    assert (Hjoin : PyStr.join PyStr.nl (pre ++ [""])
                    = (if first then "" else PyStr.nl) +:+ s +:+ PyStr.nl).
    { rewrite join_app by (assumption || discriminate). subst pre.
      destruct first; cbn [app].
      - rewrite join_split. reflexivity.
      - rewrite join_cons by apply split_nonempty. rewrite join_split. reflexivity. }
    change (parse_step (cells, pre) "") with (cells, pre ++ [""]).
    assert (Hstep : parse_step (cells, pre ++ [""]) CELL_SEPARATOR
                    = (cells ++ [(if first then "" else PyStr.nl) +:+ s +:+ PyStr.nl], [])).
    { unfold parse_step. change (is_separator_line CELL_SEPARATOR) with true. cbv iota.
      rewrite <- Hjoin. destruct (pre ++ [""]) eqn:E; [|reflexivity].
      destruct pre; discriminate. }
    rewrite Hstep.
    change (parse_step (cells ++ [(if first then "" else PyStr.nl) +:+ s +:+ PyStr.nl], []) "")
      with (cells ++ [(if first then "" else PyStr.nl) +:+ s +:+ PyStr.nl], [""]).
    rewrite (IH r _ false Hr Hrest'). cbn [padded_from].
    rewrite <- app_assoc. reflexivity.
Qed.

Lemma fold_assign_no_separator_line (ups : list cell_update) :
  forall cells,
  Forall no_separator_line cells ->
  Forall (fun u => no_separator_line (content u)) ups ->
  Forall no_separator_line (fold_left assign ups cells).
Proof.
  induction ups as [|u ups IH]; intros cells Hcells Hups; cbn [fold_left];
    [exact Hcells|].
  inversion Hups as [|? ? Hu Hrest]; subst.
  apply IH; [|exact Hrest]. unfold assign. apply Forall_insert; assumption.
Qed.

(** A batch whose updates all pass the checks, over a notebook with
    at least one cell, hands to [import_] a notebook that has as many
    cells as before when it is parsed again: each cell is the content of
    the last update that names it, or what it was, with the newline that
    reconstruction puts on its side of a separator. The updates cannot
    add or remove a cell.  When the workspace accepts the write, this is
    the text of the notebook afterwards. *)
Theorem update_keeps_cell_count (c : client) (path text : string)
    (ups : list cell_update) :
  source c !! path = Some text ->
  _parse_notebook_cells text <> [] ->
  Forall (valid_update (_parse_notebook_cells text)) ups ->
  let c' := snd (update_notebook_cell (UpdateNotebookCellArgs path None None (Some ups)) c) in
  exists written,
    imports c' = imports c ++ [(path, written)]
    /\ (import_error c path written = None -> source c' !! path = Some written)
    /\ _parse_notebook_cells written
       = padded (fold_left assign ups (_parse_notebook_cells text))
    /\ length (_parse_notebook_cells written) = length (_parse_notebook_cells text).
Proof.
  intros Hsrc Hne Hall c'.
  destruct (update_cells_valid c path text ups Hsrc Hall) as (result & _ & _ & Hcall).
  set (cells' := fold_left assign ups (_parse_notebook_cells text)) in *.
  assert (Hrun : c' = snd (workspace_import_ path (_reconstruct_notebook cells') c)).
  { subst c'. unfold update_notebook_cell.
    cbn [un_cell_index un_updates un_notebook_path]. rewrite Hcall. unfold bind, ret.
    destruct (workspace_import_ path (_reconstruct_notebook cells') c) as [[[]|e] c1];
      reflexivity. }
  destruct (workspace_import_spec path (_reconstruct_notebook cells') c) as [Himp Hend].
  assert (Hlen : length cells' = length (_parse_notebook_cells text))
    by apply length_fold_assign.
  assert (Hfree : Forall no_separator_line cells').
  { apply fold_assign_no_separator_line; [apply parsed_cells_no_separator_line|].
    eapply Forall_impl; [exact Hall|]. intros u [_ Hu].
    apply separator_free_lines. unfold separator_free, CELL_SEPARATOR.
    destruct (PyStr.contains "# COMMAND ----------" (content u)) eqn:E; [|reflexivity].
    exfalso. apply Hu. left. exact E. }
  exists (_reconstruct_notebook cells'). rewrite Hrun.
  split; [exact Himp|].
  split.
  { intros Hacc. rewrite Hacc in Hend. destruct Hend as [_ ->]. apply lookup_insert_eq. }
  assert (Hparse : _parse_notebook_cells (_reconstruct_notebook cells') = padded cells').
  { destruct cells' as [|s rest] eqn:E.
    - exfalso. apply Hne. destruct (_parse_notebook_cells text); [reflexivity | discriminate].
    - inversion Hfree as [|? ? Hs Hrest]; subst.
      rewrite parse_close_cell.
      exact (parse_reconstructed_lines rest s [] true Hs Hrest). }
  split; [exact Hparse|]. rewrite Hparse, <- Hlen.
  destruct cells' as [|s rest]; [reflexivity|]. cbn [padded].
  rewrite length_padded_from. reflexivity.
Qed.

Lemma update_keeps_cell_count_witness :
  exists written,
    source (snd (update_notebook_cell repeated_batch scenario_client)) !! "/nb"
      = Some written
    /\ length (_parse_notebook_cells written) = 3%nat.
Proof.
  destruct (update_keeps_cell_count scenario_client "/nb" scenario_document
              [CellUpdate 0 "x"; CellUpdate 0 "y"])
    as (written & _ & Hsrc & _ & Hlen).
  - reflexivity.
  - discriminate.
  - repeat constructor; vm_compute; try discriminate;
      intros [H|[H _]]; discriminate.
  - exists written. split; [apply Hsrc; reflexivity | exact Hlen].
Defined.

End NotebookCells.

(** * Further properties of the windows *)

Section WindowReports.
Import Databricks.

Lemma read_cell_snd (cell_offset : Z) (cells_output : list string)
    (info : gmap Z value) (i : Z) (cell : string) :
  snd (read_cell cell_offset (cells_output, info) (i, cell))
  = if PyStr.len cell >? MAX_CELL_CONTENT
    then <[cell_offset + i := truncated_cell_entry cell]> info
    else info.
Proof.
  unfold read_cell. destruct (PyStr.len cell >? MAX_CELL_CONTENT); reflexivity.
Qed.

(** The report after the loop over the cells numbered from [j]: an entry
    is an old one or belongs to a cell that is too long. *)
Lemma read_cells_info_inv (cell_offset : Z) (l : list string) :
  forall (j : nat) (cells_output : list string) (info : gmap Z value) (k : Z) (v : value),
  snd (fold_left (read_cell cell_offset)
         (imap (fun i x => (Z.of_nat (j + i), x)) l) (cells_output, info)) !! k = Some v ->
  info !! k = Some v
  \/ exists (i : nat) (cell : string),
       l !! i = Some cell /\ k = cell_offset + Z.of_nat (j + i)
       /\ PyStr.len cell > MAX_CELL_CONTENT /\ v = truncated_cell_entry cell.
Proof.
  induction l as [|x l IH]; intros j cells_output info k v; cbn [imap fold_left].
  - intros H. left. exact H.
  - pose proof (read_cell_snd cell_offset cells_output info (Z.of_nat (j + 0)) x) as Hsnd.
    destruct (read_cell cell_offset (cells_output, info) (Z.of_nat (j + 0), x))
      as [out info1]. cbn [snd] in Hsnd. subst info1.
    rewrite (imap_ext _ (fun i x0 => (Z.of_nat (S j + i), x0))) by
      (intros i y _; cbn; do 2 f_equal; lia).
    intros H. apply IH in H. destruct H as [H|(i & cell & Hi & Hk & Hlong & Hv)].
    + destruct (Z.gtb_spec (PyStr.len x) MAX_CELL_CONTENT) as [Hlong|Hshort];
        [|left; exact H].
      destruct (decide (cell_offset + Z.of_nat (j + 0) = k)) as [Heq|Hne].
      * subst k. rewrite lookup_insert_eq in H. injection H as <-.
        right. exists 0%nat, x. repeat split. lia.
      * rewrite lookup_insert_ne in H by exact Hne. left. exact H.
    + right. exists (S i), cell. repeat split; try assumption. lia.
Qed.

(** A cell that is too long has its entry, under its index in the notebook. *)
Lemma read_cells_info_long (cell_offset : Z) (l : list string) :
  forall (j : nat) (cells_output : list string) (info : gmap Z value)
         (i : nat) (cell : string),
  l !! i = Some cell -> PyStr.len cell > MAX_CELL_CONTENT ->
  snd (fold_left (read_cell cell_offset)
         (imap (fun i x => (Z.of_nat (j + i), x)) l) (cells_output, info))
    !! (cell_offset + Z.of_nat (j + i))
  = Some (truncated_cell_entry cell).
Proof.
  induction l as [|x l IH]; intros j cells_output info i cell Hi Hlong;
    [discriminate|]. cbn [imap fold_left].
  pose proof (read_cell_snd cell_offset cells_output info (Z.of_nat (j + 0)) x) as Hsnd.
  destruct (read_cell cell_offset (cells_output, info) (Z.of_nat (j + 0), x))
    as [out info1]. cbn [snd] in Hsnd. subst info1.
  rewrite (imap_ext _ (fun i x0 => (Z.of_nat (S j + i), x0))) by
    (intros i' y _; cbn; do 2 f_equal; lia).
  destruct i as [|i].
  - injection Hi as ->.
    destruct (snd (fold_left (read_cell cell_offset)
                (imap (fun i x0 => (Z.of_nat (S j + i), x0)) l)
                (out, if PyStr.len cell >? MAX_CELL_CONTENT
                      then <[cell_offset + Z.of_nat (j + 0) := truncated_cell_entry cell]> info
                      else info)) !! (cell_offset + Z.of_nat (j + 0))) as [v|] eqn:E.
    + apply read_cells_info_inv in E.
      destruct E as [E|(i' & cell' & _ & Hk & _)]; [|lia].
      destruct (Z.gtb_spec (PyStr.len cell) MAX_CELL_CONTENT); [|lia].
      rewrite lookup_insert_eq in E. symmetry. exact E.
    + exfalso.
      assert (Hkeep : forall (l' : list string) (j' : nat) out' (info' : gmap Z value) k,
                 is_Some (info' !! k) ->
                 is_Some (snd (fold_left (read_cell cell_offset)
                                 (imap (fun i x0 => (Z.of_nat (j' + i), x0)) l')
                                 (out', info')) !! k)).
      { clear. induction l' as [|y l' IHl]; intros j' out' info' k Hk;
          cbn [imap fold_left]; [exact Hk|].
        pose proof (read_cell_snd cell_offset out' info' (Z.of_nat (j' + 0)) y) as Hs.
        destruct (read_cell cell_offset (out', info') (Z.of_nat (j' + 0), y)) as [o i1].
        cbn [snd] in Hs. subst i1.
        rewrite (imap_ext _ (fun i x0 => (Z.of_nat (S j' + i), x0))) by
          (intros i' z _; cbn; do 2 f_equal; lia).
        apply IHl. destruct (PyStr.len y >? MAX_CELL_CONTENT); [|exact Hk].
        destruct (decide (cell_offset + Z.of_nat (j' + 0) = k)) as [->|Hne].
        - rewrite lookup_insert_eq. eauto.
        - rewrite lookup_insert_ne by exact Hne. exact Hk. }
      destruct (Z.gtb_spec (PyStr.len cell) MAX_CELL_CONTENT); [|lia].
      destruct (Hkeep l (S j) out
                  (<[cell_offset + Z.of_nat (j + 0) := truncated_cell_entry cell]> info)
                  (cell_offset + Z.of_nat (j + 0))) as [v Hv].
      { rewrite lookup_insert_eq. eauto. }
      rewrite Hv in E. discriminate.
  - replace (j + S i)%nat with (S j + i)%nat by lia.
    apply IH; assumption.
Qed.

(** The truncation report of [read_notebook]: [truncated_cells] is in
    the result exactly when one of the returned cells is longer than
    [MAX_CELL_CONTENT]; it has an entry for each such cell and for no
    other, under the index of the cell in the notebook, with the length
    of the cell and the length shown; and [truncation_note] comes with it. *)
Theorem read_notebook_truncation_report (c : client) (args : read_notebook_args)
    (text : string) :
  source c !! rn_notebook_path args = Some text ->
  let window := selected_cells args text in
  let cell_offset := default 0 (rn_cell_offset args) in
  exists r,
    read_notebook args c = (Return r, c)
    /\ (Forall (fun cell => PyStr.len cell <= MAX_CELL_CONTENT) window ->
        r !! "truncated_cells" = None /\ r !! "truncation_note" = None)
    /\ (forall (i : nat) (cell : string),
          window !! i = Some cell -> PyStr.len cell > MAX_CELL_CONTENT ->
          exists d, r !! "truncated_cells" = Some (VIntDict d)
                    /\ d !! (cell_offset + Z.of_nat i) = Some (truncated_cell_entry cell)
                    /\ is_Some (r !! "truncation_note"))
    /\ (forall (d : gmap Z value) (k : Z) (v : value),
          r !! "truncated_cells" = Some (VIntDict d) -> d !! k = Some v ->
          exists (i : nat) (cell : string),
            window !! i = Some cell /\ k = cell_offset + Z.of_nat i
            /\ PyStr.len cell > MAX_CELL_CONTENT /\ v = truncated_cell_entry cell).
Proof.
  intros Hsrc window cell_offset.
  unfold read_notebook, bind, workspace_export. rewrite Hsrc.
  change (match rn_cell_limit args with
          | Some cell_limit =>
              PyList.slice (_parse_notebook_cells text) (default 0 (rn_cell_offset args))
                (default 0 (rn_cell_offset args) + cell_limit)
          | None => PyList.slice_from (_parse_notebook_cells text)
                      (default 0 (rn_cell_offset args))
          end) with window.
  fold cell_offset.
  pose proof (read_cells_info_inv cell_offset window 0 [] ∅) as Hinv.
  pose proof (read_cells_info_long cell_offset window 0 [] ∅) as Hlong.
  change (imap (fun i x => (Z.of_nat (0 + i), x)) window) with (enumerate window)
    in Hinv, Hlong.
  destruct (fold_left (read_cell cell_offset) (enumerate window) ([], ∅))
    as [cells_output info].
  cbn [snd] in Hinv, Hlong. unfold ret.
  eexists. split; [reflexivity|].
  rewrite !lookup_window_other by discriminate.
  assert (Hshort : Forall (fun cell => PyStr.len cell <= MAX_CELL_CONTENT) window ->
                   info = ∅).
  { intros Hall. apply map_empty. intros k.
    destruct (info !! k) as [v|] eqn:E; [|reflexivity].
    destruct (Hinv k v E) as [H|(i & cell & Hi & _ & Hbig & _)].
    - rewrite lookup_empty in H. discriminate.
    - rewrite Forall_forall in Hall.
      assert (Hle : PyStr.len cell <= MAX_CELL_CONTENT).
      { apply Hall. apply list_elem_of_lookup. eauto. }
      lia. }
  destruct (decide (info = ∅)) as [Hempty|Hsome].
  - split; [intros _; split; reflexivity|]. split.
    + intros i cell Hi Hbig. specialize (Hlong i cell Hi Hbig).
      rewrite Hempty, lookup_empty in Hlong. discriminate.
    + intros d k v Hd. discriminate.
  - rewrite lookup_insert_ne, lookup_insert_eq by discriminate.
    rewrite lookup_insert_eq.
    split; [intros Hall; exfalso; exact (Hsome (Hshort Hall))|]. split.
    + intros i cell Hi Hbig. exists info. split; [reflexivity|].
      split; [exact (Hlong i cell Hi Hbig) | eauto].
    + intros d k v [= <-] Hk.
      destruct (Hinv k v Hk) as [H|H]; [rewrite lookup_empty in H; discriminate|].
      exact H.
Qed.

Lemma read_notebook_truncation_report_witness :
  exists r,
    read_notebook (ReadNotebookArgs "/nb" None None) scenario_client
      = (Return r, scenario_client)
    /\ r !! "truncated_cells" = None.
Proof.
  destruct (read_notebook_truncation_report scenario_client
              (ReadNotebookArgs "/nb" None None) scenario_document eq_refl)
    as (r & Hrun & Hshort & _).
  exists r. split; [exact Hrun|]. apply Hshort.
  repeat constructor; vm_compute; discriminate.
Defined.

Lemma slice_past_end {A} (l : list A) (offset hi : Z) :
  PyList.len l <= offset ->
  PyList.slice l offset hi = [] /\ PyList.slice_from l offset = [].
Proof.
  intros Hpast. unfold PyList.slice, PyList.slice_from, PyList.clamp, PyList.len in *.
  destruct (Z.ltb_spec offset 0); [lia|].
  rewrite !skipn_all2 by lia. rewrite firstn_nil. split; reflexivity.
Qed.

(** An offset at or past the end gives an empty window, whatever the
    limit: [list_notebooks] returns no items and [read_notebook] no
    cells, the total is still reported, and neither result has
    [has_more] or [next_offset]. *)
Theorem window_past_end (c : client) (path nb_path text : string)
    (items : list object_info) (limit : option Z) (offset : Z) :
  directory c path = Return items ->
  source c !! nb_path = Some text ->
  (PyList.len items <= offset ->
   exists r,
     list_notebooks (ListNotebooksArgs path limit (Some offset)) c = (Return r, c)
     /\ r !! "items" = Some (VList [])
     /\ r !! "returned_count" = Some (VInt 0)
     /\ r !! "total_count" = Some (VInt (PyList.len items))
     /\ r !! "has_more" = None /\ r !! "next_offset" = None)
  /\ (PyList.len (_parse_notebook_cells text) <= offset ->
      exists r,
        read_notebook (ReadNotebookArgs nb_path (Some offset) limit) c = (Return r, c)
        /\ r !! "cells" = Some (VList [])
        /\ r !! "cells_returned" = Some (VInt 0)
        /\ r !! "total_cells" = Some (VInt (PyList.len (_parse_notebook_cells text)))
        /\ r !! "has_more" = None /\ r !! "next_offset" = None).
Proof.
  intros Hdir Hsrc. split; intros Hpast.
  - destruct (list_notebooks_spec c (ListNotebooksArgs path limit (Some offset)) items Hdir)
      as (r & Hrun & Hitems & Htotal & Hret & _ & Hinv & _).
    cbn [ln_path ln_limit ln_offset] in *.
    change (default 0 (Some offset)) with offset in *.
    assert (Hlen : PyList.len (map notebook_item items) = PyList.len items)
      by (unfold PyList.len; now rewrite length_map).
    destruct (slice_past_end (map notebook_item items) offset
                (offset + default MAX_LIST_ITEMS limit)) as [Hslice _]; [lia|].
    rewrite Hslice in *. rewrite Hlen in *.
    exists r. split; [exact Hrun|]. split; [exact Hitems|]. split; [exact Hret|].
    split; [exact Htotal|].
    destruct Hinv as (_ & Hnone & Hnext & _).
    assert (Hmore : r !! "has_more" = None)
      by (apply Hnone; unfold PyList.len in *; cbn [length]; lia).
    split; [exact Hmore|].
    destruct (r !! "next_offset") eqn:E; [|reflexivity].
    assert (Hs : is_Some (Some v)) by eauto. apply Hnext in Hs. congruence.
  - destruct (read_notebook_spec c (ReadNotebookArgs nb_path (Some offset) limit) text Hsrc)
      as (r & Hrun & Hcells & Htotal & Hret & _ & Hinv & _).
    cbn [rn_notebook_path rn_cell_limit rn_cell_offset] in *.
    change (default 0 (Some offset)) with offset in *.
    assert (Hwin : match limit with
                   | Some cell_limit =>
                       PyList.slice (_parse_notebook_cells text) offset (offset + cell_limit)
                   | None => PyList.slice_from (_parse_notebook_cells text) offset
                   end = []).
    { destruct limit as [l|].
      - exact (proj1 (slice_past_end _ offset (offset + l) Hpast)).
      - exact (proj2 (slice_past_end _ offset 0 Hpast)). }
    rewrite Hwin in *.
    exists r. split; [exact Hrun|]. split; [exact Hcells|]. split; [exact Hret|].
    split; [exact Htotal|].
    destruct Hinv as (_ & Hnone & Hnext & _).
    assert (Hmore : r !! "has_more" = None)
      by (apply Hnone; unfold PyList.len in *; cbn [length]; lia).
    split; [exact Hmore|].
    destruct (r !! "next_offset") eqn:E; [|reflexivity].
    assert (Hs : is_Some (Some v)) by eauto. apply Hnext in Hs. congruence.
Qed.

Lemma window_past_end_witness :
  exists r,
    list_notebooks (ListNotebooksArgs "/dir" (Some 2) (Some 3)) paging_client
      = (Return r, paging_client)
    /\ r !! "has_more" = None.
Proof.
  destruct (window_past_end paging_client "/dir" "/nb" scenario_document three_items
              (Some 2) 3 eq_refl eq_refl) as [Hlist _].
  destruct Hlist as (r & Hrun & _ & _ & _ & Hmore & _); [vm_compute; discriminate|].
  exists r. split; [exact Hrun | exact Hmore].
Defined.

End WindowReports.

(** * Logs of a run *)

Section RunLogsFacts.
Import Databricks.

Variable logs_truncated : run_output -> value.

Lemma length_drop (n : nat) (s : string) :
  String.length (PyStr.drop n s) = (String.length s - n)%nat.
Proof.
  revert s. induction n as [|n IH]; intros [|ch s]; cbn [PyStr.drop String.length];
    try reflexivity; try lia. apply IH.
Qed.

Lemma str_take_drop (n : nat) (s : string) : PyStr.take n s +:+ PyStr.drop n s = s.
Proof.
  revert s. induction n as [|n IH]; intros [|ch s]; cbn [PyStr.take PyStr.drop];
    try reflexivity. rewrite str_app_cons, IH. reflexivity.
Qed.

Lemma str_drop_drop (n m : nat) (s : string) :
  PyStr.drop m (PyStr.drop n s) = PyStr.drop (n + m) s.
Proof.
  revert s. induction n as [|n IH]; intros s; [reflexivity|].
  destruct s as [|ch s]; cbn [PyStr.drop Nat.add].
  - destruct m; reflexivity.
  - apply IH.
Qed.

Lemma str_drop_all (n : nat) (s : string) :
  (String.length s <= n)%nat -> PyStr.drop n s = "".
Proof.
  revert s. induction n as [|n IH]; intros [|ch s] H; cbn [PyStr.drop String.length] in *;
    try reflexivity; try lia. apply IH. lia.
Qed.

Lemma str_take_app (a b : string) : PyStr.take (String.length a) (a +:+ b) = a.
Proof.
  induction a as [|ch a IH]; [reflexivity|].
  rewrite str_app_cons. cbn [String.length PyStr.take]. rewrite IH. reflexivity.
Qed.

(** From a positive offset on, the slice is what is left after dropping. *)
Lemma logs_from_offset (full : string) (offset : Z) :
  (if offset >? 0 then PyStr.slice_from full offset else full)
  = PyStr.drop (Z.to_nat offset) full.
Proof.
  destruct (Z.gtb_spec offset 0) as [Hpos|Hneg].
  - unfold PyStr.slice_from. destruct (Z.ltb_spec offset 0); [lia|].
    destruct (Z.le_gt_cases offset (PyStr.len full)).
    + f_equal. lia.
    + rewrite !str_drop_all; [reflexivity | |]; unfold PyStr.len in *; lia.
  - replace (Z.to_nat offset) with 0%nat by lia. reflexivity.
Qed.

Lemma logs_with_note_nonempty (a : string) (max_size offset total_size : Z) :
  String.eqb (a +:+ logs_note max_size offset total_size) "" = false.
Proof.
  apply String.eqb_neq. unfold logs_note, PyStr.nl.
  rewrite (str_app_cons PyStr.NL "" _). destruct a; discriminate.
Qed.

(** An entry of the result of [get_run_logs] that is not about the
    error of the run is not touched by the part that adds the error. *)
Ltac lookup_past_error :=
  repeat first
    [ rewrite lookup_union_r by (apply truncate_text_meta_other; discriminate)
    | rewrite lookup_insert_ne by discriminate ].

(** One call of [get_run_logs] with a limit that is not negative. The
    total size is that of the whole log text, whatever the offset. When
    more than [max_size] characters are left from the offset on, the
    result carries the first [max_size] of them followed by the note,
    says that the limit cut the logs and gives [offset + max_size] as
    [next_offset]; otherwise it carries all that is left (the words
    [No logs available] when nothing is left) and has no [next_offset].
    A negative offset reads from the start. *)
Theorem get_run_logs_window (c : client) (args : get_run_logs_args) (output : run_output) :
  run_result c (gl_run_id args) = Return output ->
  0 <= default MAX_LOG_SIZE (gl_max_size args) ->
  let offset := default 0 (gl_offset args) in
  let max_size := default MAX_LOG_SIZE (gl_max_size args) in
  let total_size := PyStr.len (full_logs output) in
  let rest := PyStr.drop (Z.to_nat offset) (full_logs output) in
  exists r,
    get_run_logs logs_truncated args c = (Return r, c)
    /\ r !! "logs_total_size" = Some (VInt total_size)
    /\ r !! "logs_offset" = Some (VInt offset)
    /\ if PyStr.len rest >? max_size
       then r !! "logs" = Some (VStr (PyStr.take (Z.to_nat max_size) rest
                                       +:+ logs_note max_size offset total_size))
            /\ r !! "logs_truncated_by_limit" = Some (VBool true)
            /\ r !! "next_offset" = Some (VInt (offset + max_size))
            /\ is_Some (r !! "truncation_note")
       else r !! "logs" = Some (VStr (if String.eqb rest "" then "No logs available"
                                      else rest))
            /\ r !! "logs_truncated_by_limit" = Some (VBool false)
            /\ r !! "next_offset" = None
            /\ r !! "truncation_note" = None.
Proof.
  intros Hout Hmax offset max_size total_size rest.
  unfold get_run_logs, bind, jobs_get_run_output. rewrite Hout.
  fold offset max_size. fold (full_logs output). fold total_size.
  rewrite logs_from_offset. fold rest. unfold ret.
  assert (Hslice : PyStr.len rest > max_size ->
                   PyStr.slice_to rest max_size = PyStr.take (Z.to_nat max_size) rest).
  { intros Hlong. unfold PyStr.slice_to.
    destruct (Z.ltb_spec max_size 0); [lia|]. f_equal. lia. }
  eexists. split; [reflexivity|].
  destruct (Z.gtb_spec (PyStr.len rest) max_size) as [Hlong|Hshort].
  - rewrite Hslice by lia. rewrite logs_with_note_nonempty.
    destruct (truthy (out_error output)); destruct (truthy (out_error_trace output));
      try rewrite (surjective_pairing (truncate_text _ MAX_TEXT_SIZE "error_trace"));
      lookup_past_error; repeat split; eauto.
  - destruct (truthy (out_error output)); destruct (truthy (out_error_trace output));
      try rewrite (surjective_pairing (truncate_text _ MAX_TEXT_SIZE "error_trace"));
      lookup_past_error; repeat split; eauto.
Qed.

(** Reading the logs to the end. With a limit of at least 1 and an
    offset inside the log text, following [next_offset] ends, and the
    pieces, each without its note, concatenate to the log text from the
    offset on: from offset 0, to the whole of it. *)
Theorem follow_run_logs_complete (c : client) (run_id : Z) (max_size : option Z)
    (output : run_output) (fuel : nat) (offset : Z) :
  run_result c run_id = Return output ->
  1 <= default MAX_LOG_SIZE max_size ->
  0 <= offset < PyStr.len (full_logs output) ->
  PyStr.len (full_logs output) - offset < Z.of_nat fuel ->
  follow_run_logs logs_truncated fuel c run_id max_size offset
  = Some (PyStr.drop (Z.to_nat offset) (full_logs output)).
Proof.
  intros Hout Hmax. revert offset.
  induction fuel as [|fuel IH]; intros offset Hoff Hfuel; [lia|].
  cbn [follow_run_logs].
  destruct (get_run_logs_window c (GetRunLogsArgs run_id (Some offset) max_size) output
              Hout) as (r & Hrun & _ & _ & Hcut); [cbn; lia|].
  cbn [gl_run_id gl_offset gl_max_size] in Hrun, Hcut.
  change (default 0 (Some offset)) with offset in Hcut.
  rewrite Hrun. unfold logs_piece.
  set (rest := PyStr.drop (Z.to_nat offset) (full_logs output)) in *.
  set (limit := default MAX_LOG_SIZE max_size) in *.
  assert (Hrest : PyStr.len rest = PyStr.len (full_logs output) - offset).
  { unfold rest, PyStr.len. rewrite length_drop. unfold PyStr.len in Hoff. lia. }
  destruct (Z.gtb_spec (PyStr.len rest) limit) as [Hlong|Hshort].
  - destruct Hcut as (Hlogs & Hby & Hnext & _). rewrite Hlogs, Hby, Hnext.
    rewrite IH by lia. cbn [fmap option_fmap option_map]. f_equal.
    assert (Htake : PyStr.slice_to
                      (PyStr.take (Z.to_nat limit) rest
                         +:+ logs_note limit offset (PyStr.len (full_logs output))) limit
                    = PyStr.take (Z.to_nat limit) rest).
    { unfold PyStr.slice_to. destruct (Z.ltb_spec limit 0); [lia|].
      assert (Hlen : String.length (PyStr.take (Z.to_nat limit) rest) = Z.to_nat limit).
      { rewrite length_take. unfold PyStr.len in Hlong. lia. }
      replace (Z.to_nat (Z.min limit (PyStr.len _))) with (Z.to_nat limit).
      - rewrite <- Hlen at 1. apply str_take_app.
      - rewrite len_app. unfold PyStr.len at 1. rewrite Hlen.
        pose proof (len_nonneg (logs_note limit offset (PyStr.len (full_logs output)))).
        lia. }
    rewrite Htake.
    replace (Z.to_nat (offset + limit)) with (Z.to_nat offset + Z.to_nat limit)%nat by lia.
    rewrite <- str_drop_drop. apply str_take_drop.
  - destruct Hcut as (Hlogs & Hby & Hnext & _). rewrite Hlogs, Hby, Hnext.
    destruct (String.eqb_spec rest "") as [Hempty|_]; [|reflexivity].
    rewrite Hempty in Hrest. change (PyStr.len "") with 0 in Hrest. lia.
Qed.

End RunLogsFacts.

Section RunLogsExamples.
Import Databricks.

Lemma get_run_logs_window_witness :
  exists r,
    get_run_logs (fun _ => VBool false) (GetRunLogsArgs 7 (Some 10) (Some 10)) logs_client
      = (Return r, logs_client)
    /\ r !! "next_offset" = Some (VInt 20)
    /\ r !! "logs_total_size" = Some (VInt 25).
Proof.
  destruct (get_run_logs_window (fun _ => VBool false) logs_client
              (GetRunLogsArgs 7 (Some 10) (Some 10))
              (RunOutput None None None (Some "step 1 ok; step 2 failed.")) eq_refl)
    as (r & Hrun & Htotal & _ & Hcut); [discriminate|].
  exists r. split; [exact Hrun|]. split; [|exact Htotal].
  exact (proj1 (proj2 (proj2 Hcut))).
Defined.

Lemma follow_run_logs_complete_witness :
  follow_run_logs (fun _ => VBool false) 26 logs_client 7 (Some 10) 0
  = Some "step 1 ok; step 2 failed.".
Proof.
  apply (follow_run_logs_complete (fun _ => VBool false) logs_client 7 (Some 10)
           (RunOutput None None None (Some "step 1 ok; step 2 failed.")) 26 0).
  - reflexivity.
  - discriminate.
  - split; [discriminate | reflexivity].
  - reflexivity.
Defined.

End RunLogsExamples.

(** * The end of a wait *)

Section RunWaiterFacts.
Import Databricks.

Lemma wait_loop_polls (run_id timeout_minutes poll_interval max_iterations : Z) (k : nat) :
  forall (fuel : nat) (iteration : Z) (c : client),
  (forall j, (j < k)%nat -> not_terminal (run_status c run_id (polls c + j))) ->
  iteration + Z.of_nat k <= max_iterations ->
  (k <= fuel)%nat ->
  exists c',
    wait_loop fuel run_id timeout_minutes poll_interval max_iterations iteration c
      = wait_loop (fuel - k) run_id timeout_minutes poll_interval max_iterations
          (iteration + Z.of_nat k) c'
    /\ polls c' = (polls c + k)%nat
    /\ slept c' = slept c ++ repeat poll_interval k
    /\ same_upstream c c'.
Proof.
  induction k as [|k IH]; intros fuel iteration c Hrun Hmax Hfuel.
  - exists c. rewrite Nat.sub_0_r, Z.add_0_r, Nat.add_0_r, app_nil_r. repeat split.
  - destruct fuel as [|fuel]; [lia|]. cbn [wait_loop].
    destruct (Z.ltb_spec iteration max_iterations); [|lia].
    destruct (Hrun 0%nat) as (r & Hr & Hst); [lia|]. rewrite Nat.add_0_r in Hr.
    unfold jobs_get_run. rewrite Hr.
    replace (match state r with
             | Some st => terminal_states (life_cycle_state st)
             | None => false
             end) with false by (destruct (state r); [symmetry; exact Hst | reflexivity]).
    cbn [asyncio_sleep].
    edestruct (IH fuel (iteration + 1)) as (c' & Hloop & Hpolls & Hslept & Hsame);
      [| | |rewrite Hloop].
    + cbn [run_status polls]. intros j Hj.
      replace (S (polls c) + j)%nat with (polls c + S j)%nat by lia.
      apply Hrun. lia.
    + lia.
    + lia.
    + exists c'. cbn [Nat.sub]. cbn in Hpolls, Hslept.
      split; [f_equal; lia|]. split; [lia|]. split.
      * rewrite Hslept, <- app_assoc. reflexivity.
      * exact Hsame.
Qed.

(** The first answer that does not show the run still going ends the
    wait. After [k] answers with the run not terminal, within the
    attempts allowed, the next answer decides: an exception of the
    service is raised to the caller, without another try; a terminal
    state hands over to [get_run_output], whose outcome is returned.
    Until then the run was polled [k + 1] times, with [k] sleeps of the
    interval in between. *)
Theorem wait_for_run_first_answer (c : client) (args : wait_for_run_args) (fuel k : nat) :
  let run_id := wr_run_id args in
  let timeout_minutes := default 30 (wr_timeout_minutes args) in
  let poll_interval := default 10 (wr_poll_interval_seconds args) in
  poll_interval <> 0 ->
  (forall j, (j < k)%nat -> not_terminal (run_status c run_id (polls c + j))) ->
  Z.of_nat k < timeout_minutes * 60 / poll_interval ->
  (k < fuel)%nat ->
  exists c',
    polls c' = (polls c + k + 1)%nat
    /\ slept c' = slept c ++ repeat poll_interval k
    /\ same_upstream c c'
    /\ match run_status c run_id (polls c + k) with
       | Raise e => wait_for_run fuel args c = Some (Raise e, c')
       | Return r =>
           is_terminal r -> wait_for_run fuel args c = Some (get_run_output run_id c')
       end.
Proof.
  intros run_id timeout_minutes poll_interval Hpoll Hrun Hk Hfuel.
  unfold wait_for_run. fold run_id timeout_minutes poll_interval.
  destruct (Z.eqb_spec poll_interval 0) as [H0|_]; [contradiction|].
  destruct (wait_loop_polls run_id timeout_minutes poll_interval
              (timeout_minutes * 60 / poll_interval) k fuel 0 c Hrun)
    as (ck & Hloop & Hpolls & Hslept & Hsame); [lia | lia |].
  rewrite Hloop. destruct (fuel - k)%nat as [|rest] eqn:Erest; [lia|].
  cbn [wait_loop]. rewrite Z.add_0_l.
  destruct (Z.ltb_spec (Z.of_nat k) (timeout_minutes * 60 / poll_interval)); [|lia].
  unfold jobs_get_run.
  destruct Hsame as (Hs1 & Hs2 & Hs3 & Hs4).
  rewrite Hs3, Hpolls.
  eexists. split; [|split; [|split; [|
    destruct (run_status c run_id (polls c + k)) as [r|e]; [intros Hterm|reflexivity]]]].
  4: { unfold is_terminal in Hterm. destruct (state r); [|contradiction].
       rewrite Hterm. reflexivity. }
  - cbn [polls]. lia.
  - cbn [slept]. exact Hslept.
  - repeat split; cbn; assumption.
Qed.

Lemma wait_for_run_first_answer_witness :
  exists c',
    wait_for_run 10 (WaitForRunArgs 42 (Some 1) (Some 10)) finishing_client
      = Some (get_run_output 42 c')
    /\ polls c' = 3%nat /\ slept c' = [10; 10].
Proof.
  destruct (wait_for_run_first_answer finishing_client
              (WaitForRunArgs 42 (Some 1) (Some 10)) 10 2)
    as (c' & Hpolls & Hslept & _ & Hans).
  - discriminate.
  - intros j Hj. eexists. split; [reflexivity|].
    destruct j as [|[|j]]; [reflexivity | reflexivity | lia].
  - reflexivity.
  - lia.
  - exists c'. split; [apply Hans; reflexivity|]. split; [exact Hpolls | exact Hslept].
Defined.

(** A wait that never asks. An interval of 0 raises [ZeroDivisionError]
    before any call to the service; and when
    [timeout_minutes * 60 // poll_interval] is not positive (a timeout
    of 0, an interval longer than the timeout, a negative interval) the
    result is [TIMEOUT] at once: the run is not polled even once, so a
    run that has finished is reported as timed out. *)
Theorem wait_for_run_without_poll (c : client) (args : wait_for_run_args) (fuel : nat) :
  let timeout_minutes := default 30 (wr_timeout_minutes args) in
  let poll_interval := default 10 (wr_poll_interval_seconds args) in
  (poll_interval = 0 ->
   exists e, wait_for_run fuel args c = Some (Raise e, c)
             /\ exn_type e = "ZeroDivisionError")
  /\ (poll_interval <> 0 -> timeout_minutes * 60 / poll_interval <= 0 ->
      wait_for_run (S fuel) args c
      = Some (Return (timeout_result (wr_run_id args) timeout_minutes), c)).
Proof.
  intros timeout_minutes poll_interval. unfold wait_for_run.
  fold timeout_minutes poll_interval. split.
  - intros ->. eexists. split; reflexivity.
  - intros Hpoll Hnone. destruct (Z.eqb_spec poll_interval 0); [contradiction|].
    cbn [wait_loop]. destruct (Z.ltb_spec 0 (timeout_minutes * 60 / poll_interval)); [lia|].
    reflexivity.
Qed.

Lemma wait_for_run_without_poll_witness :
  wait_for_run 1 (WaitForRunArgs 42 (Some 1) (Some (-10))) finishing_client
  = Some (Return (timeout_result 42 1), finishing_client).
Proof.
  apply (proj2 (wait_for_run_without_poll finishing_client
                  (WaitForRunArgs 42 (Some 1) (Some (-10))) 0)).
  - discriminate.
  - vm_compute. discriminate.
Defined.

End RunWaiterFacts.

(** * Truncation reports of a run output *)

Section RunOutputReports.
Import Databricks.

Lemma truncate_text_flag (text : string) (b : Z) (name : string) :
  0 <= b ->
  snd (truncate_text text b name) !! (name +:+ "_truncated")
  = if PyStr.len text >? b then Some (VBool true) else None.
Proof.
  intros Hb. destruct (Z.gtb_spec (PyStr.len text) b) as [Hlong|Hshort].
  - rewrite truncate_text_long by lia. cbn [snd].
    rewrite !lookup_insert_ne by (apply field_key_ne; discriminate).
    apply lookup_insert_eq.
  - rewrite truncate_text_short by (left; lia). apply lookup_empty.
Qed.

Lemma lookup_report_other (text : string) (b : Z) (name key : string)
    (m : gmap string value) :
  key <> name +:+ "_truncated" -> key <> name +:+ "_total_size" ->
  key <> name +:+ "_shown_size" ->
  (snd (truncate_text text b name) ∪ m) !! key = m !! key.
Proof.
  intros H1 H2 H3. apply lookup_union_r. apply truncate_text_meta_other; assumption.
Qed.

Lemma lookup_report_flag (text : string) (b : Z) (name : string) (m : gmap string value) :
  0 <= b -> m !! (name +:+ "_truncated") = None ->
  (snd (truncate_text text b name) ∪ m) !! (name +:+ "_truncated")
  = if PyStr.len text >? b then Some (VBool true) else None.
Proof.
  intros Hb Hm. rewrite lookup_union, Hm, truncate_text_flag by exact Hb.
  destruct (PyStr.len text >? b); reflexivity.
Qed.

Ltac peel_result :=
  repeat first
    [ rewrite lookup_report_other by discriminate
    | rewrite lookup_insert_ne by discriminate ].

(** The reports of [get_run_output] do not interfere. The logs and the
    error trace are in the result when the output has them (not empty),
    each cut at its own limit, and each has its [_truncated] flag
    exactly when it is longer than its limit, whatever the other is;
    the error message is passed on as it is. *)
Theorem get_run_output_reports (c : client) (run_id : Z) (r0 : run) (output : run_output) :
  run_status c run_id (polls c) = Return r0 ->
  run_result c run_id = Return output ->
  exists r c',
    get_run_output run_id c = (Return r, c')
    /\ r !! "run_id" = Some (VInt run_id)
    /\ r !! "logs"
       = (fun t => VStr (fst (truncate_text t MAX_LOG_SIZE "logs")))
           <$> truthy (out_logs output)
    /\ r !! "logs_truncated"
       = (if PyStr.len (default "" (out_logs output)) >? MAX_LOG_SIZE
          then Some (VBool true) else None)
    /\ r !! "error_trace"
       = (fun t => VStr (fst (truncate_text t MAX_TEXT_SIZE "error_trace")))
           <$> truthy (out_error_trace output)
    /\ r !! "error_trace_truncated"
       = (if PyStr.len (default "" (out_error_trace output)) >? MAX_TEXT_SIZE
          then Some (VBool true) else None)
    /\ r !! "error" = VStr <$> truthy (out_error output).
Proof.
  intros Hrun Hout.
  unfold get_run_output, bind, jobs_get_run, jobs_get_run_output. cbn [run_result].
  rewrite Hrun, Hout. unfold ret. eexists. eexists. split; [reflexivity|].
  set (base := <["state_message" := _]> _).
  assert (Hbase : forall key, key <> "state_message" -> key <> "result_state" ->
                    key <> "state" -> key <> "run_id" -> base !! key = None).
  { intros key H1 H2 H3 H4. subst base.
    rewrite !lookup_insert_ne by congruence. apply lookup_empty. }
  assert (Hid : base !! "run_id" = Some (VInt run_id)) by reflexivity.
  clearbody base.
  set (with_nb := match out_notebook_output output with
                  | Some nb => _
                  | None => base
                  end).
  assert (Hnb : forall key, key <> "notebook_output" ->
                  key <> "notebook_result_truncated" ->
                  key <> "notebook_result_total_size" ->
                  key <> "notebook_result_shown_size" ->
                  with_nb !! key = base !! key).
  { intros key H1 H2 H3 H4. subst with_nb.
    destruct (out_notebook_output output) as [nb|]; [|reflexivity].
    destruct (truthy (nb_result nb)) as [text|].
    - rewrite (surjective_pairing (truncate_text text MAX_TEXT_SIZE "notebook_result")).
      rewrite lookup_insert_ne by congruence.
      apply lookup_union_r.
      apply truncate_text_meta_other; [exact H2 | exact H3 | exact H4].
    - rewrite lookup_insert_ne by congruence. reflexivity. }
  clearbody with_nb.
  destruct (out_error output) as [[|e0 e]|];
    destruct (out_error_trace output) as [[|t0 t]|];
    destruct (out_logs output) as [[|l0 l]|];
    cbn [truthy default fmap option_fmap option_map];
    repeat match goal with
           | |- context [let '(_, _) := truncate_text ?t ?b ?n in _] =>
               rewrite (surjective_pairing (truncate_text t b n))
           end;
    repeat split;
    peel_result;
    try (rewrite lookup_insert_eq; reflexivity);
    try (rewrite Hnb by discriminate; first [exact Hid | apply Hbase; discriminate]);
    try (change "logs_truncated" with ("logs" +:+ "_truncated");
         rewrite lookup_report_flag;
         [reflexivity | discriminate
         | peel_result; rewrite Hnb by discriminate; apply Hbase; discriminate]);
    try (change "error_trace_truncated" with ("error_trace" +:+ "_truncated");
         rewrite lookup_report_flag;
         [reflexivity | discriminate
         | peel_result; rewrite Hnb by discriminate; apply Hbase; discriminate]).
Qed.

Lemma get_run_output_reports_witness :
  exists r c',
    get_run_output 42 finishing_client = (Return r, c')
    /\ r !! "logs" = Some (VStr "done")
    /\ r !! "logs_truncated" = None.
Proof.
  destruct (get_run_output_reports finishing_client 42
              (Run (Some (RunState RUNNING (Some "SUCCESS") VNone)))
              (RunOutput None None None (Some "done")) eq_refl eq_refl)
    as (r & c' & Hrun & _ & Hlogs & Hflag & _).
  exists r, c'. split; [exact Hrun|]. split; [exact Hlogs | exact Hflag].
Defined.

End RunOutputReports.

(** * What a truncated text shows *)

Section TruncationFacts.
Import Databricks.

(** A text longer than a budget that is not negative is shown as its
    first [max_size] characters followed by the note, under every field
    name; what is cut off is the rest of the text, so the text shown is
    a prefix of the original. *)
Theorem truncate_text_shows_prefix (text : string) (max_size : Z) (name : string) :
  0 <= max_size < PyStr.len text ->
  let shown := PyStr.take (Z.to_nat max_size) text in
  fst (truncate_text text max_size name)
    = shown +:+ truncation_suffix max_size (PyStr.len text)
  /\ PyStr.len shown = max_size
  /\ text = shown +:+ PyStr.drop (Z.to_nat max_size) text.
Proof.
  intros [Hb Hlong] shown. rewrite truncate_text_long by lia. cbn [fst].
  split; [|split].
  - unfold PyStr.slice_to. destruct (Z.ltb_spec max_size 0); [lia|].
    subst shown. do 2 f_equal. lia.
  - subst shown. unfold PyStr.len in *. rewrite length_take. lia.
  - subst shown. symmetry. apply str_take_drop.
Qed.

Lemma truncate_text_shows_prefix_witness :
  fst (truncate_text "hello world" 5 "content")
  = "hello" +:+ truncation_suffix 5 11.
Proof.
  exact (proj1 (truncate_text_shows_prefix "hello world" 5 "content"
                  ltac:(split; [discriminate | reflexivity]))).
Defined.

End TruncationFacts.

(** * The truncation flag of a cluster listing *)

Section ClusterFacts.
Import Databricks.

(** With a requested limit that is not negative, the result of
    [list_clusters] has [truncated] exactly when it returns fewer
    clusters than matched the filter; without the flag, every matching
    cluster is in the result. *)
Theorem list_clusters_truncated_flag (c : client) (args : list_clusters_args)
    (cls : list cluster) :
  cluster_list c = Return cls ->
  0 <= default 25 (lc_limit args) ->
  exists (result : gmap string value) (returned total_matched : Z),
    list_clusters args c = (Return result, c)
    /\ result !! "returned" = Some (VInt returned)
    /\ result !! "total_matched" = Some (VInt total_matched)
    /\ returned <= total_matched
    /\ (result !! "truncated" = Some (VBool true) <-> returned < total_matched)
    /\ (result !! "truncated" = None <-> returned = total_matched)
    /\ (result !! "truncated" = None ->
        result !! "clusters"
        = Some (VList (map shown_cluster
                         (List.filter (cluster_matches (default "all" (lc_filter_by args)))
                            cls)))).
Proof.
  intros Hcls Hlimit.
  set (limit := Z.min (default 25 (lc_limit args)) 100).
  set (matched := List.filter (cluster_matches (default "all" (lc_filter_by args))) cls).
  unfold list_clusters, bind, clusters_list. rewrite Hcls.
  fold limit. rewrite list_clusters_loop. fold matched.
  cbn [app]. change (PyList.len (@nil value)) with 0.
  rewrite Z.sub_0_r, !Z.add_0_l. rewrite Z.gtb_ltb. unfold ret.
  assert (Hlen : PyList.len (firstn (Z.to_nat limit) (map shown_cluster matched))
                 = Z.min limit (PyList.len matched)).
  { unfold PyList.len. rewrite length_firstn, length_map. lia. }
  destruct (Z.ltb_spec limit (PyList.len matched)) as [Hcut|Hall];
    eexists; exists (Z.min limit (PyList.len matched)), (PyList.len matched);
    (split; [reflexivity|]).
  - rewrite Hlen.
    split; [reflexivity|]. split; [reflexivity|]. split; [lia|].
    rewrite lookup_insert_ne, lookup_insert_eq by discriminate.
    split; [split; [intros _; lia | reflexivity]|].
    split; [split; [discriminate | lia]|]. discriminate.
  - rewrite Hlen.
    split; [reflexivity|]. split; [reflexivity|]. split; [lia|].
    split; [split; [discriminate | lia]|].
    split; [split; [intros _; lia | reflexivity]|].
    intros _. rewrite lookup_insert_ne, lookup_insert_ne, lookup_insert_eq by discriminate.
    rewrite firstn_all2; [reflexivity|]. rewrite length_map.
    unfold PyList.len in Hall. lia.
Qed.

Lemma list_clusters_truncated_flag_witness :
  exists (result : gmap string value) (returned total_matched : Z),
    list_clusters (ListClustersArgs None (Some 0)) one_cluster_client
      = (Return result, one_cluster_client)
    /\ result !! "returned" = Some (VInt returned)
    /\ result !! "total_matched" = Some (VInt total_matched)
    /\ (result !! "truncated" = Some (VBool true) <-> returned < total_matched).
Proof.
  destruct (list_clusters_truncated_flag one_cluster_client (ListClustersArgs None (Some 0))
              [one_cluster] eq_refl)
    as (result & returned & total & Hrun & Hret & Htot & _ & Hflag & _);
    [discriminate|].
  exists result, returned, total. repeat split; try assumption; apply Hflag.
Defined.

End ClusterFacts.

(** * Further properties of the Notion server *)

Section NotionFacts.
Import Notion.

Variable format_block : block -> result (gmap string value).
Variable c : client.

(** The two servers cut a text in the same way: [truncate_text] of the
    Notion server returns the text that the one of the Databricks server
    returns, under every field name. So a text within the limit, or an
    empty one, comes back as it is, and a longer one as its first
    [max_size] characters and the note. *)
Theorem notion_truncate_text_agrees (text : string) (max_size : Z) (name : string) :
  Notion.truncate_text text max_size
  = fst (Databricks.truncate_text text max_size name)
  /\ (PyStr.len text <= max_size \/ text = "" ->
      Notion.truncate_text text max_size = text)
  /\ (0 <= max_size < PyStr.len text ->
      Notion.truncate_text text max_size
      = PyStr.take (Z.to_nat max_size) text
          +:+ Databricks.truncation_suffix max_size (PyStr.len text)).
Proof.
  assert (Hagree : Notion.truncate_text text max_size
                   = fst (Databricks.truncate_text text max_size name)).
  { unfold Notion.truncate_text, Databricks.truncate_text, Databricks.truncation_suffix.
    destruct (String.eqb text "" || (PyStr.len text <=? max_size))%bool; [reflexivity|].
    reflexivity. }
  split; [exact Hagree|]. split.
  - intros Hshort. rewrite Hagree, truncate_text_short by exact Hshort. reflexivity.
  - intros Hlong. rewrite Hagree.
    exact (proj1 (truncate_text_shows_prefix text max_size name Hlong)).
Qed.

Lemma remove_dashes_idempotent (s : string) :
  remove_dashes (remove_dashes s) = remove_dashes s.
Proof.
  induction s as [|ch s IH]; [reflexivity|]. cbn [remove_dashes].
  destruct (Ascii.eqb ch "-") eqn:E; [exact IH|].
  cbn [remove_dashes]. rewrite E, IH. reflexivity.
Qed.

(** Arguments that do not matter to [get_page_content]. The dashes of
    the page id are taken out before it is used, so an id gives the same
    run with and without them. And in eager mode ([fetch_all] absent or
    true) a [start_cursor] is ignored: the traversal starts at the first
    page of the children whatever cursor the caller passes. *)
Theorem get_page_content_ignored_arguments (fuel : nat) (page_id : string)
    (fetch_all : option bool) (page_size : option Z) (start_cursor : option string)
    (t : list request) :
  get_page_content format_block c fuel
    (GetPageContentArgs (remove_dashes page_id) fetch_all page_size start_cursor) t
  = get_page_content format_block c fuel
      (GetPageContentArgs page_id fetch_all page_size start_cursor) t
  /\ (fetch_all <> Some false ->
      get_page_content format_block c fuel
        (GetPageContentArgs page_id fetch_all page_size start_cursor) t
      = get_page_content format_block c fuel
          (GetPageContentArgs page_id fetch_all page_size None) t).
Proof.
  split.
  - unfold get_page_content. cbn [ga_page_id ga_fetch_all ga_page_size ga_start_cursor].
    rewrite remove_dashes_idempotent. reflexivity.
  - intros Hmode. unfold get_page_content.
    cbn [ga_page_id ga_fetch_all ga_page_size ga_start_cursor].
    destruct fetch_all as [[|]|]; [reflexivity | contradiction | reflexivity].
Qed.

Lemma sends_only_ret {A} (P : request -> Prop) (a : A) : sends_only P (ret a).
Proof. intros t Ht. exact Ht. Qed.

Lemma sends_only_out_of_fuel {A} (P : request -> Prop) : sends_only P (@out_of_fuel A).
Proof. intros t Ht. exact Ht. Qed.

Lemma sends_only_format_one (P : request -> Prop) (b : block) :
  sends_only P (format_one format_block b).
Proof. intros t Ht. exact Ht. Qed.

Lemma sends_only_get_children (P : request -> Prop) (req : request) :
  P req -> sends_only P (get_children c req).
Proof.
  intros Hreq t Ht. cbn. apply Forall_app. split; [exact Ht|].
  constructor; [exact Hreq | constructor].
Qed.

Lemma sends_only_bind {A B} (P : request -> Prop) (m : T A) (k : A -> T B) :
  sends_only P m -> (forall a, sends_only P (k a)) -> sends_only P (bind m k).
Proof.
  intros Hm Hk t Ht. unfold bind. specialize (Hm t Ht).
  destruct (m t) as [[[a|f]|] t1]; cbn [snd] in *; [|exact Hm..].
  apply Hk. exact Hm.
Qed.

Lemma sends_only_for_each {A S} (P : request -> Prop) (body : S -> A -> T S)
    (l : list A) :
  (forall s x, sends_only P (body s x)) -> forall s, sends_only P (for_each body l s).
Proof.
  intros Hbody. induction l as [|x l IH]; intros s; cbn [for_each].
  - apply sends_only_ret.
  - apply sends_only_bind; [apply Hbody | exact IH].
Qed.

Lemma sends_only_fetch_pages (P : request -> Prop)
    (fetch_children : string -> T (list value))
    (fetch_all : bool) (page_size : Z) (block_id : string) (n : nat) :
  (forall cursor, P (Request block_id page_size cursor)) ->
  (forall child, sends_only P (fetch_children child)) ->
  forall start_cursor all_blocks,
  sends_only P
    (fetch_pages format_block c fetch_children n fetch_all page_size block_id
       start_cursor all_blocks).
Proof.
  intros Hreq Hchildren. induction n as [|n IH]; intros start_cursor all_blocks;
    cbn [fetch_pages].
  - apply sends_only_out_of_fuel.
  - apply sends_only_bind; [apply sends_only_get_children, Hreq|]. intros data.
    apply sends_only_bind.
    + apply sends_only_for_each. intros acc b.
      apply sends_only_bind; [apply sends_only_format_one|]. intros formatted.
      destruct (fetch_all && has_children b).
      * apply sends_only_bind; [apply Hchildren|]. intros children. apply sends_only_ret.
      * apply sends_only_ret.
    + intros acc. destruct (negb fetch_all || negb (has_more data)).
      * apply sends_only_ret.
      * apply IH.
Qed.

Lemma sends_only_fetch_blocks (page_size : Z) (fetch_all : bool) (fuel : nat) :
  forall block_id cursor,
  sends_only (fun req => req_page_size req = page_size)
    (fetch_blocks format_block c fuel fetch_all page_size block_id cursor).
Proof.
  induction fuel as [|fuel IH]; intros block_id cursor; cbn [fetch_blocks].
  - apply sends_only_out_of_fuel.
  - apply sends_only_fetch_pages; [reflexivity|]. intros child. apply IH.
Qed.

(** No request of [get_page_content] asks for more than 100 blocks: in
    both modes, for the page and for every nested block, the page size
    sent is the smaller of the requested one (100 when absent) and 100. *)
Theorem get_page_content_page_size (fuel : nat) (args : get_page_content_args)
    (req : request) :
  req ∈ snd (get_page_content format_block c fuel args []) ->
  req_page_size req = Z.min (default 100 (ga_page_size args)) 100
  /\ req_page_size req <= 100.
Proof.
  intros Hin.
  assert (Hall : Forall (fun req => req_page_size req
                                    = Z.min (default 100 (ga_page_size args)) 100)
                   (snd (get_page_content format_block c fuel args []))).
  { assert (Hsends : sends_only
                       (fun req => req_page_size req
                                   = Z.min (default 100 (ga_page_size args)) 100)
                       (get_page_content format_block c fuel args)).
    { unfold get_page_content. destruct (default true (ga_fetch_all args)).
      - apply sends_only_bind; [apply sends_only_fetch_blocks|]. intros blocks.
        apply sends_only_ret.
      - apply sends_only_bind; [apply sends_only_get_children; reflexivity|].
        intros data. apply sends_only_bind.
        + apply sends_only_for_each. intros acc b.
          apply sends_only_bind; [apply sends_only_format_one|]. intros formatted.
          apply sends_only_ret.
        + intros blocks. apply sends_only_ret. }
    apply Hsends. constructor. }
  rewrite Forall_forall in Hall. specialize (Hall req Hin). split; [exact Hall | lia].
Qed.

End NotionFacts.

Section EagerComplete.
Import Notion.

Lemma get_page_content_page_size_witness :
  req_page_size (Request "first" 50 None) = Z.min (default 100 (Some 50)) 100
  /\ req_page_size (Request "first" 50 None) <= 100.
Proof.
  apply (get_page_content_page_size id_only small_tree_client 5
           (GetPageContentArgs "page" None (Some 50) None) (Request "first" 50 None)).
  apply list_elem_of_further, list_elem_of_here.
Defined.

Lemma for_each_cons {A S} (body : S -> A -> T S) (x : A) (rest : list A) (s : S)
    (t : list request) :
  for_each body (x :: rest) s t
  = match body s x t with
    | (Some (Ok s'), t') => for_each body rest s' t'
    | (Some (Fail f), t') => (Some (Fail f), t')
    | (None, t') => (None, t')
    end.
Proof. reflexivity. Qed.

(** The eager traversal computes what [eager_pages] describes, once the
    fuel for the loop ([nl]) and for the nested calls ([nc]) is enough. *)
Lemma eager_traversal_levels (format_block : block -> result (gmap string value))
    (c : client) (page_size : Z) :
  (forall block_id cursor vs,
     eager_pages format_block c page_size block_id cursor vs ->
     exists n0, forall nc nl, (n0 <= nc)%nat -> (n0 <= nl)%nat ->
       forall acc t, exists t',
         fetch_pages format_block c
           (fun child => fetch_blocks format_block c nc true page_size child None)
           nl true page_size block_id cursor acc t
         = (Some (Ok (acc ++ vs)), t'))
  /\ (forall bs vs,
       eager_blocks format_block c page_size bs vs ->
       exists n0, forall nc, (n0 <= nc)%nat ->
         forall acc t, exists t',
           for_each
             (fun all_blocks b =>
                do formatted <- format_one format_block b;
                if true && has_children b then
                  do children <- fetch_blocks format_block c nc true page_size (id b) None;
                  ret (all_blocks ++ [VDict (<["children" := VList children]> formatted)])
                else ret (all_blocks ++ [VDict formatted]))
             bs acc t
           = (Some (Ok (acc ++ vs)), t')).
Proof.
  apply eager_mutind.
  - (* last page *)
    intros block_id cursor data vs Hget Hlast _ [nb Hblocks].
    exists (S nb). intros nc nl Hnc Hnl acc t.
    destruct nl as [|nl]; [lia|]. cbn [fetch_pages].
    unfold bind at 1. unfold get_children at 1. rewrite Hget.
    unfold bind at 1.
    destruct (Hblocks nc ltac:(lia) acc (t ++ [Request block_id page_size cursor]))
      as [t' Hfor].
    rewrite Hfor. rewrite Hlast. cbn [negb orb]. eexists. reflexivity.
  - (* a page with more to come *)
    intros block_id cursor data vs rest Hget Hmore _ [nb Hblocks] _ [nr Hrest].
    exists (S (Nat.max nb nr)). intros nc nl Hnc Hnl acc t.
    destruct nl as [|nl]; [lia|]. cbn [fetch_pages].
    unfold bind at 1. unfold get_children at 1. rewrite Hget.
    unfold bind at 1.
    destruct (Hblocks nc ltac:(lia) acc (t ++ [Request block_id page_size cursor]))
      as [t' Hfor].
    rewrite Hfor. rewrite Hmore. cbn [negb orb].
    destruct (Hrest nc nl ltac:(lia) ltac:(lia) (acc ++ vs) t') as [t'' Hloop].
    rewrite Hloop. rewrite <- app_assoc. eexists. reflexivity.
  - (* no block *)
    exists 0%nat. intros nc _ acc t. cbn [for_each]. rewrite app_nil_r.
    eexists. reflexivity.
  - (* a block without children *)
    intros b bs formatted vs Hfmt Hleaf _ [nb Hblocks].
    exists nb. intros nc Hnc acc t.
    match goal with |- context [for_each ?body (b :: bs) acc t] => set (bd := body) end.
    rewrite for_each_cons.
    assert (Hbody : bd acc b t = (Some (Ok (acc ++ [VDict formatted])), t)).
    { subst bd. cbv beta. unfold bind, format_one. rewrite Hfmt, Hleaf. reflexivity. }
    rewrite Hbody. subst bd.
    destruct (Hblocks nc Hnc (acc ++ [VDict formatted]) t) as [t' Hfor].
    rewrite Hfor, <- app_assoc. eexists. reflexivity.
  - (* a block with children *)
    intros b bs formatted children vs Hfmt Hnode _ [nk Hkids] _ [nb Hblocks].
    exists (S (Nat.max nk nb)). intros nc Hnc acc t.
    destruct nc as [|nc]; [lia|].
    destruct (Hkids nc nc ltac:(lia) ltac:(lia) [] t) as [t1 Hsub].
    match goal with |- context [for_each ?body (b :: bs) acc t] => set (bd := body) end.
    rewrite for_each_cons.
    assert (Hbody : bd acc b t
                    = (Some (Ok (acc ++ [VDict (<["children" := VList children]> formatted)])),
                       t1)).
    { subst bd. cbv beta. unfold bind, format_one. rewrite Hfmt, Hnode.
      cbn [andb fetch_blocks truthy]. rewrite Hsub. reflexivity. }
    rewrite Hbody. subst bd.
    destruct (Hblocks (S nc) ltac:(lia)
                (acc ++ [VDict (<["children" := VList children]> formatted)]) t1)
      as [t' Hfor].
    rewrite Hfor, <- app_assoc. eexists. reflexivity.
Qed.

(** The eager traversal returns the whole tree. When the tree under the
    page is finite and every request and every formatting succeeds,
    [get_page_content] in eager mode ends, for every fuel from some
    amount on, with one [blocks] entry: the blocks of all the pages of
    the children of the page, in order, each block with children
    carrying their traversal under [children]; and [call_tool] returns
    its JSON text, cut at [MAX_TEXT_SIZE]. *)
Theorem eager_traversal_complete (format_block : block -> result (gmap string value))
    (json_dumps : gmap string value -> string) (c : client)
    (args : get_page_content_args) (vs : list value) :
  ga_fetch_all args <> Some false ->
  eager_pages format_block c (Z.min (default 100 (ga_page_size args)) 100)
    (remove_dashes (ga_page_id args)) None vs ->
  exists fuel0, forall fuel, (fuel0 <= fuel)%nat ->
    fst (get_page_content format_block c fuel args [])
      = Some (Ok (<["blocks" := VList vs]> ∅))
    /\ call_tool format_block json_dumps c fuel args
       = Some (truncate_text (json_dumps (<["blocks" := VList vs]> ∅)) MAX_TEXT_SIZE).
Proof.
  intros Hmode Htree.
  destruct (proj1 (eager_traversal_levels format_block c _) _ _ _ Htree) as [n0 Hrun].
  exists (S n0). intros fuel Hfuel.
  assert (Hget : fst (get_page_content format_block c fuel args [])
                 = Some (Ok (<["blocks" := VList vs]> ∅))).
  { unfold get_page_content.
    replace (default true (ga_fetch_all args)) with true
      by (destruct (ga_fetch_all args) as [[|]|]; [reflexivity | contradiction | reflexivity]).
    destruct fuel as [|fuel]; [lia|].
    unfold bind. cbn [fetch_blocks truthy].
    destruct (Hrun fuel fuel ltac:(lia) ltac:(lia) [] []) as [t' Hpages].
    rewrite Hpages. reflexivity. }
  split; [exact Hget|]. unfold call_tool. rewrite Hget. reflexivity.
Qed.

Lemma eager_traversal_complete_witness :
  exists fuel0, forall fuel, (fuel0 <= fuel)%nat ->
    fst (get_page_content id_only small_tree_client fuel
           (GetPageContentArgs "page" None None None) [])
    = Some (Ok (<["blocks" :=
                   VList ([VDict (<["children" := VList [VDict {[ "id" := VStr "child" ]}]]>
                                    {[ "id" := VStr "first" ]})]
                          ++ [VDict {[ "id" := VStr "second" ]}])]> ∅)).
Proof.
  destruct (eager_traversal_complete id_only (fun _ => "{}") small_tree_client
              (GetPageContentArgs "page" None None None)
              ([VDict (<["children" := VList [VDict {[ "id" := VStr "child" ]}]]>
                         {[ "id" := VStr "first" ]})]
               ++ [VDict {[ "id" := VStr "second" ]}]))
    as [fuel0 Hrun].
  - discriminate.
  - eapply (eager_more id_only small_tree_client 100 "page" None
              (ChildrenPage [Block "first" true VNone] true (Some "cursor-2"))).
    + reflexivity.
    + reflexivity.
    + eapply eager_node; [reflexivity | reflexivity | | apply eager_nil].
      eapply (eager_last id_only small_tree_client 100 "first" None
                (ChildrenPage [Block "child" false VNone] false None)).
      * reflexivity.
      * reflexivity.
      * eapply eager_leaf; [reflexivity | reflexivity | apply eager_nil].
    + eapply (eager_last id_only small_tree_client 100 "page" (Some "cursor-2")
                (ChildrenPage [Block "second" false VNone] false None)).
      * reflexivity.
      * reflexivity.
      * eapply eager_leaf; [reflexivity | reflexivity | apply eager_nil].
  - exists fuel0. intros fuel Hfuel. exact (proj1 (Hrun fuel Hfuel)).
Defined.

End EagerComplete.

(** * Writes of a cell update *)

Section UpdateWrites.
Import Databricks.

Lemma update_notebook_cell_writes_only_valid_witness :
  exists text,
    source scenario_client !! "/nb" = Some text
    /\ forall u, carries repeated_batch u -> valid_update (_parse_notebook_cells text) u.
Proof.
  apply (update_notebook_cell_writes_only_valid scenario_client repeated_batch).
  intros H. apply (f_equal imports) in H. vm_compute in H. discriminate.
Defined.

Lemma update_cells_writes_once (path : string) (ups : list cell_update) (c : client) :
  snd (update_cells path ups c) = c
  \/ exists content result,
       update_cells path ups c
       = (do_ workspace_import_ path content; ret result) c
       /\ result !! "status" = Some (VStr "success").
Proof.
  unfold update_cells, bind, workspace_export, lift.
  destruct (source c !! path) as [text|]; [|left; reflexivity].
  destruct (validate_updates (_parse_notebook_cells text) ups); [left; reflexivity|].
  destruct (apply_updates (_parse_notebook_cells text) [] ups) as [[cells updated]|e];
    [|left; reflexivity].
  right. exists (_reconstruct_notebook cells). eexists. split; reflexivity.
Qed.

(** One call of [update_notebook_cell] calls [import_] at most once.
    Either the workspace is left as it was, which is so for every error
    result and for an exception raised before the write, or [import_]
    was called exactly once, for the notebook of the call.  In that
    case, when the workspace accepts the write the call returns a result
    with [status = "success"] and the notebook has the written text;
    when the workspace refuses it the call raises what [import_] raised
    and no notebook has changed. *)
Theorem update_notebook_cell_writes_once (args : update_notebook_cell_args) (c : client) :
  snd (update_notebook_cell args c) = c
  \/ exists content,
       imports (snd (update_notebook_cell args c))
       = imports c ++ [(un_notebook_path args, content)]
       /\ match import_error c (un_notebook_path args) content with
          | None =>
              (exists result,
                 fst (update_notebook_cell args c) = Return result
                 /\ result !! "status" = Some (VStr "success"))
              /\ source (snd (update_notebook_cell args c))
                 = <[un_notebook_path args := content]> (source c)
          | Some e =>
              fst (update_notebook_cell args c) = Raise e
              /\ source (snd (update_notebook_cell args c)) = source c
          end.
Proof.
  assert (Hcells : forall ups,
            snd (update_cells (un_notebook_path args) ups c) = c
            \/ exists content,
                 imports (snd (update_cells (un_notebook_path args) ups c))
                 = imports c ++ [(un_notebook_path args, content)]
                 /\ match import_error c (un_notebook_path args) content with
                    | None =>
                        (exists result,
                           fst (update_cells (un_notebook_path args) ups c) = Return result
                           /\ result !! "status" = Some (VStr "success"))
                        /\ source (snd (update_cells (un_notebook_path args) ups c))
                           = <[un_notebook_path args := content]> (source c)
                    | Some e =>
                        fst (update_cells (un_notebook_path args) ups c) = Raise e
                        /\ source (snd (update_cells (un_notebook_path args) ups c))
                           = source c
                    end).
  { intros ups. destruct (update_cells_writes_once (un_notebook_path args) ups c)
      as [H|(content & result & Hrun & Hstatus)]; [left; exact H|].
    right. exists content. rewrite Hrun. unfold bind, ret.
    destruct (workspace_import_spec (un_notebook_path args) content c) as [Himp Hend].
    destruct (import_error c (un_notebook_path args) content) as [e|];
      destruct Hend as [Hfst Hsource];
      destruct (workspace_import_ (un_notebook_path args) content c) as [o c1];
      cbn [fst snd] in Hfst, Hsource, Himp; subst o; cbn [fst snd].
    - split; [exact Himp|]. split; [reflexivity | exact Hsource].
    - split; [exact Himp|]. split; [|exact Hsource]. exists result. split; [reflexivity | exact Hstatus]. }
  unfold update_notebook_cell.
  destruct (un_cell_index args) as [i|]; destruct (un_updates args) as [ups|];
    try (left; reflexivity).
  - destruct (un_new_content args) as [s|]; [apply Hcells | left; reflexivity].
  - apply Hcells.
Qed.

Lemma update_notebook_cell_writes_once_witness :
  exists content,
    imports (snd (update_notebook_cell repeated_batch read_only_client))
    = [("/nb", content)]
    /\ fst (update_notebook_cell repeated_batch read_only_client)
       = Raise (Exn "PermissionDenied" "/nb")
    /\ source (snd (update_notebook_cell repeated_batch read_only_client))
       = source read_only_client.
Proof.
  destruct (update_notebook_cell_writes_once repeated_batch read_only_client)
    as [Hsame|(content & Himp & Hend)].
  - apply (f_equal imports) in Hsame. vm_compute in Hsame. discriminate.
  - exists content. split; [exact Himp | exact Hend].
Defined.

End UpdateWrites.
